(** * async_decimal_clock: a clock showing standard and French decimal time

    Shallow embedding of [src/async_decimal_clock.py].

    - Python [int] is [Z]; a time tuple is a [list Z].
    - Python [float] is IEEE-754 binary64.  It is modelled by the Standard
      Library's [spec_float] with the binary64 parameters ([prec = 53],
      [emax = 1024]); every arithmetic operation is the correctly rounded
      (round to nearest, ties to even) operation [SFadd], [SFsub], [SFmul],
      [SFdiv] of [SpecFloat].
    - Exceptions are an error monad [result]. *)

From Stdlib Require Import ZArith Lia List Bool String Ascii.
From Stdlib Require Import Floats.SpecFloat.
From Stdlib Require Import DecimalString.
Import ListNotations.

Local Open Scope string_scope.
Local Open Scope Z_scope.

(** ** Exceptions *)

Inductive exn : Type :=
| IndexError      (* tuple index out of range *)
| OverflowError   (* int too large for a float, floor of an infinity *)
| ValueError      (* floor of a NaN *)
| ZeroDivisionError.

Inductive result (A : Type) : Type :=
| Ok (a : A)
| Raise (e : exn).
Arguments Ok {A} a.
Arguments Raise {A} e.

Definition bind {A B : Type} (c : result A) (k : A -> result B) : result B :=
  match c with
  | Ok a => k a
  | Raise e => Raise e
  end.

Notation "x <- c ;; k" := (bind c (fun x => k))
  (at level 61, c at next level, right associativity).

(** ** binary64 floats *)

Module F64.

Definition prec : Z := 53.
Definition emax : Z := 1024.

Definition float : Type := spec_float.

Definition add : float -> float -> float := SFadd prec emax.
Definition sub : float -> float -> float := SFsub prec emax.
Definition mul : float -> float -> float := SFmul prec emax.
Definition div : float -> float -> float := SFdiv prec emax.

(** [float(n)] for an int [n]: the nearest binary64, [OverflowError] when
    the rounded value is not finite. *)
Definition of_int (n : Z) : result float :=
  match binary_normalize prec emax n 0 false with
  | S754_infinity _ => Raise OverflowError
  | f => Ok f
  end.

(** A float literal with an integral value that binary64 holds exactly. *)
Definition lit (n : Z) : float := binary_normalize prec emax n 0 false.

(** [math.floor(x)]: the largest int below or equal to [x]. *)
Definition floor (x : float) : result Z :=
  match x with
  | S754_zero _ => Ok 0
  | S754_finite s m e => Ok (Z.shiftl (cond_Zopp s (Zpos m)) e)
  | S754_infinity _ => Raise OverflowError
  | S754_nan => Raise ValueError
  end.

(** [a / b] on two ints (true division).  Both operands are converted and
    the quotient is rounded once; this is Python's result whenever both
    operands are below [2^53] in magnitude, which covers every time
    tuple. *)
Definition int_truediv (a b : Z) : result float :=
  if b =? 0 then Raise ZeroDivisionError
  else x <- of_int a ;; y <- of_int b ;; Ok (div x y).

(** [n + x] and [x * n] with an int operand [n]: the int is converted. *)
Definition int_add (n : Z) (x : float) : result float :=
  y <- of_int n ;; Ok (add y x).

Definition mul_int (x : float) (n : Z) : result float :=
  y <- of_int n ;; Ok (mul x y).

End F64.

Abbreviation float := F64.float.

(** ** Strings: [str(int)], [str.zfill], [str.join] *)

(** [str(n)] for an int [n].  Python 3.11 refuses ints of more than 4300
    digits ([ValueError]); the ints that [tick] stores have six digits at
    most, and every statement about a formatted text is about such ints. *)
Definition str_int (n : Z) : string := NilZero.string_of_int (Z.to_int n).

Definition is_sign (c : ascii) : bool :=
  (c =? "-")%char || (c =? "+")%char.

Fixpoint zeros (n : nat) : string :=
  match n with
  | O => EmptyString
  | S n' => String "0" (zeros n')
  end.

Definition zfill (width : nat) (s : string) : string :=
  let fill := zeros (width - String.length s) in
  match s with
  | String c rest => if is_sign c then String c (fill ++ rest) else fill ++ s
  | EmptyString => fill
  end.

Fixpoint join (sep : string) (l : list string) : string :=
  match l with
  | [] => EmptyString
  | [s] => s
  | s :: rest => s ++ sep ++ join sep rest
  end.

(** ** Tuples *)

Definition tuple : Type := list Z.

(** [dt[i]] for a non-negative literal index. *)
Definition index (dt : tuple) (i : nat) : result Z :=
  match nth_error dt i with
  | Some v => Ok v
  | None => Raise IndexError
  end.

(** [dt[0:n]]. *)
Definition slice_to (n : nat) (dt : tuple) : tuple := firstn n dt.

(** ** class Clock *)

Record Clock : Type := mkClock { current_time : tuple }.

(** [Clock()]: the dataclass default [current_time = ()]. *)
Definition Clock_new : Clock := mkClock [].

(** [Clock.__str__]. *)
Definition Clock_str (self : Clock) : string :=
  join ":" (map (fun n => zfill 2 (str_int n)) (slice_to 3 (current_time self))).

(** [ct != self.current_time] on tuples of ints. *)
Definition tuple_ne (a b : tuple) : bool :=
  if list_eq_dec Z.eq_dec a b then false else true.

(** [Clock.update]. *)
Definition update (self : Clock) (ct : tuple) : Clock :=
  if tuple_ne ct (current_time self) then mkClock ct else self.

(** [Clock.tick] reads [datetime.now()]; the reading is the parameter
    [now]. *)
Record datetime : Type := mkDatetime
  { dt_hour : Z; dt_minute : Z; dt_second : Z; dt_microsecond : Z }.

Definition tick (now : datetime) : tuple :=
  [dt_hour now; dt_minute now; dt_second now; dt_microsecond now].

(** [Clock.do_tick]. *)
Definition do_tick (self : Clock) (now : datetime) : Clock :=
  update self (tick now).

(** ** class DecimalClock(Clock) *)

Inductive unit_name : Type := SECONDS | MINUTES | HOURS.

Module StandardDay.
Definition value (u : unit_name) : float :=
  match u with
  | SECONDS => F64.lit 86400
  | MINUTES => F64.lit 1440
  | HOURS => F64.lit 24
  end.
End StandardDay.

Module StandardHour.
Definition value (u : unit_name) : float :=
  match u with
  | SECONDS => F64.lit 3600
  | MINUTES => F64.lit 60
  | HOURS => F64.lit 1
  end.
End StandardHour.

Module StandardMinute.
Definition value (u : unit_name) : float :=
  match u with
  | SECONDS => F64.lit 60
  | MINUTES => F64.lit 1
  | HOURS => F64.div (F64.lit 1) (F64.lit 60)
  end.
End StandardMinute.

Module DecimalDay.
Definition value (u : unit_name) : float :=
  match u with
  | SECONDS => F64.lit 100000
  | MINUTES => F64.lit 10000
  | HOURS => F64.lit 10
  end.
End DecimalDay.

Module DecimalHour.
Definition value (u : unit_name) : float :=
  match u with
  | SECONDS => F64.lit 10000
  | MINUTES => F64.lit 100
  | HOURS => F64.lit 1
  end.
End DecimalHour.

Module DecimalMinute.
Definition value (u : unit_name) : float :=
  match u with
  | SECONDS => F64.lit 100
  | MINUTES => F64.lit 1
  | HOURS => F64.div (F64.lit 1) (F64.lit 10)   (* the literal 0.1 *)
  end.
End DecimalMinute.

(** [DecimalClock.standard_to_seconds]. *)
Definition standard_to_seconds (dt : tuple) : result float :=
  d0 <- index dt 0 ;;
  f0 <- F64.of_int d0 ;;
  let hours := F64.mul f0 (StandardHour.value SECONDS) in
  d1 <- index dt 1 ;;
  f1 <- F64.of_int d1 ;;
  let minutes := F64.mul f1 (StandardMinute.value SECONDS) in
  d2 <- index dt 2 ;;
  d3 <- index dt 3 ;;
  frac <- F64.int_truediv d3 1000000 ;;
  seconds <- F64.int_add d2 frac ;;
  Ok (F64.add (F64.add hours minutes) seconds).

(** [DecimalClock.standard_to_decimal]. *)
Definition standard_to_decimal (dt : tuple) : result (Z * Z * Z) :=
  stn_secs <- standard_to_seconds dt ;;
  let dec_secs :=
    F64.mul stn_secs
      (F64.div (DecimalDay.value SECONDS) (StandardDay.value SECONDS)) in
  dec_hrs <- F64.floor (F64.div dec_secs (DecimalDay.value MINUTES)) ;;
  t1 <- F64.mul_int (DecimalHour.value SECONDS) dec_hrs ;;
  let dec_secs := F64.sub dec_secs t1 in
  dec_mins <- F64.floor (F64.div dec_secs (DecimalHour.value MINUTES)) ;;
  t2 <- F64.mul_int (DecimalMinute.value SECONDS) dec_mins ;;
  dec_secs <- F64.floor (F64.sub dec_secs t2) ;;
  Ok (dec_hrs, dec_mins, dec_secs).

(** [DecimalClock.__str__]. *)
Definition DecimalClock_str (self : Clock) : result string :=
  to_decimal <- standard_to_decimal (current_time self) ;;
  let '(dh, dm, ds) := to_decimal in
  let s := join ":" (map (fun n => zfill 2 (str_int n)) [dh; dm]) in
  Ok (s ++ ":" ++ zfill 3 (str_int ds)).

(** ** [main]: one cycle of the display loop *)

(** [print(s, end=e)]: the text written to standard output. *)
Definition print (s end_ : string) : string := s ++ end_.

(** The carriage return of the f-string and the line feed. *)
Definition cr : string := String (ascii_of_nat 13) EmptyString.
Definition lf : ascii := ascii_of_nat 10.

(** The [print] of [main]: the f-string is built from both [__str__],
    and [end] is the empty string. *)
Definition render (standard_clock decimal_clock : Clock) : result string :=
  let std := Clock_str standard_clock in
  dec <- DecimalClock_str decimal_clock ;;
  Ok (print (cr ++ "STANDARD: " ++ std ++ "    DECIMAL: " ++ dec ++ " ") EmptyString).

(** One iteration of the loop of [main] that no interrupt cuts short: both
    clocks tick, each on its own reading of [datetime.now()], then the line
    is printed. *)
Definition cycle (standard_clock decimal_clock : Clock) (now_s now_d : datetime)
  : Clock * Clock * result string :=
  let sc := do_tick standard_clock now_s in
  let dc := do_tick decimal_clock now_d in
  (sc, dc, render sc dc).

(** ** The clock objects of [main] and their store *)













(** ** The reference algorithm of the specification *)

Module Spec.

(** Steps 2 to 5 of [toDecimalTime], on the float [totalDecimalSeconds]. *)
Definition decimal_fields (totalDecimalSeconds : float) : result (Z * Z * Z) :=
  decimalHour <- F64.floor (F64.div totalDecimalSeconds (F64.lit 10000)) ;;
  hs <- F64.of_int (decimalHour * 10000) ;;
  let remainder := F64.sub totalDecimalSeconds hs in
  decimalMinute <- F64.floor (F64.div remainder (F64.lit 100)) ;;
  ms <- F64.of_int (decimalMinute * 100) ;;
  decimalSecond <- F64.floor (F64.sub remainder ms) ;;
  Ok (decimalHour, decimalMinute, decimalSecond).

(** [hour*3600 + minute*60 + second + microsecond/1_000_000], as it is
    written: the three integer terms are summed first. *)
Definition toDecimalSeconds (h m s us : Z) : result float :=
  frac <- F64.int_truediv us 1000000 ;;
  F64.int_add (h * 3600 + m * 60 + s) frac.

Definition toDecimalTime (h m s us : Z) : result (Z * Z * Z) :=
  secs <- toDecimalSeconds h m s us ;;
  decimal_fields (F64.mul secs (F64.div (F64.lit 100000) (F64.lit 86400))).

(** The algorithm in exact (rational) arithmetic: [n] is the integral part
    of the total decimal seconds. *)
Definition toDecimalTime_exact (h m s us : Z) : Z * Z * Z :=
  let n := ((h * 3600 + m * 60 + s) * 1000000 + us) * 100000
           / (86400 * 1000000) in
  (n / 10000, (n mod 10000) / 100, n mod 100).

End Spec.

(** ** Zero-padded decimal fields *)

Definition digit (d : Z) : ascii := ascii_of_nat (48 + Z.to_nat d).

Definition two_digits (n : Z) : string :=
  String (digit (n / 10)) (String (digit (n mod 10)) EmptyString).

Definition three_digits (n : Z) : string :=
  String (digit (n / 100)) (two_digits (n mod 100)).

Definition pad_check : bool :=
  forallb (fun n => (zfill 2 (str_int n) =? two_digits n)%string
                    && (zfill 3 (str_int n) =? three_digits n)%string)
          (map Z.of_nat (seq 0 100)).

(** * Definitions used by the proofs *)

Definition rnd_div (n d : Z) : Z :=
  let q := n / d in
  match 2 * (n mod d) ?= d with
  | Lt => q
  | Gt => q + 1
  | Eq => if Z.even q then q else q + 1
  end.

Definition Rz (n d : Z) : Z :=
  let k := Z.log2 (n / d) - 52 in
  rnd_div n (d * 2 ^ k) * 2 ^ k.

(** Two extra bits (round and sticky) stand for the whole remainder. *)
Definition sticky_code (r b : Z) : Z :=
  if r =? 0 then 0
  else match 2 * r ?= b with Lt => 1 | Eq => 2 | Gt => 3 end.

(** The record reached after [k] shifts of the integer [N = 4 m + c], where
    [c] codes the initial location on two bits. *)
Definition shr_rec (N k : Z) : shr_record :=
  Build_shr_record (N / 2 ^ (k + 2)) (Z.testbit N (k + 1))
                   (negb (N mod 2 ^ (k + 1) =? 0)).

Definition loc_code (l : location) : Z :=
  match l with
  | loc_Exact => 0
  | loc_Inexact Lt => 1
  | loc_Inexact Eq => 2
  | loc_Inexact Gt => 3
  end.

Definition V (x : spec_float) : Z :=
  match x with
  | S754_finite false m e => Zpos m * 2 ^ (e + 1074)
  | _ => 0
  end.

(** [+0], or a positive normal finite binary64. *)
Definition cano (x : spec_float) : Prop :=
  match x with
  | S754_zero false => True
  | S754_finite false m e => Zpos (digits2_pos m) = 53 /\ -1074 <= e <= 971
  | _ => False
  end.

Definition U : Z := 2 ^ 1074.

Definition fpred (x : spec_float) : spec_float :=
  match x with
  | S754_finite false m e =>
      if Z.pos m =? 2 ^ 52
      then S754_finite false (Z.to_pos (2 ^ 53 - 1)) (e - 1)
      else S754_finite false (Pos.pred m) e
  | _ => x
  end.

Definition canob (x : spec_float) : bool :=
  match x with
  | S754_zero false => true
  | S754_finite false m e =>
      (Z.pos (digits2_pos m) =? 53) && (-1074 <=? e) && (e <=? 971)
  | _ => false
  end.

(** A float of the pipeline: zero or not below [2^-74], at most [2^20]. *)
Definition fine (x : spec_float) : Prop :=
  cano x /\ (V x = 0 \/ 2 ^ 1000 <= V x) /\ V x <= 2 ^ 20 * U.

Definition div_check (c k : Z) : bool :=
  let P := fpred (F64.lit (c * k)) in
  canob P && (2 ^ 1000 <=? V P) && (V P <=? 2 ^ 20 * U)
  && (V (F64.div P (F64.lit c)) <? k * U).

Definition Zrange (n : nat) : list Z := map Z.of_nat (seq 1 n).

Definition div_checks (c : Z) (N : nat) : bool := forallb (div_check c) (Zrange N).

(** The part of [standard_to_decimal] after the rescaling. *)
Definition digits_of (dec_secs : float) : result (Z * Z * Z) :=
  dec_hrs <- F64.floor (F64.div dec_secs (DecimalDay.value MINUTES)) ;;
  t1 <- F64.mul_int (DecimalHour.value SECONDS) dec_hrs ;;
  let dec_secs := F64.sub dec_secs t1 in
  dec_mins <- F64.floor (F64.div dec_secs (DecimalHour.value MINUTES)) ;;
  t2 <- F64.mul_int (DecimalMinute.value SECONDS) dec_mins ;;
  dec_secs <- F64.floor (F64.sub dec_secs t2) ;;
  Ok (dec_hrs, dec_mins, dec_secs).

(** The float that [standard_to_seconds] returns on [(h, m, s, us)]. *)
Definition stn_of (h m s us : Z) : float :=
  F64.add
    (F64.add (F64.mul (F64.lit h) (StandardHour.value SECONDS))
             (F64.mul (F64.lit m) (StandardMinute.value SECONDS)))
    (F64.add (F64.lit s) (F64.div (F64.lit us) (F64.lit 1000000))).

(** The rescaling factor [100000.0 / 86400.0]. *)
Definition ratio : float :=
  F64.div (DecimalDay.value SECONDS) (StandardDay.value SECONDS).

Definition valid (h m s us : Z) : Prop :=
  0 <= h <= 23 /\ 0 <= m <= 59 /\ 0 <= s <= 59 /\ 0 <= us <= 999999.

Definition frac_of (us : Z) : float := F64.div (F64.lit us) (F64.lit 1000000).
Definition sec_of (s us : Z) : float := F64.add (F64.lit s) (frac_of us).
Definition hm_of (h m : Z) : float :=
  F64.add (F64.mul (F64.lit h) (F64.lit 3600)) (F64.mul (F64.lit m) (F64.lit 60)).
Definition ds_of (h m s us : Z) : float := F64.mul (stn_of h m s us) ratio.

Definition time_lt (t1 t2 : Z * Z * Z * Z) : Prop :=
  let '(h1, m1, s1, u1) := t1 in
  let '(h2, m2, s2, u2) := t2 in
  h1 < h2 \/ h1 = h2 /\ (m1 < m2 \/ m1 = m2 /\ (s1 < s2 \/ s1 = s2 /\ u1 < u2)).

Definition dec_le (d1 d2 : Z * Z * Z) : Prop :=
  let '(a1, b1, c1) := d1 in
  let '(a2, b2, c2) := d2 in
  a1 < a2 \/ a1 = a2 /\ (b1 < b2 \/ b1 = b2 /\ c1 <= c2).

Definition ratio_check : bool :=
  canob ratio && (U <=? V ratio) && (V ratio <=? 2 * U).

Definition ds_max_check : bool :=
  V (ds_of 23 59 59 999999) <? 100000 * U.

(** Microseconds since midnight. *)
Definition micros (h m s us : Z) : Z := (h * 3600 + m * 60 + s) * 1000000 + us.

(** The decimal hour, minute and second of a count of decimal seconds. *)
Definition fields_of (n : Z) : Z * Z * Z := (n / 10000, (n mod 10000) / 100, n mod 100).

Definition whole_check : bool :=
  forallb (fun j => match F64.floor (F64.mul (F64.lit (108 * j)) ratio) with
                    | Ok n => n =? 125 * j
                    | Raise _ => false
                    end)
          (map Z.of_nat (seq 0 800)).

(** A reading of [datetime.now()] with its fields in range. *)
Definition valid_now (now : datetime) : Prop :=
  valid (dt_hour now) (dt_minute now) (dt_second now) (dt_microsecond now).

(** The time of day of a count of microseconds. *)
Definition time_of_micros (K : Z) : Z * Z * Z * Z :=
  (K / 3600000000, (K / 60000000) mod 60, (K / 1000000) mod 60, K mod 1000000).

(** * Rounding to nearest, ties to even, on integers *)

Lemma rnd_div_range n d : 0 < d -> n / d <= rnd_div n d <= n / d + 1.
Proof.
  intros Hd. unfold rnd_div.
  destruct (2 * (n mod d) ?= d); [destruct (Z.even (n / d))| |]; lia.
Qed.

Lemma rnd_div_exact z d : 0 < d -> rnd_div (z * d) d = z.
Proof.
  intros Hd. unfold rnd_div.
  rewrite Z.mod_mul, Z.div_mul by lia.
  destruct (Z.compare_spec (2 * 0) d); [lia|reflexivity|lia].
Qed.

Lemma rnd_div_mono n n' d : 0 < d -> n <= n' -> rnd_div n d <= rnd_div n' d.
Proof.
  intros Hd Hn.
  assert (Hq : n / d <= n' / d) by (apply Z.div_le_mono; lia).
  destruct (Z.eq_dec (n / d) (n' / d)) as [E|NE].
  - assert (Hr : n mod d <= n' mod d).
    { pose proof (Z.div_mod n d ltac:(lia)). pose proof (Z.div_mod n' d ltac:(lia)).
      rewrite E in *. lia. }
    unfold rnd_div. rewrite E.
    destruct (Z.compare_spec (2 * (n mod d)) d);
      destruct (Z.compare_spec (2 * (n' mod d)) d);
      destruct (Z.even (n' / d)); lia.
  - pose proof (rnd_div_range n d Hd). pose proof (rnd_div_range n' d Hd). lia.
Qed.

Lemma rnd_div_scale c n d : 0 < c -> 0 < d -> rnd_div (c * n) (c * d) = rnd_div n d.
Proof.
  intros Hc Hd. unfold rnd_div.
  rewrite Z.div_mul_cancel_l, Z.mul_mod_distr_l by lia.
  destruct (Z.compare_spec (2 * (c * (n mod d))) (c * d));
    destruct (Z.compare_spec (2 * (n mod d)) d); try reflexivity; nia.
Qed.

Lemma rnd_div_bounds a b n d :
  0 < d -> a * d <= n <= b * d -> a <= rnd_div n d <= b.
Proof.
  intros Hd [H1 H2]. split.
  - rewrite <- (rnd_div_exact a d Hd). now apply rnd_div_mono.
  - rewrite <- (rnd_div_exact b d Hd). now apply rnd_div_mono.
Qed.

Lemma div_le_cross n d n' d' :
  0 < d -> 0 < d' -> n * d' <= n' * d -> n / d <= n' / d'.
Proof.
  intros Hd Hd' H. apply Z.div_le_lower_bound; [lia|].
  pose proof (Z.mul_div_le n d Hd).
  assert (d * (d' * (n / d)) <= d * n') by nia.
  apply Z.mul_le_mono_pos_l in H1; lia.
Qed.

(** the binade of a quotient *)
Lemma binade n d :
  0 < d -> 2 ^ 52 * d <= n ->
  let k := Z.log2 (n / d) - 52 in
  0 <= k /\ 2 ^ 52 * (d * 2 ^ k) <= n < 2 ^ 53 * (d * 2 ^ k).
Proof.
  intros Hd Hn k.
  assert (Hq : 2 ^ 52 <= n / d) by (apply Z.div_le_lower_bound; lia).
  assert (Hl : 52 <= Z.log2 (n / d)).
  { apply Z.log2_le_pow2; lia. }
  assert (Hk : 0 <= k) by (unfold k; lia).
  destruct (Z.log2_spec (n / d) ltac:(lia)) as [L1 L2].
  replace (Z.log2 (n / d)) with (52 + k) in L1 by (unfold k; lia).
  replace (Z.succ (Z.log2 (n / d))) with (53 + k) in L2 by (unfold k; lia).
  rewrite Z.pow_add_r in L1, L2 by lia.
  pose proof (Z.pow_pos_nonneg 2 k ltac:(lia) Hk) as Hp.
  split; [exact Hk|]. split.
  - pose proof (Z.mul_div_le n d Hd). nia.
  - assert (n / d + 1 <= 2 ^ 53 * 2 ^ k) by lia.
    pose proof (Z.mod_pos_bound n d Hd). pose proof (Z.div_mod n d ltac:(lia)). nia.
Qed.

Lemma Rz_mono n d n' d' :
  0 < d -> 0 < d' -> 2 ^ 52 * d <= n -> n * d' <= n' * d -> Rz n d <= Rz n' d'.
Proof.
  intros Hd Hd' Hn Hc.
  assert (Hn' : 2 ^ 52 * d' <= n') by nia.
  pose proof (binade n d Hd Hn) as B. pose proof (binade n' d' Hd' Hn') as B'.
  pose proof (div_le_cross n d n' d' Hd Hd' Hc) as Hq.
  unfold Rz. cbv zeta in B, B'.
  set (k := Z.log2 (n / d) - 52) in *. set (k' := Z.log2 (n' / d') - 52) in *.
  assert (Hkk : k <= k').
  { unfold k, k'. pose proof (Z.log2_le_mono _ _ Hq). lia. }
  destruct B as (Hk & B1 & B2). destruct B' as (Hk' & B1' & B2').
  pose proof (Z.pow_pos_nonneg 2 k ltac:(lia) Hk) as Hp.
  pose proof (Z.pow_pos_nonneg 2 k' ltac:(lia) Hk') as Hp'.
  destruct (Z.eq_dec k k') as [E|NE].
  - rewrite <- E. apply Z.mul_le_mono_nonneg_r; [lia|].
    rewrite <- (rnd_div_scale d' n (d * 2 ^ k)) by nia.
    rewrite <- (rnd_div_scale d n' (d' * 2 ^ k)) by nia.
    replace (d * (d' * 2 ^ k)) with (d' * (d * 2 ^ k)) by ring.
    apply rnd_div_mono; nia.
  - assert (M1 : rnd_div n (d * 2 ^ k) <= 2 ^ 53) by (apply (rnd_div_bounds 0); nia).
    assert (M2 : 2 ^ 52 <= rnd_div n' (d' * 2 ^ k')) by (apply (rnd_div_bounds _ (2^53)); nia).
    replace k' with (k + 1 + (k' - k - 1)) by lia.
    rewrite !Z.pow_add_r by lia.
    replace k' with (k + 1 + (k' - k - 1)) in M2 by lia.
    rewrite !Z.pow_add_r in M2 by lia.
    pose proof (Z.pow_pos_nonneg 2 (k' - k - 1) ltac:(lia) ltac:(lia)).
    change (2 ^ 1) with 2 in *. change (2 ^ 53) with (2 * 2 ^ 52) in M1.
    set (A := rnd_div n (d * 2 ^ k)) in *.
    set (B := rnd_div n' (d' * (2 ^ k * 2 * 2 ^ (k' - k - 1)))) in *.
    set (P := 2 ^ (k' - k - 1)) in *. set (Q := 2 ^ k) in *. set (T := 2 ^ 52) in *.
    assert (0 < T) by (unfold T; lia).
    clearbody A B P Q T.
    assert (0 <= B * (Q * 2)) by nia.
    apply Z.le_trans with (2 * T * Q); [nia|].
    apply Z.le_trans with (B * (Q * 2)); [nia|].
    apply Z.le_trans with (B * (Q * 2) * 1); [lia|].
    replace (B * (Q * 2 * P)) with (B * (Q * 2) * P) by ring.
    apply Z.mul_le_mono_nonneg_l; lia.
Qed.

Lemma Rz_unfold n d k :
  0 < d -> 0 <= k -> 2 ^ (52 + k) * d <= n < 2 ^ (53 + k) * d ->
  Rz n d = rnd_div n (d * 2 ^ k) * 2 ^ k.
Proof.
  intros Hd Hk [H1 H2]. unfold Rz.
  assert (Hq : Z.log2 (n / d) = 52 + k).
  { apply Z.log2_unique; [lia|]. split.
    - apply Z.div_le_lower_bound; lia.
    - apply Z.div_lt_upper_bound; [lia|].
      replace (Z.succ (52 + k)) with (53 + k) by lia. lia. }
  rewrite Hq. replace (52 + k - 52) with k by lia. reflexivity.
Qed.

Lemma Rz_zero d : Rz 0 d = 0.
Proof.
  unfold Rz. rewrite Zdiv_0_l, Z.log2_nonpos by lia.
  change (2 ^ (0 - 52)) with 0. apply Z.mul_0_r.
Qed.

Lemma Rz_nonneg n d : 0 < d -> 0 <= n -> 0 <= Rz n d.
Proof.
  intros Hd Hn. unfold Rz.
  set (k := Z.log2 (n / d) - 52).
  destruct (Z.lt_ge_cases k 0) as [Hk|Hk].
  - rewrite (Z.pow_neg_r 2 k) by lia. lia.
  - pose proof (Z.pow_pos_nonneg 2 k ltac:(lia) Hk).
    apply Z.mul_nonneg_nonneg; [|lia].
    pose proof (rnd_div_range n (d * 2 ^ k) ltac:(nia)).
    assert (0 <= n / (d * 2 ^ k)) by (apply Z.div_pos; nia). lia.
Qed.

Lemma Rz_mono0 n d n' d' :
  0 < d -> 0 < d' -> n = 0 \/ 2 ^ 52 * d <= n -> n * d' <= n' * d ->
  Rz n d <= Rz n' d'.
Proof.
  intros Hd Hd' [->|Hn] Hc.
  - rewrite Rz_zero. apply Rz_nonneg; nia.
  - now apply Rz_mono.
Qed.

(** The rounding keeps a value that already fits 53 bits. *)
Lemma Rz_exact m j :
  2 ^ 52 <= m < 2 ^ 53 -> 0 <= j -> Rz (m * 2 ^ j) 1 = m * 2 ^ j.
Proof.
  intros Hm Hj.
  pose proof (Z.pow_pos_nonneg 2 j ltac:(lia) Hj).
  rewrite (Rz_unfold _ _ j); [|lia|lia|].
  2:{ rewrite !Z.pow_add_r by lia. set (P := 2 ^ j) in *. clearbody P.
      set (A := 2 ^ 52) in *. set (B := 2 ^ 53) in *. clearbody A B. nia. }
  rewrite Z.mul_1_l, rnd_div_exact by lia. reflexivity.
Qed.

Lemma sticky_code_range r b : 0 <= sticky_code r b <= 3.
Proof.
  unfold sticky_code. destruct (r =? 0); [lia|]. destruct (2 * r ?= b); lia.
Qed.

Lemma compare_eq_of_iff a b c d :
  (a < b <-> c < d) -> (a = b <-> c = d) -> (a ?= b) = (c ?= d).
Proof.
  intros H1 H2.
  destruct (Z.compare_spec a b); destruct (Z.compare_spec c d); try reflexivity; lia.
Qed.

Lemma rnd_div_sticky a b n :
  0 <= a -> 0 < b -> 0 <= n ->
  rnd_div (4 * (a / b) + sticky_code (a mod b) b) (4 * 2 ^ n)
  = rnd_div a (b * 2 ^ n).
Proof.
  intros Ha Hb Hn.
  pose proof (Z.pow_pos_nonneg 2 n ltac:(lia) Hn) as Hp.
  pose proof (sticky_code_range (a mod b) b) as Hc.
  pose proof (Z.mod_pos_bound a b Hb) as Hr.
  set (q := a / b) in *. set (r := a mod b) in *. set (c := sticky_code r b) in *.
  assert (Hq : 0 <= q) by (apply Z.div_pos; lia).
  unfold rnd_div.
  assert (E1 : (4 * q + c) / (4 * 2 ^ n) = q / 2 ^ n).
  { rewrite <- Z.div_div by lia. f_equal. Z.to_euclidean_division_equations. lia. }
  assert (E2 : a / (b * 2 ^ n) = q / 2 ^ n).
  { rewrite <- Z.div_div by lia. reflexivity. }
  assert (E3 : (4 * q + c) mod (4 * 2 ^ n) = c + 4 * (q mod 2 ^ n)).
  { rewrite Z.rem_mul_r by lia. f_equal.
    - Z.to_euclidean_division_equations. lia.
    - f_equal. f_equal. Z.to_euclidean_division_equations. lia. }
  assert (E4 : a mod (b * 2 ^ n) = r + b * (q mod 2 ^ n)).
  { rewrite Z.rem_mul_r by lia. reflexivity. }
  rewrite E1, E2, E3, E4.
  pose proof (Z.mod_pos_bound q (2 ^ n) Hp) as Hrho.
  set (rho := q mod 2 ^ n) in *.
  assert (Hcr : (c = 0 <-> r = 0) /\ (c = 1 <-> (r <> 0 /\ 2 * r < b))
                /\ (c = 2 <-> (r <> 0 /\ 2 * r = b)) /\ (c = 3 <-> (r <> 0 /\ 2 * r > b))).
  { unfold c, sticky_code. destruct (Z.eqb_spec r 0); [lia|].
    destruct (Z.compare_spec (2 * r) b); lia. }
  replace (2 * (c + 4 * rho) ?= 4 * 2 ^ n) with (2 * (r + b * rho) ?= b * 2 ^ n);
    [reflexivity|].
  destruct (Z.eq_dec n 0) as [->|Hn0].
  - change (2 ^ 0) with 1 in *. assert (rho = 0) by lia. subst rho.
    apply compare_eq_of_iff; lia.
  - replace n with (1 + (n - 1)) in * by lia.
    rewrite Z.pow_add_r in * by lia. change (2 ^ 1) with 2 in *.
    pose proof (Z.pow_pos_nonneg 2 (n - 1) ltac:(lia) ltac:(lia)) as HH.
    set (H := 2 ^ (n - 1)) in *. clearbody H. clearbody rho.
    apply compare_eq_of_iff.
    + assert (rho < H \/ rho = H \/ rho > H) as [L|[L|L]] by lia.
      * split; intros _; nia.
      * subst rho. split; intros; nia.
      * split; intros; nia.
    + assert (rho < H \/ rho = H \/ rho > H) as [L|[L|L]] by lia.
      * split; intros; nia.
      * subst rho. split; intros; nia.
      * split; intros; nia.
Qed.

Lemma digits2_pos_log2 m : Zpos (digits2_pos m) = Z.log2 (Zpos m) + 1.
Proof.
  induction m as [p IH|p IH|]; cbn [digits2_pos]; rewrite ?Pos2Z.inj_succ.
  - rewrite IH. change (Z.pos p~1) with (2 * Z.pos p + 1).
    rewrite Z.log2_succ_double by lia. lia.
  - rewrite IH. change (Z.pos p~0) with (2 * Z.pos p).
    rewrite Z.log2_double by lia. lia.
  - reflexivity.
Qed.

Lemma digits2_pos_bounds m d :
  Zpos (digits2_pos m) = d -> 2 ^ (d - 1) <= Zpos m < 2 ^ d.
Proof.
  intros <-. rewrite digits2_pos_log2.
  replace (Z.log2 (Z.pos m) + 1 - 1) with (Z.log2 (Z.pos m)) by lia.
  replace (Z.log2 (Z.pos m) + 1) with (Z.succ (Z.log2 (Z.pos m))) by lia.
  apply Z.log2_spec. lia.
Qed.

Lemma digits2_pos_unique m d :
  2 ^ (d - 1) <= Zpos m < 2 ^ d -> Zpos (digits2_pos m) = d.
Proof.
  intros H. rewrite digits2_pos_log2.
  assert (0 <= d - 1).
  { destruct (Z.le_gt_cases 0 (d - 1)); [assumption|].
    assert (d = 0 \/ d < 0) as [->|Hd] by lia; [simpl in H; lia|].
    rewrite (Z.pow_neg_r 2 d) in H by lia. lia. }
  rewrite (Z.log2_unique (Z.pos m) (d - 1)); [lia|lia|].
  replace (Z.succ (d - 1)) with d by lia. exact H.
Qed.

Lemma nat_iter_plus {A} (f : A -> A) n m x :
  Nat.iter n f (Nat.iter m f x) = Nat.iter (n + m) f x.
Proof. induction n as [|n IH]; simpl; [reflexivity|now rewrite IH]. Qed.

Lemma iter_pos_nat {A} (f : A -> A) p x :
  iter_pos f p x = Nat.iter (Pos.to_nat p) f x.
Proof.
  revert x. induction p as [p IH|p IH|]; intros x; cbn [iter_pos].
  - rewrite !IH. change (f x) with (Nat.iter 1 f x).
    rewrite !nat_iter_plus. f_equal. lia.
  - rewrite !IH, nat_iter_plus. f_equal. lia.
  - reflexivity.
Qed.

(** One right shift of a non-negative mantissa with its round and sticky bits. *)
Lemma shr_1_nonneg m r s :
  0 <= m ->
  shr_1 (Build_shr_record m r s) = Build_shr_record (m / 2) (Z.odd m) (r || s).
Proof.
  intros Hm. destruct m as [|p|p]; [reflexivity| |lia].
  destruct p as [p|p|]; cbn [shr_1].
  - f_equal. replace (Z.pos p~1) with (1 + Z.pos p * 2) by lia.
    rewrite Z.div_add by lia. reflexivity.
  - f_equal. replace (Z.pos p~0) with (0 + Z.pos p * 2) by lia.
    rewrite Z.div_add by lia. reflexivity.
  - reflexivity.
Qed.

Lemma mod_pow2_succ N k :
  0 <= k -> N mod 2 ^ (k + 1) = N mod 2 ^ k + 2 ^ k * Z.b2z (Z.testbit N k).
Proof.
  intros Hk. rewrite Z.pow_add_r by lia. change (2 ^ 1) with 2.
  rewrite Z.rem_mul_r by lia. rewrite Z.testbit_spec' by lia. reflexivity.
Qed.

Lemma shr_1_rec N k :
  0 <= N -> 0 <= k -> shr_1 (shr_rec N k) = shr_rec N (k + 1).
Proof.
  intros HN Hk. unfold shr_rec.
  rewrite shr_1_nonneg by (apply Z.div_pos; lia).
  f_equal.
  - rewrite Z.div_div by lia. f_equal.
    replace (k + 1 + 2) with (k + 2 + 1) by lia. rewrite (Z.pow_add_r 2 (k + 2) 1) by lia. reflexivity.
  - rewrite <- Z.shiftr_div_pow2 by lia. rewrite <- Z.bit0_odd.
    rewrite Z.shiftr_spec by lia. f_equal. lia.
  - rewrite (mod_pow2_succ N (k + 1)) by lia.
    pose proof (Z.mod_pos_bound N (2 ^ (k + 1)) ltac:(lia)).
    assert (0 < 2 ^ (k + 1)) by lia.
    destruct (Z.testbit N (k + 1)); cbn [Z.b2z orb].
    + symmetry. apply negb_true_iff, Z.eqb_neq. lia.
    + f_equal. f_equal. lia.
Qed.

Lemma shr_iter N k :
  0 <= N -> Nat.iter k shr_1 (shr_rec N 0) = shr_rec N (Z.of_nat k).
Proof.
  intros HN. induction k as [|k IH]; [reflexivity|].
  change (Nat.iter (S k) shr_1 (shr_rec N 0))
    with (shr_1 (Nat.iter k shr_1 (shr_rec N 0))).
  rewrite IH, shr_1_rec by lia. f_equal. lia.
Qed.

Lemma loc_code_range l : 0 <= loc_code l <= 3.
Proof. destruct l as [|[]]; simpl; lia. Qed.

Lemma shr_record_of_loc_rec m l :
  shr_record_of_loc m l = shr_rec (4 * m + loc_code l) 0.
Proof.
  unfold shr_rec. change (2 ^ (0 + 2)) with 4. change (2 ^ (0 + 1)) with 2.
  change (0 + 1) with 1.
  assert (Hm : (4 * m + loc_code l) / 4 = m).
  { pose proof (loc_code_range l). Z.to_euclidean_division_equations. lia. }
  assert (Hb : Z.b2z (Z.testbit (4 * m + loc_code l) 1) = loc_code l / 2).
  { rewrite Z.testbit_spec' by lia. change (2 ^ 1) with 2.
    pose proof (loc_code_range l). Z.to_euclidean_division_equations. lia. }
  assert (Hs : (4 * m + loc_code l) mod 2 = loc_code l mod 2).
  { Z.to_euclidean_division_equations. lia. }
  rewrite Hm, Hs.
  destruct l as [|[]]; cbn [loc_code] in *; cbn [shr_record_of_loc];
    destruct (Z.testbit _ 1); cbn in Hb; try discriminate; reflexivity.
Qed.

Lemma rne_shr_rec N k :
  0 <= N -> 0 <= k ->
  round_nearest_even (shr_m (shr_rec N k)) (loc_of_shr_record (shr_rec N k))
  = rnd_div N (2 ^ (k + 2)).
Proof.
  intros HN Hk. unfold rnd_div, shr_rec. cbn [shr_m loc_of_shr_record].
  replace (k + 2) with (k + 1 + 1) by lia.
  rewrite (mod_pow2_succ N (k + 1)) by lia.
  rewrite (Z.pow_add_r 2 (k + 1) 1) by lia. change (2 ^ 1) with 2.
  pose proof (Z.mod_pos_bound N (2 ^ (k + 1)) ltac:(lia)) as Hlow.
  assert (Hp : 0 < 2 ^ (k + 1)) by lia.
  set (low := N mod 2 ^ (k + 1)) in *. set (P := 2 ^ (k + 1)) in *.
  set (q := N / (P * 2)).
  destruct (Z.testbit N (k + 1)); cbn [Z.b2z];
    destruct (Z.eqb_spec low 0) as [E|E]; cbn [negb round_nearest_even].
  - rewrite E. replace (2 * (0 + P * 1) ?= P * 2) with Eq; [reflexivity|].
    symmetry. apply Z.compare_eq_iff. lia.
  - replace (2 * (low + P * 1) ?= P * 2) with Gt; [reflexivity|].
    symmetry. apply Z.compare_gt_iff. lia.
  - rewrite E. replace (2 * (0 + P * 0) ?= P * 2) with Lt; [reflexivity|].
    symmetry. apply Z.compare_lt_iff. lia.
  - replace (2 * (low + P * 0) ?= P * 2) with Lt; [reflexivity|].
    symmetry. apply Z.compare_lt_iff. lia.
Qed.

Lemma shr_fexp_correct m e l n :
  0 < m -> Zdigits2 m = 53 + n -> 0 <= n -> -1074 <= e + n ->
  shr_fexp F64.prec F64.emax m e l = (shr_rec (4 * m + loc_code l) n, e + n).
Proof.
  intros Hm Hd Hn He. unfold shr_fexp, fexp, emin, F64.prec, F64.emax. rewrite Hd.
  replace (Z.max (53 + n + e - 53) (3 - 1024 - 53) - e) with n by lia.
  rewrite shr_record_of_loc_rec.
  pose proof (loc_code_range l).
  destruct n as [|p|p]; [| |lia].
  - cbn [shr]. f_equal. lia.
  - cbn [shr]. rewrite iter_pos_nat, shr_iter by lia.
    rewrite positive_nat_Z. reflexivity.
Qed.

Lemma Zdigits2_bounds m d :
  0 < m -> Zdigits2 m = d -> 2 ^ (d - 1) <= m < 2 ^ d.
Proof.
  intros Hm Hd. destruct m as [|p|p]; try lia.
  cbn [Zdigits2] in Hd. now apply digits2_pos_bounds.
Qed.

Lemma Zdigits2_unique m d :
  2 ^ (d - 1) <= m < 2 ^ d -> 0 < m -> Zdigits2 m = d.
Proof.
  intros H Hm. destruct m as [|p|p]; try lia.
  cbn [Zdigits2]. now apply digits2_pos_unique.
Qed.

(** [binary_round_aux] on a positive mantissa of at least 53 digits, when the
    result is normal and finite. *)
Lemma bra_correct mx ex lx n :
  0 < mx -> Zdigits2 mx = 53 + n -> 0 <= n ->
  -1074 <= ex + n -> ex + n + 1 <= 971 ->
  let R := rnd_div (4 * mx + loc_code lx) (2 ^ (n + 2)) in
  2 ^ 52 <= R <= 2 ^ 53 /\
  binary_round_aux F64.prec F64.emax false mx ex lx =
    if R =? 2 ^ 53 then S754_finite false (Z.to_pos (2 ^ 52)) (ex + n + 1)
    else S754_finite false (Z.to_pos R) (ex + n).
Proof.
  intros Hm Hd Hn Hlo Hhi R.
  pose proof (Zdigits2_bounds mx _ Hm Hd) as Hb.
  replace (53 + n - 1) with (52 + n) in Hb by lia.
  rewrite !Z.pow_add_r in Hb by lia.
  pose proof (loc_code_range lx) as Hc.
  assert (HR : 2 ^ 52 <= R <= 2 ^ 53).
  { unfold R. apply rnd_div_bounds; [lia|].
    rewrite (Z.pow_add_r 2 n 2) by lia. change (2 ^ 2) with 4.
    pose proof (Z.pow_pos_nonneg 2 n ltac:(lia) Hn).
    set (P := 2 ^ n) in *. clearbody P. lia. }
  split; [exact HR|].
  unfold binary_round_aux.
  rewrite (shr_fexp_correct mx ex lx n) by assumption.
  rewrite rne_shr_rec by lia. fold R.
  destruct (Z.eqb_spec R (2 ^ 53)) as [E|NE].
  - rewrite E.
    rewrite (shr_fexp_correct (2 ^ 53) (ex + n) loc_Exact 1) by (try reflexivity; lia).
    cbn [shr_rec shr_m loc_code].
    replace (ex + n + 1 <=? F64.emax - F64.prec) with true
      by (symmetry; apply Z.leb_le; unfold F64.emax, F64.prec; lia).
    reflexivity.
  - assert (Hd' : Zdigits2 R = 53 + 0) by (apply Zdigits2_unique; simpl; lia).
    rewrite (shr_fexp_correct R (ex + n) loc_Exact 0) by (try assumption; lia).
    cbn [shr_rec shr_m loc_code].
    replace ((4 * R + 0) / 2 ^ (0 + 2)) with R
      by (change (2 ^ (0 + 2)) with 4; Z.to_euclidean_division_equations; lia).
    destruct R as [|p|p]; try lia.
    replace (ex + n + 0 <=? F64.emax - F64.prec) with true
      by (symmetry; apply Z.leb_le; unfold F64.emax, F64.prec; lia).
    cbn [Z.to_pos]. f_equal. lia.
Qed.

(** ** Values of non-negative normal floats, in units of [2^-1074] *)

Lemma bra_value mx ex lx n :
  0 < mx -> Zdigits2 mx = 53 + n -> 0 <= n ->
  -1074 <= ex + n -> ex + n + 1 <= 971 ->
  cano (binary_round_aux F64.prec F64.emax false mx ex lx) /\
  V (binary_round_aux F64.prec F64.emax false mx ex lx)
  = rnd_div (4 * mx + loc_code lx) (2 ^ (n + 2)) * 2 ^ (ex + n + 1074).
Proof.
  intros Hm Hd Hn Hlo Hhi.
  destruct (bra_correct mx ex lx n Hm Hd Hn Hlo Hhi) as [HR ->].
  set (R := rnd_div (4 * mx + loc_code lx) (2 ^ (n + 2))) in *.
  destruct (Z.eqb_spec R (2 ^ 53)) as [E|NE].
  - rewrite E. cbn [cano V]. split; [split; [reflexivity|lia]|].
    replace (ex + n + 1 + 1074) with (1 + (ex + n + 1074)) by lia.
    rewrite (Z.pow_add_r 2 1) by lia.
    change (Z.pos (Z.to_pos (2 ^ 52))) with (2 ^ 52).
    change (2 ^ 53) with (2 ^ 52 * 2 ^ 1). ring.
  - cbn [cano V]. rewrite Z2Pos.id by lia. split; [|reflexivity].
    split; [|lia]. apply digits2_pos_unique. rewrite Z2Pos.id by lia.
    simpl. lia.
Qed.

Lemma pos_iter_xO p q : Zpos (Pos.iter xO p q) = Zpos p * 2 ^ Zpos q.
Proof.
  induction q as [|q IH] using Pos.peano_ind.
  - cbn [Pos.iter]. rewrite Pos2Z.inj_xO. change (2 ^ 1) with 2. lia.
  - rewrite Pos.iter_succ, Pos2Z.inj_xO, IH, Pos2Z.inj_succ, Z.pow_succ_r by lia. ring.
Qed.

Lemma shl_align_fst mx ex ez :
  ez <= ex -> Zpos (fst (shl_align mx ex ez)) = Zpos mx * 2 ^ (ex - ez).
Proof.
  intros H. unfold shl_align.
  destruct (ez - ex) as [|d|d] eqn:E; cbn [fst]; try lia.
  - replace (ex - ez) with 0 by lia. lia.
  - rewrite pos_iter_xO. f_equal. f_equal. lia.
Qed.

Lemma pow2_le_inv a b : 0 <= b -> 2 ^ a < 2 ^ b -> a < b.
Proof. intros Hb H. apply (Z.pow_lt_mono_r_iff 2); lia. Qed.

Lemma pow2_split a b : 0 <= a -> 0 <= b -> 2 ^ (a + b) = 2 ^ a * 2 ^ b.
Proof. intros. apply Z.pow_add_r; lia. Qed.

Lemma shl_align_ge mx ex ex' : ex <= ex' -> shl_align mx ex ex' = (mx, ex).
Proof.
  intros H. unfold shl_align. destruct (ex' - ex) as [|d|d] eqn:E; try reflexivity. lia.
Qed.

Lemma shl_align_lt mx ex ex' :
  ex' < ex ->
  shl_align mx ex ex' = (Pos.iter xO mx (Z.to_pos (ex - ex')), ex').
Proof.
  intros H. unfold shl_align. destruct (ex' - ex) as [|d|d] eqn:E; try lia.
  replace (ex - ex') with (Z.pos d) by lia. reflexivity.
Qed.

Lemma pow2_pos a : 0 <= a -> 0 < 2 ^ a.
Proof. intros. apply Z.pow_pos_nonneg; lia. Qed.

Lemma pow2_lt_exp a b : 0 <= a -> 2 ^ a < 2 ^ b -> a < b.
Proof.
  intros Ha H. destruct (Z.lt_ge_cases a b) as [|Hge]; [assumption|].
  exfalso. assert (2 ^ b <= 2 ^ a).
  { destruct (Z.lt_ge_cases b 0).
    - rewrite (Z.pow_neg_r 2 b) by lia. pose proof (pow2_pos a Ha). lia.
    - apply Z.pow_le_mono_r; lia. }
  lia.
Qed.

Lemma pow2_le_exp a b : 0 <= a -> 2 ^ a <= 2 ^ b -> a <= b.
Proof.
  intros Ha H. destruct (Z.le_gt_cases a b) as [|Hgt]; [assumption|].
  exfalso. assert (2 ^ b < 2 ^ a).
  { destruct (Z.lt_ge_cases b 0).
    - rewrite (Z.pow_neg_r 2 b) by lia. apply pow2_pos; lia.
    - apply Z.pow_lt_mono_r; lia. }
  lia.
Qed.

(** [binary_normalize] of a positive integer mantissa, when the result is
    normal and finite: the nearest binary64 of [S * 2^e]. *)
Lemma normalize_correct S e :
  0 < S -> -1074 <= e ->
  2 ^ 52 <= S * 2 ^ (e + 1074) <= 2 ^ 2000 ->
  cano (binary_normalize F64.prec F64.emax S e false) /\
  V (binary_normalize F64.prec F64.emax S e false) = Rz (S * 2 ^ (e + 1074)) 1.
Proof.
  intros HS He [Hlo Hhi].
  destruct S as [|ps|ps]; try lia. cbn [binary_normalize]. unfold binary_round.
  set (d := Z.pos (digits2_pos ps)).
  pose proof (digits2_pos_bounds ps d eq_refl) as Hd.
  assert (Hd1 : 1 <= d) by (unfold d; lia).
  set (a := e + 1074) in *. assert (Ha : 0 <= a) by (unfold a; lia).
  pose proof (pow2_pos a Ha) as Hpa.
  assert (H1 : 52 < d + a).
  { apply pow2_lt_exp; [lia|]. rewrite Z.pow_add_r by lia.
    apply Z.le_lt_trans with (Z.pos ps * 2 ^ a); [exact Hlo|].
    apply Z.mul_lt_mono_pos_r; lia. }
  assert (H2 : d - 1 + a <= 2000).
  { apply pow2_le_exp; [lia|]. rewrite Z.pow_add_r by lia.
    apply Z.le_trans with (Z.pos ps * 2 ^ a); [|exact Hhi].
    apply Z.mul_le_mono_nonneg_r; lia. }
  assert (Hf : fexp F64.prec F64.emax (d + e) = d + e - 53).
  { unfold fexp, emin, F64.prec, F64.emax. unfold a in *. lia. }
  rewrite Hf.
  destruct (Z.le_gt_cases 53 d) as [Hge|Hlt].
  - rewrite shl_align_ge by lia.
    destruct (bra_value (Z.pos ps) e loc_Exact (d - 53)) as [Hc Hv];
      try (unfold a in *; lia).
    { cbn [Zdigits2]. fold d. lia. }
    split; [exact Hc|]. rewrite Hv. cbn [loc_code].
    rewrite (Rz_unfold _ _ (d - 53 + a)); [|lia|lia|].
    + replace (e + (d - 53) + 1074) with (d - 53 + a) by (unfold a; lia).
      f_equal. rewrite Z.add_0_r.
      replace (d - 53 + 2) with (2 + (d - 53)) by lia.
      rewrite (Z.pow_add_r 2 2) by lia. change (2 ^ 2) with 4.
      rewrite rnd_div_scale by (try apply pow2_pos; lia).
      rewrite Z.mul_1_l, (Z.add_comm (d - 53) a), (Z.pow_add_r 2 a) by lia.
      rewrite (Z.mul_comm (Z.pos ps)).
      rewrite rnd_div_scale by (try apply pow2_pos; lia). reflexivity.
    + replace (52 + (d - 53 + a)) with (d - 1 + a) by lia.
      replace (53 + (d - 53 + a)) with (d + a) by lia.
      rewrite !Z.pow_add_r by lia. rewrite !Z.mul_1_r.
      split; [apply Z.mul_le_mono_nonneg_r; lia|apply Z.mul_lt_mono_pos_r; lia].
  - rewrite shl_align_lt by lia.
    replace (e - (d + e - 53)) with (53 - d) by lia.
    set (mz := Pos.iter xO ps (Z.to_pos (53 - d))).
    assert (Hmz : Z.pos mz = Z.pos ps * 2 ^ (53 - d)).
    { unfold mz. rewrite pos_iter_xO, Z2Pos.id by lia. reflexivity. }
    pose proof (pow2_pos (53 - d) ltac:(lia)) as Hq.
    assert (Hb : 2 ^ 52 <= Z.pos mz < 2 ^ 53).
    { rewrite Hmz.
      assert (E52 : 2 ^ 52 = 2 ^ (d - 1) * 2 ^ (53 - d))
        by (rewrite <- Z.pow_add_r by lia; f_equal; lia).
      assert (E53 : 2 ^ 53 = 2 ^ d * 2 ^ (53 - d))
        by (rewrite <- Z.pow_add_r by lia; f_equal; lia).
      rewrite E52, E53.
      split; [apply Z.mul_le_mono_nonneg_r; lia|apply Z.mul_lt_mono_pos_r; lia]. }
    destruct (bra_value (Z.pos mz) (d + e - 53) loc_Exact 0) as [Hc Hv];
      try (unfold a in *; lia).
    { apply Zdigits2_unique; [simpl; lia|lia]. }
    split; [exact Hc|]. rewrite Hv. cbn [loc_code].
    change (2 ^ (0 + 2)) with 4. rewrite Z.add_0_r, (Z.mul_comm 4), rnd_div_exact by lia.
    replace (Z.pos ps * 2 ^ a) with (Z.pos mz * 2 ^ (d + e - 53 + 0 + 1074)).
    + symmetry. apply Rz_exact; [exact Hb|unfold a in *; lia].
    + rewrite Hmz, <- Z.mul_assoc, <- Z.pow_add_r by (unfold a in *; lia).
      f_equal. f_equal. unfold a. lia.
Qed.

(** ** The four operations on non-negative normal floats *)

Lemma cano_finite m e :
  cano (S754_finite false m e) ->
  2 ^ 52 <= Z.pos m < 2 ^ 53 /\ -1074 <= e <= 971.
Proof.
  intros [Hd He]. split; [|exact He].
  apply (digits2_pos_bounds m 53 Hd).
Qed.

Lemma V_finite_pos m e :
  cano (S754_finite false m e) -> 2 ^ 52 <= V (S754_finite false m e).
Proof.
  intros H. destruct (cano_finite m e H) as [Hm He]. cbn [V].
  pose proof (pow2_pos (e + 1074) ltac:(lia)). nia.
Qed.

Lemma V_nonneg x : 0 <= V x.
Proof.
  destruct x as [s|s| |s m e]; cbn [V]; try lia. destruct s; [lia|].
  destruct (Z.lt_ge_cases (e + 1074) 0).
  - rewrite Z.pow_neg_r by lia. lia.
  - pose proof (pow2_pos (e + 1074) ltac:(lia)). lia.
Qed.

Lemma V_cases x : cano x -> V x = 0 \/ 2 ^ 52 <= V x.
Proof.
  destruct x as [[|]|s| |[|] m e]; cbn [cano]; try tauto.
  all: intros H; first [ left; reflexivity | right; now apply V_finite_pos ].
Qed.

Lemma Rz_V x : cano x -> Rz (V x) 1 = V x.
Proof.
  destruct x as [[|]|s| |[|] m e]; cbn [cano]; try tauto.
  intros H.
    destruct (cano_finite m e H) as [Hm He]. cbn [V].
    apply Rz_exact; lia.
Qed.

Lemma add_correct x y :
  cano x -> cano y -> V x + V y <= 2 ^ 2000 ->
  cano (SFadd F64.prec F64.emax x y) /\ V (SFadd F64.prec F64.emax x y) = Rz (V x + V y) 1.
Proof.
  intros Hx Hy Hb.
  destruct x as [[|]|sx| |[|] mx ex]; try contradiction;
    destruct y as [[|]|sy| |[|] my ey]; try contradiction.
  - split; [exact I|reflexivity].
  - cbn [SFadd]. split; [exact Hy|].
    change (V (S754_zero false)) with 0. rewrite Z.add_0_l. symmetry. now apply Rz_V.
  - cbn [SFadd]. split; [exact Hx|].
    change (V (S754_zero false)) with 0. rewrite Z.add_0_r. symmetry. now apply Rz_V.
  - cbn [SFadd cond_Zopp].
    destruct (cano_finite _ _ Hx) as [Hmx Hex]. destruct (cano_finite _ _ Hy) as [Hmy Hey].
    set (ez := Z.min ex ey).
    rewrite !shl_align_fst by (unfold ez; lia).
    assert (HV : (Z.pos mx * 2 ^ (ex - ez) + Z.pos my * 2 ^ (ey - ez)) * 2 ^ (ez + 1074)
                 = V (S754_finite false mx ex) + V (S754_finite false my ey)).
    { cbn [V]. rewrite Z.mul_add_distr_r, <- !Z.mul_assoc, <- !Z.pow_add_r by (unfold ez; lia).
      do 2 f_equal; f_equal; lia. }
    pose proof (pow2_pos (ex - ez) ltac:(unfold ez; lia)).
    pose proof (pow2_pos (ey - ez) ltac:(unfold ez; lia)).
    rewrite <- HV. apply normalize_correct; [nia|unfold ez; lia|].
    rewrite HV. split; [|exact Hb].
    pose proof (V_finite_pos _ _ Hx). pose proof (V_nonneg (S754_finite false my ey)). lia.
Qed.

Lemma sub_correct x y :
  cano x -> cano y -> V y <= V x <= 2 ^ 2000 ->
  V x - V y = 0 \/ 2 ^ 52 <= V x - V y ->
  cano (SFsub F64.prec F64.emax x y) /\ V (SFsub F64.prec F64.emax x y) = Rz (V x - V y) 1.
Proof.
  intros Hx Hy [Hle Hb] Hn.
  destruct x as [[|]|sx| |[|] mx ex]; try contradiction;
    destruct y as [[|]|sy| |[|] my ey]; try contradiction.
  - split; [exact I|reflexivity].
  - pose proof (V_finite_pos _ _ Hy). change (V (S754_zero false)) with 0 in Hle. lia.
  - cbn [SFsub]. split; [exact Hx|].
    change (V (S754_zero false)) with 0. rewrite Z.sub_0_r. symmetry. now apply Rz_V.
  - cbn [SFsub cond_Zopp].
    destruct (cano_finite _ _ Hx) as [Hmx Hex]. destruct (cano_finite _ _ Hy) as [Hmy Hey].
    set (ez := Z.min ex ey).
    rewrite !shl_align_fst by (unfold ez; lia).
    assert (HV : (Z.pos mx * 2 ^ (ex - ez) - Z.pos my * 2 ^ (ey - ez)) * 2 ^ (ez + 1074)
                 = V (S754_finite false mx ex) - V (S754_finite false my ey)).
    { cbn [V]. rewrite Z.mul_sub_distr_r, <- !Z.mul_assoc, <- !Z.pow_add_r by (unfold ez; lia).
      do 2 f_equal; f_equal; lia. }
    pose proof (pow2_pos (ez + 1074) ltac:(unfold ez; lia)) as Hp.
    set (D := Z.pos mx * 2 ^ (ex - ez) - Z.pos my * 2 ^ (ey - ez)) in *.
    rewrite <- HV in *.
    assert (HD : 0 <= D) by nia.
    destruct (Z.eq_dec D 0) as [E|NE].
    + rewrite E. split; [exact I|reflexivity].
    + apply normalize_correct; [lia|unfold ez; lia|].
      split; [|].
      * destruct Hn as [Hn|Hn]; [|exact Hn]. nia.
      * pose proof (V_nonneg (S754_finite false my ey)). lia.
Qed.

Lemma mul_correct x y :
  cano x -> cano y ->
  V x * V y = 0 \/ 2 ^ 52 * 2 ^ 1074 <= V x * V y ->
  V x * V y <= 2 ^ 2000 * 2 ^ 1074 ->
  cano (SFmul F64.prec F64.emax x y) /\
  V (SFmul F64.prec F64.emax x y) = Rz (V x * V y) (2 ^ 1074).
Proof.
  intros Hx Hy Hn Hb.
  destruct x as [[|]|sx| |[|] mx ex]; try contradiction;
    destruct y as [[|]|sy| |[|] my ey]; try contradiction;
    try (split; [exact I|]; cbn [SFmul xorb V];
         rewrite ?Z.mul_0_l, ?Z.mul_0_r, Rz_zero; reflexivity).
  cbn [SFmul xorb].
  destruct (cano_finite _ _ Hx) as [Hmx Hex]. destruct (cano_finite _ _ Hy) as [Hmy Hey].
  pose proof (V_finite_pos _ _ Hx) as Hvx. pose proof (V_finite_pos _ _ Hy) as Hvy.
  destruct Hn as [Hn|Hn]; [nia|].
  set (P := Z.pos (mx * my)) in *.
  assert (HP : P = Z.pos mx * Z.pos my) by reflexivity.
  set (d := Zdigits2 P).
  assert (HP0 : 0 < P) by (unfold P; lia).
  pose proof (Zdigits2_bounds P d HP0 eq_refl) as Hd.
  assert (Hd1 : 1 <= d) by (unfold d, P; cbn [Zdigits2]; lia).
  set (b := ex + ey + 2148). assert (Hb0 : 0 <= b) by (unfold b; lia).
  pose proof (pow2_pos b Hb0) as Hpb.
  assert (HVV : V (S754_finite false mx ex) * V (S754_finite false my ey) = P * 2 ^ b).
  { cbn [V]. rewrite HP. unfold b.
    replace (ex + ey + 2148) with ((ex + 1074) + (ey + 1074)) by lia.
    rewrite (Z.pow_add_r 2 (ex + 1074) (ey + 1074)) by lia. ring. }
  rewrite HVV in *.
  assert (H1 : 1126 < d + b).
  { apply pow2_lt_exp; [lia|]. rewrite (Z.pow_add_r 2 d b) by lia.
    change (2 ^ 1126) with (2 ^ 52 * 2 ^ 1074).
    apply Z.le_lt_trans with (P * 2 ^ b); [exact Hn|].
    apply Z.mul_lt_mono_pos_r; lia. }
  assert (H2 : d - 1 + b <= 3074).
  { apply pow2_le_exp; [lia|]. rewrite (Z.pow_add_r 2 (d - 1) b) by lia.
    change (2 ^ 3074) with (2 ^ 2000 * 2 ^ 1074).
    apply Z.le_trans with (P * 2 ^ b); [|exact Hb].
    apply Z.mul_le_mono_nonneg_r; lia. }
  assert (Hd105 : 105 <= d).
  { assert (104 < d); [|lia]. apply pow2_lt_exp; [lia|].
    apply Z.le_lt_trans with P; [|lia].
    change (2 ^ 104) with (2 ^ 52 * 2 ^ 52). rewrite HP. nia. }
  destruct (bra_value P (ex + ey) loc_Exact (d - 53)) as [Hc Hv];
    try (unfold b in *; lia).
  split; [exact Hc|]. rewrite Hv. cbn [loc_code]. rewrite Z.add_0_r.
  rewrite (Rz_unfold _ _ (d - 53 + b - 1074)); [|lia|lia|].
  - replace (ex + ey + (d - 53) + 1074) with (d - 53 + b - 1074) by (unfold b; lia).
    f_equal.
    replace (d - 53 + 2) with (2 + (d - 53)) by lia.
    rewrite (Z.pow_add_r 2 2) by lia. change (2 ^ 2) with 4.
    rewrite rnd_div_scale by (try apply pow2_pos; lia).
    rewrite <- Z.pow_add_r by lia.
    replace (1074 + (d - 53 + b - 1074)) with (b + (d - 53)) by lia.
    rewrite (Z.pow_add_r 2 b) by lia. rewrite (Z.mul_comm P).
    rewrite rnd_div_scale by (try apply pow2_pos; lia). reflexivity.
  - rewrite <- !Z.pow_add_r by lia.
    replace (52 + (d - 53 + b - 1074) + 1074) with (d - 1 + b) by lia.
    replace (53 + (d - 53 + b - 1074) + 1074) with (d + b) by lia.
    rewrite !Z.pow_add_r by lia.
    split; [apply Z.mul_le_mono_nonneg_r; lia|apply Z.mul_lt_mono_pos_r; lia].
Qed.

Lemma new_location_code b r :
  0 < b -> 0 <= r < b -> loc_code (new_location b r) = sticky_code r b.
Proof.
  intros Hb Hr. unfold new_location, new_location_even, new_location_odd, sticky_code.
  destruct (Z.even b) eqn:Ev; destruct (Z.eqb_spec r 0) as [E|E]; try reflexivity.
  all: try (destruct (2 * r ?= b); reflexivity).
  assert (Ho : Z.odd b = true) by (rewrite <- Z.negb_even, Ev; reflexivity).
  apply Z.odd_spec in Ho. destruct Ho as [k Hk].
  destruct (Z.compare_spec (2 * r + 1) b); destruct (Z.compare_spec (2 * r) b);
    try reflexivity; lia.
Qed.

Lemma div_core mx ex my ey :
  Z.pos (digits2_pos mx) = 53 -> Z.pos (digits2_pos my) = 53 ->
  -1021 <= ex - ey ->
  SFdiv_core_binary F64.prec F64.emax (Z.pos mx) ex (Z.pos my) ey
  = ((Z.pos mx * 2 ^ 53) / Z.pos my, ex - ey - 53,
     new_location (Z.pos my) ((Z.pos mx * 2 ^ 53) mod Z.pos my)).
Proof.
  intros Hx Hy He. unfold SFdiv_core_binary. cbn [Zdigits2]. rewrite Hx, Hy.
  assert (Hf : Z.min (fexp F64.prec F64.emax (53 + ex - (53 + ey))) (ex - ey) = ex - ey - 53).
  { unfold fexp, emin, F64.prec, F64.emax. lia. }
  rewrite Hf. replace (ex - ey - (ex - ey - 53)) with 53 by lia.
  rewrite Z.shiftl_mul_pow2 by lia.
  unfold Z.div, Z.modulo.
  destruct (Z.div_eucl (Z.pos mx * 2 ^ 53) (Z.pos my)) as [q r]. reflexivity.
Qed.

Lemma div_correct x y :
  cano x -> cano y -> 0 < V y ->
  V x = 0 \/ 2 ^ 54 * V y <= V x * 2 ^ 1074 ->
  V x * 2 ^ 1074 <= 2 ^ 2000 * V y ->
  cano (SFdiv F64.prec F64.emax x y) /\
  V (SFdiv F64.prec F64.emax x y) = Rz (V x * 2 ^ 1074) (V y).
Proof.
  intros Hx Hy Hy0 Hn Hb.
  destruct y as [[|]|sy| |[|] my ey]; try contradiction;
    [cbn [V] in Hy0; lia|].
  destruct x as [[|]|sx| |[|] mx ex]; try contradiction.
  { split; [exact I|]. cbn [SFdiv xorb V]. rewrite Z.mul_0_l, Rz_zero. reflexivity. }
  cbn [SFdiv xorb].
  destruct (cano_finite _ _ Hx) as [Hmx Hex]. destruct (cano_finite _ _ Hy) as [Hmy Hey].
  pose proof (V_finite_pos _ _ Hx) as Hvx.
  destruct Hn as [Hn|Hn]; [lia|].
  cbn [V] in Hn, Hb |- *. clear Hvx Hy0.
  set (X := Z.pos mx) in *. set (Y := Z.pos my) in *.
  set (t := ex + 2095). assert (Ht : 0 <= t) by (unfold t; lia).
  pose proof (pow2_pos (ex + 1074) ltac:(lia)) as Hpx.
  pose proof (pow2_pos (ey + 1074) ltac:(lia)) as Hpy.
  pose proof (pow2_pos t Ht) as Hpt.
  assert (EX : X * 2 ^ (ex + 1074) * 2 ^ 1074 = 2 ^ t * (X * 2 ^ 53)).
  { unfold t. replace (ex + 2095) with ((ex + 1074) + 1021) by lia.
    rewrite (Z.pow_add_r 2 (ex + 1074) 1021) by lia.
    change (2 ^ 1074) with (2 ^ 1021 * 2 ^ 53). ring. }
  rewrite EX in *.
  (* the exponent difference is in range *)
  assert (H1 : -1021 < ex - ey).
  { assert (ey + 1180 < ex + 2201); [|lia].
    apply pow2_lt_exp; [lia|].
    replace (ey + 1180) with (106 + (ey + 1074)) by lia.
    replace (ex + 2201) with (t + 106) by (unfold t; lia).
    rewrite (Z.pow_add_r 2 106 (ey + 1074)), (Z.pow_add_r 2 t 106) by lia.
    change (2 ^ 106) with (2 ^ 54 * 2 ^ 52) at 1.
    change (2 ^ 106) with (2 ^ 53 * 2 ^ 53).
    apply Z.le_lt_trans with (2 ^ 54 * (Y * 2 ^ (ey + 1074)));
      [rewrite <- Z.mul_assoc; apply Z.mul_le_mono_nonneg_l; [lia|];
       apply Z.mul_le_mono_nonneg_r; lia|].
    apply Z.le_lt_trans with (2 ^ t * (X * 2 ^ 53)); [exact Hn|].
    apply Z.mul_lt_mono_pos_l; [lia|]. apply Z.mul_lt_mono_pos_r; lia. }
  assert (H2 : ex - ey < 927).
  { assert (ex + 2200 < ey + 3127); [|lia].
    apply pow2_lt_exp; [lia|].
    replace (ex + 2200) with (t + 105) by (unfold t; lia).
    replace (ey + 3127) with (2000 + (53 + (ey + 1074))) by lia.
    rewrite (Z.pow_add_r 2 t 105), (Z.pow_add_r 2 2000), (Z.pow_add_r 2 53) by lia.
    change (2 ^ 105) with (2 ^ 52 * 2 ^ 53).
    apply Z.le_lt_trans with (2 ^ t * (X * 2 ^ 53));
      [apply Z.mul_le_mono_nonneg_l; [lia|]; apply Z.mul_le_mono_nonneg_r; lia|].
    apply Z.le_lt_trans with (2 ^ 2000 * (Y * 2 ^ (ey + 1074))); [exact Hb|].
    apply Z.mul_lt_mono_pos_l; [lia|]. apply Z.mul_lt_mono_pos_r; lia. }
  unfold X, Y. rewrite (div_core mx ex my ey) by (try apply Hx; try apply Hy; lia).
  fold X Y.
  set (a := X * 2 ^ 53) in *.
  assert (Ha : 0 <= a) by (unfold a; lia).
  assert (HY : 0 < Y) by (unfold Y; lia).
  pose proof (Z.mod_pos_bound a Y HY) as Hr.
  pose proof (Z.div_mod a Y ltac:(lia)) as Hdm.
  assert (Hq : 2 ^ 52 <= a / Y < 2 ^ 54).
  { split.
    - apply Z.div_le_lower_bound; [lia|]. unfold a. nia.
    - apply Z.div_lt_upper_bound; [lia|]. unfold a.
      change (2 ^ 54) with (2 ^ 52 * 4). nia. }
  set (q := a / Y) in *. set (r := a mod Y) in *.
  set (d := Zdigits2 q).
  pose proof (Zdigits2_bounds q d ltac:(lia) eq_refl) as Hd.
  assert (Hd53 : 53 <= d <= 54).
  { split.
    - assert (52 < d); [|lia]. apply pow2_lt_exp; lia.
    - assert (d - 1 < 54); [|lia].
      destruct (Z.lt_ge_cases (d - 1) 0); [lia|]. apply pow2_lt_exp; lia. }
  destruct (bra_value q (ex - ey - 53) (new_location Y r) (d - 53)) as [Hc Hv];
    try lia.
  split; [exact Hc|]. rewrite Hv.
  rewrite new_location_code by lia.
  replace (d - 53 + 2) with (2 + (d - 53)) by lia.
  rewrite (Z.pow_add_r 2 2) by lia. change (2 ^ 2) with 4.
  unfold q, r. rewrite rnd_div_sticky by lia.
  set (k := ex - ey - 53 + (d - 53) + 1074).
  assert (Hk : 0 <= k) by (unfold k; lia).
  pose proof (pow2_pos (d - 53) ltac:(lia)) as Hpn.
  assert (EY : Y * 2 ^ (ey + 1074) * 2 ^ k = 2 ^ t * (Y * 2 ^ (d - 53))).
  { rewrite <- Z.mul_assoc, <- Z.pow_add_r by lia.
    replace (ey + 1074 + k) with (t + (d - 53)) by (unfold k, t; lia).
    rewrite Z.pow_add_r by lia. ring. }
  rewrite (Rz_unfold _ _ k); [|lia|lia|].
  - rewrite EY, rnd_div_scale by lia. reflexivity.
  - (* 2^(d-1) <= q < 2^d bounds the quotient *)
    assert (B1 : 2 ^ (d - 1) * Y <= a) by (fold q r in Hdm; nia).
    assert (B2 : a < 2 ^ d * Y) by (fold q r in Hdm; nia).
    assert (E1 : 2 ^ (52 + k) * (Y * 2 ^ (ey + 1074)) = 2 ^ t * (2 ^ (d - 1) * Y)).
    { replace (52 + k) with (k + 52) by lia.
      rewrite (Z.pow_add_r 2 k 52) by lia.
      transitivity (Y * 2 ^ (ey + 1074) * 2 ^ k * 2 ^ 52); [ring|].
      rewrite EY. replace (d - 1) with ((d - 53) + 52) by lia.
      rewrite (Z.pow_add_r 2 (d - 53) 52) by lia. ring. }
    assert (E2 : 2 ^ (53 + k) * (Y * 2 ^ (ey + 1074)) = 2 ^ t * (2 ^ d * Y)).
    { replace (53 + k) with (k + 53) by lia.
      rewrite (Z.pow_add_r 2 k 53) by lia.
      transitivity (Y * 2 ^ (ey + 1074) * 2 ^ k * 2 ^ 53); [ring|].
      rewrite EY. replace d with ((d - 53) + 53) at 2 by lia.
      rewrite (Z.pow_add_r 2 (d - 53) 53) by lia. ring. }
    rewrite E1, E2.
    split; [apply Z.mul_le_mono_nonneg_l; lia|apply Z.mul_lt_mono_pos_l; lia].
Qed.

Lemma U_pos : 0 < U.
Proof. unfold U. apply pow2_pos. lia. Qed.

Lemma canob_sound x : canob x = true -> cano x.
Proof.
  destruct x as [[|]|s| |[|] m e]; cbn [canob cano]; try discriminate; auto.
  rewrite !andb_true_iff, Z.eqb_eq, !Z.leb_le. tauto.
Qed.

Lemma Rz_scale c n d : 0 < c -> 0 < d -> Rz (c * n) (c * d) = Rz n d.
Proof.
  intros Hc Hd. unfold Rz.
  rewrite Z.div_mul_cancel_l by lia.
  set (k := Z.log2 (n / d) - 52).
  destruct (Z.lt_ge_cases k 0) as [Hk|Hk].
  - rewrite (Z.pow_neg_r 2 k) by lia. rewrite !Z.mul_0_r. reflexivity.
  - pose proof (pow2_pos k Hk).
    rewrite <- Z.mul_assoc, rnd_div_scale by nia. reflexivity.
Qed.

Lemma Rz_repr n g :
  0 <= g -> (2 ^ g | n) -> 2 ^ 52 <= n < 2 ^ (53 + g) -> Rz n 1 = n.
Proof.
  intros Hg [z Hz] [Hlo Hhi].
  assert (Hn : 0 < n) by (pose proof (pow2_pos 52 ltac:(lia)); lia).
  pose proof (Z.log2_spec n Hn) as [L1 L2].
  set (l := Z.log2 n) in *.
  assert (Hl52 : 52 <= l).
  { apply Z.log2_le_pow2 in Hlo; [exact Hlo|exact Hn]. }
  assert (Hlg : l < 53 + g).
  { apply (pow2_lt_exp l (53 + g)); [lia|]. lia. }
  set (k := l - 52).
  rewrite (Rz_unfold n 1 k); [|lia|unfold k; lia|].
  2:{ replace (52 + k) with l by (unfold k; lia).
      replace (53 + k) with (Z.succ l) by (unfold k; lia). lia. }
  rewrite Z.mul_1_l.
  assert (E : n = (z * 2 ^ (g - k)) * 2 ^ k).
  { rewrite Hz, <- Z.mul_assoc, <- (Z.pow_add_r 2 (g - k) k) by (unfold k; lia).
    do 2 f_equal. lia. }
  rewrite E at 1. rewrite rnd_div_exact by (apply pow2_pos; unfold k; lia).
  symmetry. exact E.
Qed.

Lemma lit_correct n :
  0 <= n < 2 ^ 53 -> cano (F64.lit n) /\ V (F64.lit n) = n * U.
Proof.
  intros [H0 H1].
  destruct (Z.eq_dec n 0) as [->|Hn].
  { split; [exact I|reflexivity]. }
  unfold F64.lit.
  pose proof U_pos as HU. unfold U in *.
  assert (E52 : 2 ^ 52 <= 2 ^ 1074).
  { apply Z.pow_le_mono_r; lia. }
  assert (Hb : n * 2 ^ 1074 < 2 ^ (53 + 1074)).
  { rewrite (Z.pow_add_r 2 53 1074) by lia.
    apply Z.mul_lt_mono_pos_r; lia. }
  assert (Hb2 : 2 ^ (53 + 1074) <= 2 ^ 2000).
  { apply Z.pow_le_mono_r; lia. }
  assert (Hlo : 2 ^ 52 <= n * 2 ^ 1074).
  { apply Z.le_trans with (1 * 2 ^ 1074); [lia|].
    apply Z.mul_le_mono_nonneg_r; lia. }
  destruct (normalize_correct n 0) as [Hc Hv]; [lia|lia| |].
  { change (0 + 1074) with 1074. lia. }
  split; [exact Hc|]. rewrite Hv. change (0 + 1074) with 1074.
  apply (Rz_repr _ 1074); [lia| |lia].
  exists n. reflexivity.
Qed.

Lemma of_int_correct n :
  0 <= n < 2 ^ 53 -> F64.of_int n = Ok (F64.lit n).
Proof.
  intros H. destruct (lit_correct n H) as [Hc _].
  unfold F64.of_int. fold (F64.lit n).
  destruct (F64.lit n) as [[|]|s| |[|] m e]; try contradiction; reflexivity.
Qed.

Lemma floor_correct x : cano x -> F64.floor x = Ok (V x / U).
Proof.
  intros H. destruct x as [[|]|s| |[|] m e]; try contradiction.
  { unfold U. reflexivity. }
  destruct H as [_ He]. cbn [F64.floor cond_Zopp V]. f_equal. unfold U.
  destruct (Z.lt_ge_cases e 0) as [Hn|Hn].
  - rewrite Z.shiftl_div_pow2 by lia.
    assert (E : 2 ^ 1074 = 2 ^ (- e) * 2 ^ (e + 1074)).
    { rewrite <- (Z.pow_add_r 2 (- e) (e + 1074)) by lia. f_equal. lia. }
    rewrite E. rewrite Z.div_mul_cancel_r; [reflexivity| |].
    + pose proof (pow2_pos (- e) ltac:(lia)). lia.
    + pose proof (pow2_pos (e + 1074) ltac:(lia)). lia.
  - rewrite Z.shiftl_mul_pow2 by lia.
    rewrite (Z.pow_add_r 2 e 1074) by lia.
    rewrite Z.mul_assoc, Z.div_mul; [reflexivity|].
    pose proof (pow2_pos 1074 ltac:(lia)). lia.
Qed.

Lemma cano_divide x g :
  cano x -> 0 <= g -> 2 ^ (g + 52) <= V x -> (2 ^ g | V x).
Proof.
  intros Hx Hg Hv.
  destruct x as [[|]|s| |[|] m e]; try contradiction.
  { cbn [V] in Hv. pose proof (pow2_pos (g + 52) ltac:(lia)). lia. }
  destruct (cano_finite _ _ Hx) as [Hm He]. cbn [V] in *.
  assert (Hlt : 2 ^ (g + 52) < 2 ^ (53 + (e + 1074))).
  { eapply Z.le_lt_trans; [exact Hv|].
    rewrite (Z.pow_add_r 2 53 (e + 1074)) by lia.
    apply Z.mul_lt_mono_pos_r; [apply pow2_pos; lia|lia]. }
  apply pow2_lt_exp in Hlt; [|lia].
  exists (Z.pos m * 2 ^ (e + 1074 - g)).
  rewrite <- Z.mul_assoc, <- (Z.pow_add_r 2 (e + 1074 - g) g) by lia.
  do 2 f_equal. lia.
Qed.

Lemma fpred_below x b : cano x -> cano b -> V x < V b -> V x <= V (fpred b).
Proof.
  intros Hx Hb Hlt.
  destruct b as [[|]|s| |[|] mb eb]; try contradiction.
  { pose proof (V_nonneg x). cbn [V] in Hlt. lia. }
  destruct x as [[|]|s| |[|] mx ex]; try contradiction.
  { apply V_nonneg. }
  destruct (cano_finite _ _ Hx) as [Hmx Hex].
  destruct (cano_finite _ _ Hb) as [Hmb Heb].
  cbn [V] in Hlt. cbn [fpred].
  set (a := ex + 1074) in *. set (b := eb + 1074) in *.
  assert (Ha : 0 <= a) by (unfold a; lia). assert (Hb0 : 0 <= b) by (unfold b; lia).
  pose proof (pow2_pos a Ha) as Pa. pose proof (pow2_pos b Hb0) as Pb.
  assert (E52 : (2 ^ 52 = 4503599627370496)) by reflexivity.
  assert (E53 : (2 ^ 53 = 9007199254740992)) by reflexivity.
  rewrite E52, E53 in *.
  destruct (Z.lt_ge_cases a b) as [Hab|Hab].
  - (* smaller exponent *)
    assert (Eb : 2 ^ b = 2 ^ (b - a - 1) * 2 * 2 ^ a).
    { rewrite <- (Z.pow_1_r 2) at 3.
      rewrite <- (Z.pow_add_r 2 (b - a - 1) 1), <- (Z.pow_add_r 2 (b - a - 1 + 1) a) by lia.
      f_equal. lia. }
    pose proof (pow2_pos (b - a - 1) ltac:(lia)) as Pc.
    destruct (Z.eqb_spec (Z.pos mb) 4503599627370496) as [Em|Em]; cbn [V]; fold a.
    + replace (eb - 1 + 1074) with (b - 1) by (unfold b; lia).
      assert (Eb1 : 2 ^ (b - 1) = 2 ^ (b - a - 1) * 2 ^ a).
      { rewrite <- (Z.pow_add_r 2 (b - a - 1) a) by lia. f_equal. lia. }
      rewrite Eb1.
      change (Z.pos (Z.to_pos (9007199254740992 - 1))) with 9007199254740991.
      set (Pc' := 2 ^ (b - a - 1)) in *. set (Pa' := 2 ^ a) in *.
      clearbody Pc' Pa'.
      apply Z.le_trans with (9007199254740991 * Pa').
      * apply Z.mul_le_mono_nonneg_r; lia.
      * rewrite Z.mul_assoc. apply Z.mul_le_mono_nonneg_r; [lia|]. lia.
    + fold b. rewrite Pos2Z.inj_pred by lia. rewrite Eb.
      set (Pc' := 2 ^ (b - a - 1)) in *. set (Pa' := 2 ^ a) in *.
      clearbody Pc' Pa'.
      apply Z.le_trans with (9007199254740991 * Pa').
      * apply Z.mul_le_mono_nonneg_r; lia.
      * rewrite Z.mul_assoc. apply Z.mul_le_mono_nonneg_r; [lia|].
        assert (4503599627370496 <= Z.pred (Z.pos mb)) by lia.
        nia.
  - assert (Ea : 2 ^ a = 2 ^ (a - b) * 2 ^ b).
    { rewrite <- (Z.pow_add_r 2 (a - b) b) by lia. f_equal. lia. }
    pose proof (pow2_pos (a - b) ltac:(lia)) as Pc.
    rewrite Ea in Hlt.
    set (Pc' := 2 ^ (a - b)) in *. set (Pb' := 2 ^ b) in *.
    assert (Hm : Z.pos mx * Pc' < Z.pos mb).
    { clearbody Pc' Pb'. nia. }
    destruct (Z.eqb_spec (Z.pos mb) 4503599627370496) as [Em|Em]; cbn [V]; fold a.
    + clearbody Pc' Pb'. nia.
    + fold b. fold Pb'. rewrite Pos2Z.inj_pred by lia. rewrite Ea. fold Pc' Pb'.
      clearbody Pc' Pb'. nia.
Qed.

Lemma U_ge_1000 : 2 ^ 1000 <= U.
Proof. unfold U. apply Z.pow_le_mono_r; lia. Qed.

Lemma U_ge_52 : 2 ^ 52 <= U.
Proof. unfold U. apply Z.pow_le_mono_r; lia. Qed.

Lemma U20_le : 2 ^ 21 * U <= 2 ^ 2000.
Proof.
  unfold U. rewrite <- (Z.pow_add_r 2 21 1074) by lia.
  apply Z.pow_le_mono_r; lia.
Qed.

Lemma p74_le_1000 : 2 ^ 74 <= 2 ^ 1000.
Proof. apply Z.pow_le_mono_r; lia. Qed.

Lemma p52_le_1000 : 2 ^ 52 <= 2 ^ 1000.
Proof. apply Z.pow_le_mono_r; lia. Qed.

Lemma Rz_int n : 0 <= n < 2 ^ 53 -> Rz (n * U) 1 = n * U.
Proof.
  intros [H0 H1]. destruct (Z.eq_dec n 0) as [->|Hn].
  { apply Rz_zero. }
  pose proof U_pos. pose proof U_ge_52.
  apply (Rz_repr _ 1074); [lia|exists n; reflexivity|].
  fold U. split.
  - apply Z.le_trans with (1 * U); [lia|]. apply Z.mul_le_mono_nonneg_r; lia.
  - rewrite (Z.pow_add_r 2 53 1074) by lia. fold U.
    apply Z.mul_lt_mono_pos_r; lia.
Qed.

Lemma fine_lit n : 0 <= n <= 2 ^ 20 -> fine (F64.lit n) /\ V (F64.lit n) = n * U.
Proof.
  intros Hn.
  assert (Hn' : 0 <= n < 2 ^ 53).
  { split; [lia|]. apply Z.le_lt_trans with (2 ^ 20); [lia|].
    apply Z.pow_lt_mono_r; lia. }
  destruct (lit_correct n Hn') as [Hc Hv].
  split; [|exact Hv]. split; [exact Hc|]. rewrite Hv.
  pose proof U_pos as HU. pose proof U_ge_1000 as HU1. split.
  - destruct (Z.eq_dec n 0) as [->|Hnz]; [left; reflexivity|right].
    apply Z.le_trans with (1 * U); [lia|]. apply Z.mul_le_mono_nonneg_r; lia.
  - apply Z.mul_le_mono_nonneg_r; lia.
Qed.

(** Division by an integral literal. *)
Lemma div_lit x c :
  fine x -> 0 < c <= 2 ^ 20 ->
  cano (F64.div x (F64.lit c)) /\ V (F64.div x (F64.lit c)) = Rz (V x) c.
Proof.
  intros (Hx & Hlo & Hhi) Hc.
  destruct (fine_lit c ltac:(lia)) as [(Hcl & _ & _) Hvl].
  pose proof U_pos as HU. pose proof U20_le as H20. pose proof p74_le_1000 as H74.
  pose proof (V_nonneg x) as Hx0.
  assert (P54 : 0 < 2 ^ 54) by (apply pow2_pos; lia).
  assert (P20 : 0 < 2 ^ 20) by (apply pow2_pos; lia).
  assert (E74 : 2 ^ 74 = 2 ^ 54 * 2 ^ 20) by (rewrite <- (Z.pow_add_r 2 54 20) by lia; reflexivity).
  assert (E21 : 2 ^ 21 = 2 * 2 ^ 20) by reflexivity.
  destruct (div_correct x (F64.lit c)) as [Hd Hv]; try assumption.
  - rewrite Hvl. nia.
  - destruct Hlo as [Hz|Hlo]; [left; exact Hz|right].
    rewrite Hvl. fold U.
    rewrite Z.mul_assoc. apply Z.mul_le_mono_nonneg_r; [lia|].
    apply Z.le_trans with (2 ^ 54 * 2 ^ 20); [|lia].
    apply Z.mul_le_mono_nonneg_l; lia.
  - rewrite Hvl. fold U. rewrite Z.mul_assoc.
    apply Z.mul_le_mono_nonneg_r; [lia|].
    apply Z.le_trans with (2 ^ 2000 * 1); [lia|].
    apply Z.mul_le_mono_nonneg_l; lia.
  - split; [exact Hd|]. unfold F64.div. 
     rewrite Hv, Hvl. fold U.
    rewrite (Z.mul_comm (V x) U), (Z.mul_comm c U).
    apply Rz_scale; lia.
Qed.

(** The product of two integral literals is exact. *)
Lemma mul_lit c k :
  0 <= c <= 2 ^ 20 -> 0 <= k <= 2 ^ 20 -> c * k <= 2 ^ 20 ->
  fine (F64.mul (F64.lit c) (F64.lit k)) /\
  V (F64.mul (F64.lit c) (F64.lit k)) = c * k * U.
Proof.
  intros Hc Hk Hck.
  destruct (fine_lit c Hc) as [(Hcc & _ & _) Hvc].
  destruct (fine_lit k Hk) as [(Hck' & _ & _) Hvk].
  destruct (fine_lit (c * k)) as [(_ & Hf1 & Hf2) Hvck].
  { split; [apply Z.mul_nonneg_nonneg; lia|exact Hck]. }
  rewrite Hvck in Hf1, Hf2.
  pose proof U_pos as HU. pose proof U20_le as H20. pose proof U_ge_52 as H52.
  assert (P20 : 0 < 2 ^ 20) by (apply pow2_pos; lia).
  assert (E21 : 2 ^ 21 = 2 * 2 ^ 20) by reflexivity.
  assert (E53 : 2 ^ 20 < 2 ^ 53) by (apply Z.pow_lt_mono_r; lia).
  assert (Hck0 : 0 <= c * k) by (apply Z.mul_nonneg_nonneg; lia).
  assert (E : V (F64.lit c) * V (F64.lit k) = c * k * U * U) by (rewrite Hvc, Hvk; ring).
  destruct (mul_correct (F64.lit c) (F64.lit k)) as [Hm Hv]; try assumption.
  - rewrite E. fold U. destruct (Z.eq_dec (c * k) 0) as [Hz|Hz].
    + left. rewrite Hz. reflexivity.
    + right. apply Z.mul_le_mono_nonneg_r; [lia|].
      apply Z.le_trans with (1 * U); [lia|]. apply Z.mul_le_mono_nonneg_r; lia.
  - rewrite E. fold U. apply Z.mul_le_mono_nonneg_r; [lia|]. lia.
  - assert (Hval : V (F64.mul (F64.lit c) (F64.lit k)) = c * k * U).
    { unfold F64.mul. 
      rewrite Hv, E. fold U.
      replace (c * k * U * U) with (U * (c * k * U)) by ring.
      rewrite <- (Z.mul_1_r U) at 3. rewrite Rz_scale by lia.
      apply Rz_int. lia. }
    split; [|exact Hval]. split; [exact Hm|]. rewrite Hval. split; assumption.
Qed.

(** ** Floor of a quotient by an integral literal *)

Lemma div_checks_10000 : div_checks 10000 10 = true.
Proof. vm_compute. reflexivity. Qed.

Lemma div_checks_100 : div_checks 100 100 = true.
Proof. vm_compute. reflexivity. Qed.

Lemma div_check_sound c k :
  div_check c k = true ->
  fine (fpred (F64.lit (c * k))) /\
  V (F64.div (fpred (F64.lit (c * k))) (F64.lit c)) < k * U.
Proof.
  unfold div_check. cbv zeta.
  rewrite !andb_true_iff, !Z.leb_le, Z.ltb_lt.
  intros [[[H1 H2] H3] H4]. split; [|exact H4].
  split; [now apply canob_sound|]. split; [right; exact H2|exact H3].
Qed.

Lemma Zrange_In k N : 1 <= k <= Z.of_nat N -> In k (Zrange N).
Proof.
  intros Hk. unfold Zrange. apply in_map_iff. exists (Z.to_nat k). split; [lia|].
  apply in_seq. lia.
Qed.

Lemma floor_div_lit c N x :
  div_checks c N = true -> 0 < c -> c * Z.of_nat N <= 2 ^ 20 ->
  fine x -> V x < Z.of_nat N * (c * U) ->
  F64.floor (F64.div x (F64.lit c)) = Ok (V x / (c * U)).
Proof.
  intros Hchk Hc HcN Hx Hlt.
  pose proof U_pos as HU. pose proof (V_nonneg x) as Hx0.
  assert (P20 : 0 < 2 ^ 20) by (apply pow2_pos; lia).
  assert (HcU : 0 < c * U) by (apply Z.mul_pos_pos; lia).
  assert (HN : 0 < Z.of_nat N).
  { destruct (Z.eq_dec (Z.of_nat N) 0) as [E|E]; [rewrite E in Hlt|]; lia. }
  assert (Hc20 : c <= 2 ^ 20) by nia.
  destruct (div_lit x c Hx ltac:(lia)) as [Hq Hv].
  rewrite (floor_correct _ Hq). f_equal. rewrite Hv.
  set (k := V x / (c * U)).
  assert (Hk0 : 0 <= k) by (apply Z.div_pos; lia).
  assert (Hk1 : k * (c * U) <= V x).
  { unfold k. rewrite Z.mul_comm. apply Z.mul_div_le. lia. }
  assert (Hk2 : V x < (k + 1) * (c * U)).
  { unfold k. rewrite Z.mul_comm. apply (Z.mul_succ_div_gt (V x) (c * U)). lia. }
  assert (HkN : k + 1 <= Z.of_nat N).
  { assert (k * (c * U) < Z.of_nat N * (c * U)) by lia.
    assert (k < Z.of_nat N) by (apply (Z.mul_lt_mono_pos_r (c * U)); lia). lia. }
  assert (Hk53 : k + 1 < 2 ^ 53).
  { assert (E53 : 2 ^ 20 < 2 ^ 53) by (apply Z.pow_lt_mono_r; lia). nia. }
  destruct Hx as (Hcx & Hlo & Hhi).
  assert (Hlo' : V x = 0 \/ 2 ^ 52 * c <= V x).
  { destruct Hlo as [Hz|Hlo]; [left; exact Hz|right].
    apply Z.le_trans with (2 ^ 1000); [|exact Hlo].
    apply Z.le_trans with (2 ^ 52 * 2 ^ 20).
    - apply Z.mul_le_mono_nonneg_l; [|lia]. apply Z.pow_nonneg. lia.
    - rewrite <- (Z.pow_add_r 2 52 20) by lia. apply Z.pow_le_mono_r; lia. }
  symmetry. apply (Z.div_unique_pos _ _ k (Rz (V x) c - k * U)); [|ring].
  split.
  - (* lower bound *)
    assert (k * U <= Rz (V x) c); [|lia].
    rewrite <- (Rz_int k) by lia.
    apply Rz_mono0; [lia|lia| |lia].
    destruct (Z.eq_dec k 0) as [->|Hkz]; [left; reflexivity|right].
    pose proof U_ge_52. apply Z.le_trans with (1 * U); [lia|].
    apply Z.mul_le_mono_nonneg_r; lia.
  - (* upper bound *)
    unfold div_checks in Hchk. rewrite forallb_forall in Hchk.
    assert (Hin : In (k + 1) (Zrange N)) by (apply Zrange_In; lia).
    specialize (Hchk (k + 1) Hin).
    destruct (div_check_sound _ _ Hchk) as [HP HPv].
    destruct (div_lit _ c HP ltac:(lia)) as [_ HPq]. rewrite HPq in HPv.
    destruct (fine_lit (c * (k + 1))) as [(Hcl & _ & _) Hvl]; [nia|].
    assert (Hle : V x <= V (fpred (F64.lit (c * (k + 1))))).
    { apply fpred_below; [exact Hcx|exact Hcl|]. rewrite Hvl. lia. }
    assert (Rz (V x) c <= Rz (V (fpred (F64.lit (c * (k + 1))))) c); [|lia].
    apply Rz_mono0; [lia|lia|exact Hlo'|].
    apply Z.mul_le_mono_nonneg_r; lia.
Qed.

(** Subtracting the integral part [k * c] of a float in [[k*c, (k+1)*c)] is
    exact. *)
Lemma sub_digit x c k b :
  fine x -> 0 <= b <= 19 -> 2 ^ b <= c < 2 ^ (b + 1) -> 0 <= k ->
  c * k <= 2 ^ 20 ->
  k * (c * U) <= V x < (k + 1) * (c * U) ->
  fine (F64.sub x (F64.mul (F64.lit c) (F64.lit k))) /\
  V (F64.sub x (F64.mul (F64.lit c) (F64.lit k))) = V x - k * (c * U).
Proof.
  intros (Hcx & Hlo & Hhi) Hb Hc Hk Hck [Hk1 Hk2].
  pose proof U_pos as HU. pose proof U20_le as H20.
  pose proof p52_le_1000 as H52.
  assert (Pb : 0 < 2 ^ b) by (apply pow2_pos; lia).
  assert (P20 : 0 < 2 ^ 20) by (apply pow2_pos; lia).
  assert (E21 : 2 ^ 21 = 2 * 2 ^ 20) by reflexivity.
  assert (Hc20 : c <= 2 ^ 20).
  { assert (2 ^ (b + 1) <= 2 ^ 20) by (apply Z.pow_le_mono_r; lia). lia. }
  assert (Hk20 : k <= 2 ^ 20).
  { apply Z.le_trans with (c * k); [|exact Hck].
    rewrite <- (Z.mul_1_l k) at 1. apply Z.mul_le_mono_nonneg_r; lia. }
  destruct (mul_lit c k ltac:(lia) ltac:(lia) Hck) as [(Hct & _ & _) Hvt].
  set (t := F64.mul (F64.lit c) (F64.lit k)) in *.
  assert (Et : V t = k * (c * U)) by (rewrite Hvt; ring).
  set (d := V x - k * (c * U)).
  assert (Hd0 : 0 <= d) by (unfold d; lia).
  assert (HdU : d < c * U) by (unfold d; lia).
  assert (Hdz : d = 0 \/ 2 ^ 1000 <= d /\ Rz d 1 = d).
  { destruct (Z.eq_dec k 0) as [Hkz|Hkz].
    - assert (Ed : d = V x) by (unfold d; rewrite Hkz; ring).
      rewrite Ed. destruct Hlo as [Hz|Hlo]; [left; exact Hz|right].
      split; [exact Hlo|]. now apply Rz_V.
    - destruct (Z.eq_dec d 0) as [Hdz|Hdz]; [left; exact Hdz|right].
      set (g := b + 1022).
      assert (EU : U = 2 ^ (1074 - g) * 2 ^ g).
      { unfold U. rewrite <- (Z.pow_add_r 2 (1074 - g) g) by (unfold g; lia).
        f_equal. lia. }
      assert (EbU : 2 ^ b * U = 2 ^ (g + 52)).
      { unfold U. rewrite <- (Z.pow_add_r 2 b 1074) by lia. f_equal.
        unfold g. lia. }
      assert (Eb1U : 2 ^ (b + 1) * U = 2 ^ (53 + g)).
      { unfold U. rewrite <- (Z.pow_add_r 2 (b + 1) 1074) by lia. f_equal.
        unfold g. lia. }
      assert (HcU : 2 ^ b * U <= c * U) by (apply Z.mul_le_mono_nonneg_r; lia).
      assert (HcU' : c * U < 2 ^ (b + 1) * U) by (apply Z.mul_lt_mono_pos_r; lia).
      assert (HkcU : c * U <= k * (c * U)).
      { rewrite <- (Z.mul_1_l (c * U)) at 1.
        apply Z.mul_le_mono_nonneg_r; lia. }
      assert (Dx : (2 ^ g | V x)).
      { apply (cano_divide x g Hcx); [unfold g; lia|]. lia. }
      assert (Dt : (2 ^ g | k * (c * U))).
      { apply Z.divide_mul_r, Z.divide_mul_r. rewrite EU.
        apply Z.divide_mul_r, Z.divide_refl. }
      assert (Dd : (2 ^ g | d)) by (unfold d; now apply Z.divide_sub_r).
      assert (Pg : 0 < 2 ^ g) by (apply pow2_pos; unfold g; lia).
      assert (Hg1000 : 2 ^ 1000 <= 2 ^ g).
      { apply Z.pow_le_mono_r; unfold g; lia. }
      assert (Hdg : 2 ^ g <= d).
      { destruct Dd as [z Hz]. rewrite Hz.
        rewrite <- (Z.mul_1_l (2 ^ g)) at 1.
        apply Z.mul_le_mono_nonneg_r; [lia|].
        destruct (Z.le_gt_cases 1 z) as [Hz1|Hz1]; [exact Hz1|exfalso].
        assert (z * 2 ^ g <= 0) by (apply Z.mul_nonpos_nonneg; lia). lia. }
      split; [lia|].
      apply (Rz_repr d g); [unfold g; lia|exact Dd|]. lia. }
  assert (Hval : V (F64.sub x t) = d /\ cano (F64.sub x t)).
  { destruct (sub_correct x t Hcx Hct) as [Hs Hv].
    - rewrite Et. lia.
    - rewrite Et. fold d. destruct Hdz as [Hz|[Hz _]]; [left; exact Hz|right; lia].
    - split; [|exact Hs]. unfold F64.sub. 
       rewrite Hv, Et. fold d.
      destruct Hdz as [Hz|[_ Hz]]; [rewrite Hz; apply Rz_zero|exact Hz]. }
  destruct Hval as [Hval Hcs].
  split; [|exact Hval]. split; [exact Hcs|]. rewrite Hval. split.
  - destruct Hdz as [Hz|[Hz _]]; [left|right]; assumption.
  - assert (0 <= k * (c * U)).
    { apply Z.mul_nonneg_nonneg; [lia|]. apply Z.mul_nonneg_nonneg; lia. }
    unfold d. lia.
Qed.

Lemma mul_int_lit c k :
  0 <= k < 2 ^ 53 -> F64.mul_int c k = Ok (F64.mul c (F64.lit k)).
Proof.
  intros Hk. unfold F64.mul_int. rewrite (of_int_correct k Hk). reflexivity.
Qed.

Lemma digits_of_correct x :
  fine x -> V x < 100000 * U ->
  digits_of x =
  Ok (V x / (10000 * U), (V x mod (10000 * U)) / (100 * U), (V x mod (100 * U)) / U).
Proof.
  intros Hx Hlt. pose proof U_pos as HU. pose proof (V_nonneg x) as Hx0.
  assert (P20 : 2 ^ 20 = 1048576) by reflexivity.
  assert (P53 : 2 ^ 53 = 9007199254740992) by reflexivity.
  unfold digits_of.
  change (DecimalDay.value MINUTES) with (F64.lit 10000).
  change (DecimalHour.value SECONDS) with (F64.lit 10000).
  change (DecimalHour.value MINUTES) with (F64.lit 100).
  change (DecimalMinute.value SECONDS) with (F64.lit 100).
  rewrite (floor_div_lit 10000 10 x div_checks_10000); [|lia|rewrite P20; lia|exact Hx|].
  2:{ change (Z.of_nat 10) with 10. lia. }
  cbn [bind].
  set (dh := V x / (10000 * U)).
  assert (HcU : 0 < 10000 * U) by lia.
  assert (Hdh0 : 0 <= dh) by (apply Z.div_pos; lia).
  assert (Hdh1 : dh * (10000 * U) <= V x).
  { unfold dh. rewrite Z.mul_comm. apply Z.mul_div_le. lia. }
  assert (Hdh2 : V x < (dh + 1) * (10000 * U)).
  { unfold dh. rewrite Z.mul_comm. apply (Z.mul_succ_div_gt (V x) (10000 * U)). lia. }
  assert (Hdh9 : dh <= 9).
  { assert (dh * (10000 * U) < 10 * (10000 * U)) by lia.
    assert (dh < 10) by (apply (Z.mul_lt_mono_pos_r (10000 * U)); lia). lia. }
  rewrite (mul_int_lit _ dh) by lia. cbn [bind].
  destruct (sub_digit x 10000 dh 13 Hx) as [Hr1 Hv1];
    [lia|split; [apply Z.leb_le|]; reflexivity|lia|lia|lia|].
  set (r1 := F64.sub x (F64.mul (F64.lit 10000) (F64.lit dh))) in *.
  assert (Er1 : V r1 = V x mod (10000 * U)).
  { rewrite Hv1, Z.mod_eq by lia. fold dh. ring. }
  pose proof (Z.mod_pos_bound (V x) (10000 * U) HcU) as Hm1.
  rewrite (floor_div_lit 100 100 r1 div_checks_100); [|lia|rewrite P20; lia|exact Hr1|].
  2:{ change (Z.of_nat 100) with 100. lia. }
  cbn [bind].
  set (dm := V r1 / (100 * U)).
  assert (HcU' : 0 < 100 * U) by lia.
  assert (Hdm0 : 0 <= dm) by (apply Z.div_pos; lia).
  assert (Hdm1 : dm * (100 * U) <= V r1).
  { unfold dm. rewrite Z.mul_comm. apply Z.mul_div_le. lia. }
  assert (Hdm2 : V r1 < (dm + 1) * (100 * U)).
  { unfold dm. rewrite Z.mul_comm. apply (Z.mul_succ_div_gt (V r1) (100 * U)). lia. }
  assert (Hdm9 : dm <= 99).
  { assert (dm * (100 * U) < 100 * (100 * U)) by lia.
    assert (dm < 100) by (apply (Z.mul_lt_mono_pos_r (100 * U)); lia). lia. }
  rewrite (mul_int_lit _ dm) by lia. cbn [bind].
  destruct (sub_digit r1 100 dm 6 Hr1) as [Hr2 Hv2];
    [lia|split; [apply Z.leb_le|]; reflexivity|lia|lia|lia|].
  set (r2 := F64.sub r1 (F64.mul (F64.lit 100) (F64.lit dm))) in *.
  assert (Er2 : V r2 = V x mod (100 * U)).
  { rewrite Hv2. rewrite <- (Z.mod_mod_divide (V x) (10000 * U) (100 * U)).
    - rewrite <- Er1, (Z.mod_eq (V r1) (100 * U)) by lia. fold dm. ring.
    - exists 100. ring. }
  destruct Hr2 as (Hc2 & _ & _).
  rewrite (floor_correct r2 Hc2). cbn [bind].
  unfold dm. rewrite Er1, Er2. reflexivity.
Qed.

Lemma Rz_pow1000 : Rz (2 ^ 1000) 1 = 2 ^ 1000.
Proof.
  change (2 ^ 1000) with (2 ^ 52 * 2 ^ 948). apply Rz_exact; [|lia].
  split; [lia|]. apply Z.pow_lt_mono_r; lia.
Qed.

Lemma Rz_ge_1000 n d : 0 < d -> 2 ^ 1000 * d <= n -> 2 ^ 1000 <= Rz n d.
Proof.
  intros Hd Hn. rewrite <- Rz_pow1000 at 1.
  apply Rz_mono; [lia|exact Hd| |lia].
  pose proof p52_le_1000. lia.
Qed.

Lemma Rz_le_int n d k :
  0 < d -> 0 <= k < 2 ^ 53 -> n = 0 \/ 2 ^ 52 * d <= n -> n <= k * U * d ->
  Rz n d <= k * U.
Proof.
  intros Hd Hk Hn Hle. rewrite <- (Rz_int k Hk).
  apply Rz_mono0; [exact Hd|lia|exact Hn|lia].
Qed.

Lemma add_fine x y k :
  cano x -> cano y -> V x = 0 \/ 2 ^ 1000 <= V x -> V y = 0 \/ 2 ^ 1000 <= V y ->
  0 <= k <= 2 ^ 20 -> V x + V y <= k * U ->
  fine (F64.add x y) /\ V (F64.add x y) = Rz (V x + V y) 1 /\
  V (F64.add x y) <= k * U.
Proof.
  intros Hx Hy Lx Ly Hk Hb.
  pose proof U_pos as HU. pose proof U20_le as H20. pose proof p52_le_1000 as H52.
  pose proof (V_nonneg x) as Hx0. pose proof (V_nonneg y) as Hy0.
  assert (P20 : 0 < 2 ^ 20) by (apply pow2_pos; lia).
  assert (E21 : 2 ^ 21 = 2 * 2 ^ 20) by reflexivity.
  assert (E53 : 2 ^ 20 < 2 ^ 53) by (apply Z.pow_lt_mono_r; lia).
  assert (HkU : k * U <= 2 ^ 20 * U) by (apply Z.mul_le_mono_nonneg_r; lia).
  destruct (add_correct x y Hx Hy) as [Hc Hv]; [lia|].
  change (SFadd F64.prec F64.emax x y) with (F64.add x y) in Hc, Hv.
  assert (Hn : V x + V y = 0 \/ 2 ^ 1000 <= V x + V y) by lia.
  assert (Hup : V (F64.add x y) <= k * U).
  { rewrite Hv. apply Rz_le_int; [lia|lia| |lia].
    destruct Hn as [Hn|Hn]; [left; exact Hn|right; lia]. }
  split; [|split; [exact Hv|exact Hup]].
  split; [exact Hc|]. split; [|lia].
  rewrite Hv. destruct Hn as [Hn|Hn].
  - left. rewrite Hn. apply Rz_zero.
  - right. apply Rz_ge_1000; lia.
Qed.

(** ** [standard_to_seconds] on a valid time *)

Lemma frac_fine us :
  0 <= us <= 999999 ->
  fine (F64.div (F64.lit us) (F64.lit 1000000)) /\
  V (F64.div (F64.lit us) (F64.lit 1000000)) = Rz (us * U) 1000000 /\
  V (F64.div (F64.lit us) (F64.lit 1000000)) <= U.
Proof.
  intros Hus. pose proof U_pos as HU. pose proof U_ge_1000 as H1000.
  assert (P20 : 2 ^ 20 = 1048576) by reflexivity.
  assert (P53 : 2 ^ 53 = 9007199254740992) by reflexivity.
  assert (E1020 : 2 ^ 1020 * 2 ^ 20 <= U).
  { unfold U. rewrite <- (Z.pow_add_r 2 1020 20) by lia. apply Z.pow_le_mono_r; lia. }
  assert (E1000 : 2 ^ 52 * 1000000 <= 2 ^ 1000 * 1000000 /\ 2 ^ 1000 * 1000000 <= U).
  { pose proof p52_le_1000.
    assert (2 ^ 1000 <= 2 ^ 1020) by (apply Z.pow_le_mono_r; lia).
    assert (0 < 2 ^ 1000) by (apply pow2_pos; lia).
    split; [lia|]. apply Z.le_trans with (2 ^ 1020 * 2 ^ 20); [|exact E1020].
    apply Z.mul_le_mono_nonneg; lia. }
  destruct E1000 as [E1000a E1000b].
  destruct (fine_lit us ltac:(lia)) as [Hf Hv].
  destruct (div_lit (F64.lit us) 1000000 Hf ltac:(lia)) as [Hc Hq].
  rewrite Hv in Hq.
  assert (Hn : us * U = 0 \/ 2 ^ 1000 * 1000000 <= us * U).
  { destruct (Z.eq_dec us 0) as [->|Hz]; [left; reflexivity|right].
    apply Z.le_trans with (1 * U); [rewrite Z.mul_1_l; exact E1000b|].
    apply Z.mul_le_mono_nonneg_r; lia. }
  assert (Hup : V (F64.div (F64.lit us) (F64.lit 1000000)) <= U).
  { rewrite Hq. rewrite <- (Z.mul_1_l U) at 2.
    apply Rz_le_int; [lia|lia| |].
    - destruct Hn as [Hn|Hn]; [left; exact Hn|right; lia].
    - apply Z.le_trans with (1000000 * U); [|lia].
      apply Z.mul_le_mono_nonneg_r; lia. }
  split; [|split; [exact Hq|exact Hup]].
  split; [exact Hc|]. split; [|lia].
  rewrite Hq. destruct Hn as [Hn|Hn].
  - left. rewrite Hn. apply Rz_zero.
  - right. apply Rz_ge_1000; lia.
Qed.

Lemma stn_of_spec h m s us :
  valid h m s us ->
  fine (stn_of h m s us) /\
  V (stn_of h m s us) =
    Rz ((h * 3600 + m * 60) * U + Rz (s * U + Rz (us * U) 1000000) 1) 1.
Proof.
  intros (Hh & Hm & Hs & Hus).
  pose proof U_pos as HU.
  assert (P20 : 2 ^ 20 = 1048576) by reflexivity.
  assert (P53 : 2 ^ 53 = 9007199254740992) by reflexivity.
  destruct (frac_fine us Hus) as ((Hcf & Lf & _) & Vf & Uf).
  set (frac := F64.div (F64.lit us) (F64.lit 1000000)) in *.
  destruct (fine_lit s ltac:(lia)) as [(Hcs & Ls & _) Vs].
  assert (Bs : s * U <= 59 * U) by (apply Z.mul_le_mono_nonneg_r; lia).
  assert (Bsec : V (F64.lit s) + V frac <= 60 * U) by (rewrite Vs; lia).
  destruct (add_fine (F64.lit s) frac 60 Hcs Hcf Ls Lf ltac:(lia) Bsec)
    as ((Hcsec & Lsec & _) & Vsec & Usec).
  set (sec := F64.add (F64.lit s) frac) in *.
  rewrite Vs, Vf in Vsec.
  destruct (mul_lit h 3600 ltac:(lia) ltac:(lia) ltac:(lia)) as [(Hch & Lh & _) Vh].
  destruct (mul_lit m 60 ltac:(lia) ltac:(lia) ltac:(lia)) as [(Hcm & Lm & _) Vm].
  set (hours := F64.mul (F64.lit h) (F64.lit 3600)) in *.
  set (minutes := F64.mul (F64.lit m) (F64.lit 60)) in *.
  assert (Ehm : V hours + V minutes = (h * 3600 + m * 60) * U).
  { rewrite Vh, Vm. ring. }
  assert (Bhm : (h * 3600 + m * 60) * U <= 86340 * U).
  { apply Z.mul_le_mono_nonneg_r; lia. }
  destruct (add_fine hours minutes 86340 Hch Hcm Lh Lm ltac:(lia) ltac:(lia))
    as ((Hchm & Lhm & _) & Vhm & _).
  rewrite Ehm in Vhm. rewrite Rz_int in Vhm by lia.
  destruct (add_fine (F64.add hours minutes) sec 86400 Hchm Hcsec Lhm Lsec
              ltac:(lia) ltac:(lia)) as (Hfin & Vstn & _).
  rewrite Vhm, Vsec in Vstn.
  split; [exact Hfin|exact Vstn].
Qed.

Lemma standard_to_seconds_valid h m s us :
  valid h m s us -> standard_to_seconds [h; m; s; us] = Ok (stn_of h m s us).
Proof.
  intros (Hh & Hm & Hs & Hus).
  assert (P53 : 2 ^ 53 = 9007199254740992) by reflexivity.
  unfold standard_to_seconds, index. cbn [nth_error bind].
  unfold F64.int_truediv, F64.int_add.
  rewrite (of_int_correct h), (of_int_correct m), (of_int_correct us),
    (of_int_correct s) by lia.
  cbn [bind]. reflexivity.
Qed.

Lemma add_mono x y x' y' k :
  cano x -> cano y -> cano x' -> cano y' ->
  V x = 0 \/ 2 ^ 1000 <= V x -> V y = 0 \/ 2 ^ 1000 <= V y ->
  0 <= k <= 2 ^ 20 -> V x + V y <= V x' + V y' -> V x' + V y' <= k * U ->
  V (F64.add x y) <= V (F64.add x' y').
Proof.
  intros Hx Hy Hx' Hy' Lx Ly Hk Hle Hb.
  pose proof U_pos as HU. pose proof U20_le as H20. pose proof p52_le_1000 as H52.
  pose proof (V_nonneg x) as Hx0. pose proof (V_nonneg y) as Hy0.
  assert (P20 : 0 < 2 ^ 20) by (apply pow2_pos; lia).
  assert (E21 : 2 ^ 21 = 2 * 2 ^ 20) by reflexivity.
  assert (HkU : k * U <= 2 ^ 20 * U) by (apply Z.mul_le_mono_nonneg_r; lia).
  destruct (add_correct x y Hx Hy) as [_ Hv]; [lia|].
  destruct (add_correct x' y' Hx' Hy') as [_ Hv']; [lia|].
  change (SFadd F64.prec F64.emax x y) with (F64.add x y) in Hv.
  change (SFadd F64.prec F64.emax x' y') with (F64.add x' y') in Hv'.
  rewrite Hv, Hv'. apply Rz_mono0; [lia|lia| |lia].
  destruct Lx as [Lx|Lx], Ly as [Ly|Ly]; [left; lia|right; lia..].
Qed.

Lemma frac_mono us us' :
  0 <= us -> us <= us' -> us' <= 999999 -> V (frac_of us) <= V (frac_of us').
Proof.
  intros H0 Hle Hb. pose proof U_pos as HU.
  destruct (frac_fine us ltac:(lia)) as (_ & Vf & _).
  destruct (frac_fine us' ltac:(lia)) as (_ & Vf' & _).
  unfold frac_of. rewrite Vf, Vf'.
  assert (E1020 : 2 ^ 52 * 1000000 <= U).
  { apply Z.le_trans with (2 ^ 52 * 2 ^ 20).
    - apply Z.mul_le_mono_nonneg_l; [apply Z.pow_nonneg; lia|].
      apply Z.leb_le. reflexivity.
    - unfold U. rewrite <- (Z.pow_add_r 2 52 20) by lia. apply Z.pow_le_mono_r; lia. }
  apply Rz_mono0; [lia|lia| |].
  - destruct (Z.eq_dec us 0) as [->|Hz]; [left; reflexivity|right].
    apply Z.le_trans with (1 * U); [lia|]. apply Z.mul_le_mono_nonneg_r; lia.
  - apply Z.mul_le_mono_nonneg_r; [lia|]. apply Z.mul_le_mono_nonneg_r; lia.
Qed.

Lemma sec_spec s us :
  0 <= s <= 59 -> 0 <= us <= 999999 ->
  fine (sec_of s us) /\ V (sec_of s us) <= 60 * U /\
  V (F64.lit s) + V (frac_of us) <= (s + 1) * U /\
  s * U <= V (F64.lit s) + V (frac_of us).
Proof.
  intros Hs Hus. pose proof U_pos as HU.
  destruct (frac_fine us Hus) as ((Hcf & Lf & _) & _ & Uf).
  fold (frac_of us) in *.
  pose proof (V_nonneg (frac_of us)) as Hf0.
  destruct (fine_lit s ltac:(lia)) as [(Hcs & Ls & _) Vs].
  assert (Bs : s * U <= 59 * U) by (apply Z.mul_le_mono_nonneg_r; lia).
  assert (Bsec : V (F64.lit s) + V (frac_of us) <= 60 * U) by (rewrite Vs; lia).
  destruct (add_fine (F64.lit s) (frac_of us) 60 Hcs Hcf Ls Lf ltac:(lia) Bsec)
    as (Hfin & _ & Usec).
  split; [exact Hfin|]. split; [exact Usec|]. rewrite Vs. lia.
Qed.

Lemma hm_spec h m :
  0 <= h <= 23 -> 0 <= m <= 59 ->
  fine (hm_of h m) /\ V (hm_of h m) = (h * 3600 + m * 60) * U.
Proof.
  intros Hh Hm. pose proof U_pos as HU.
  assert (P53 : 2 ^ 53 = 9007199254740992) by reflexivity.
  destruct (mul_lit h 3600 ltac:(lia) ltac:(lia) ltac:(lia)) as [(Hch & Lh & _) Vh].
  destruct (mul_lit m 60 ltac:(lia) ltac:(lia) ltac:(lia)) as [(Hcm & Lm & _) Vm].
  set (hours := F64.mul (F64.lit h) (F64.lit 3600)) in *.
  set (minutes := F64.mul (F64.lit m) (F64.lit 60)) in *.
  assert (Ehm : V hours + V minutes = (h * 3600 + m * 60) * U).
  { rewrite Vh, Vm. ring. }
  assert (Bhm : (h * 3600 + m * 60) * U <= 86340 * U).
  { apply Z.mul_le_mono_nonneg_r; lia. }
  destruct (add_fine hours minutes 86340 Hch Hcm Lh Lm ltac:(lia) ltac:(lia))
    as (Hfin & Vhm & _).
  rewrite Ehm in Vhm. rewrite Rz_int in Vhm by lia.
  split; [exact Hfin|exact Vhm].
Qed.

Lemma sec_mono s us s' us' :
  0 <= s -> s' <= 59 -> 0 <= us <= 999999 -> 0 <= us' <= 999999 ->
  s < s' \/ s = s' /\ us <= us' ->
  V (sec_of s us) <= V (sec_of s' us').
Proof.
  intros Hs Hs' Hus Hus' Hlt. pose proof U_pos as HU.
  assert (Hss : s <= s') by lia.
  destruct (sec_spec s us ltac:(lia) Hus) as (_ & _ & B1 & _).
  destruct (sec_spec s' us' ltac:(lia) Hus') as (_ & _ & B2 & B3).
  destruct (frac_fine us Hus) as ((Hcf & Lf & _) & _ & _).
  destruct (frac_fine us' Hus') as ((Hcf' & _ & _) & _ & _).
  fold (frac_of us) in *. fold (frac_of us') in *.
  destruct (fine_lit s ltac:(lia)) as [(Hcs & Ls & _) Vs].
  destruct (fine_lit s' ltac:(lia)) as [(Hcs' & _ & _) Vs'].
  assert (B4 : (s' + 1) * U <= 60 * U) by (apply Z.mul_le_mono_nonneg_r; lia).
  unfold sec_of.
  apply (add_mono _ _ _ _ 60); try assumption; [lia| |lia].
  destruct Hlt as [Hlt|[-> Hle]].
  - assert ((s + 1) * U <= s' * U) by (apply Z.mul_le_mono_nonneg_r; lia). lia.
  - pose proof (frac_mono us us' ltac:(lia) Hle ltac:(lia)). lia.
Qed.

Lemma stn_of_eq h m s us : stn_of h m s us = F64.add (hm_of h m) (sec_of s us).
Proof. reflexivity. Qed.

Lemma stn_mono h1 m1 s1 u1 h2 m2 s2 u2 :
  valid h1 m1 s1 u1 -> valid h2 m2 s2 u2 ->
  time_lt (h1, m1, s1, u1) (h2, m2, s2, u2) ->
  V (stn_of h1 m1 s1 u1) <= V (stn_of h2 m2 s2 u2).
Proof.
  intros (Hh1 & Hm1 & Hs1 & Hu1) (Hh2 & Hm2 & Hs2 & Hu2) Hlt.
  pose proof U_pos as HU. cbn [time_lt] in Hlt.
  destruct (hm_spec h1 m1 Hh1 Hm1) as [(Hc1 & L1 & _) V1].
  destruct (hm_spec h2 m2 Hh2 Hm2) as [(Hc2 & _ & _) V2].
  destruct (sec_spec s1 u1 Hs1 Hu1) as ((Hcs1 & Ls1 & _) & Us1 & _ & _).
  destruct (sec_spec s2 u2 Hs2 Hu2) as ((Hcs2 & _ & _) & Us2 & _ & _).
  pose proof (V_nonneg (sec_of s2 u2)) as Hn2.
  assert (B2 : (h2 * 3600 + m2 * 60) * U <= 86340 * U).
  { apply Z.mul_le_mono_nonneg_r; lia. }
  rewrite !stn_of_eq.
  apply (add_mono _ _ _ _ 86400); try assumption; [lia| |lia].
  rewrite V1, V2.
  assert (Hcase : h1 * 3600 + m1 * 60 + 60 <= h2 * 3600 + m2 * 60 \/
                  h1 = h2 /\ m1 = m2 /\ (s1 < s2 \/ s1 = s2 /\ u1 <= u2)) by lia.
  destruct Hcase as [Hc|(-> & -> & Hc)].
  - assert ((h1 * 3600 + m1 * 60 + 60) * U <= (h2 * 3600 + m2 * 60) * U).
    { apply Z.mul_le_mono_nonneg_r; lia. }
    lia.
  - pose proof (sec_mono s1 u1 s2 u2 ltac:(lia) ltac:(lia) Hu1 Hu2 Hc). lia.
Qed.

Lemma ratio_check_true : ratio_check = true.
Proof. vm_compute. reflexivity. Qed.

Lemma ds_max_check_true : ds_max_check = true.
Proof. vm_compute. reflexivity. Qed.

Lemma ratio_spec : cano ratio /\ U <= V ratio <= 2 * U.
Proof.
  pose proof ratio_check_true as H. unfold ratio_check in H.
  rewrite !andb_true_iff, !Z.leb_le in H. destruct H as [[H1 H2] H3].
  split; [now apply canob_sound|]. split; assumption.
Qed.

(** The product with the rescaling factor. *)
Lemma mul_ratio x :
  fine x ->
  cano (F64.mul x ratio) /\ V (F64.mul x ratio) = Rz (V x * V ratio) U /\
  (V (F64.mul x ratio) = 0 \/ 2 ^ 1000 <= V (F64.mul x ratio)).
Proof.
  intros (Hc & Lo & Hi). destruct ratio_spec as [Hr [R1 R2]].
  pose proof U_pos as HU. pose proof U20_le as H20. pose proof p52_le_1000 as H52.
  pose proof (V_nonneg x) as Hx0.
  assert (P1000 : 0 < 2 ^ 1000) by (apply pow2_pos; lia).
  assert (P20 : 0 < 2 ^ 20) by (apply pow2_pos; lia).
  assert (E21 : 2 ^ 21 = 2 * 2 ^ 20) by reflexivity.
  assert (Hn : V x * V ratio = 0 \/ 2 ^ 1000 * U <= V x * V ratio).
  { destruct Lo as [Lo|Lo]; [left; rewrite Lo; reflexivity|right].
    apply Z.mul_le_mono_nonneg; lia. }
  destruct (mul_correct x ratio Hc Hr) as [Hm Hv].
  - fold U. destruct Hn as [Hn|Hn]; [left; exact Hn|right].
    apply Z.le_trans with (2 ^ 1000 * U); [|exact Hn].
    apply Z.mul_le_mono_nonneg_r; lia.
  - fold U. apply Z.le_trans with (2 ^ 20 * U * (2 * U)).
    + apply Z.mul_le_mono_nonneg; lia.
    + replace (2 ^ 20 * U * (2 * U)) with (2 ^ 21 * U * U) by (rewrite E21; ring).
      apply Z.mul_le_mono_nonneg_r; lia.
  - change (SFmul F64.prec F64.emax x ratio) with (F64.mul x ratio) in Hm, Hv.
    fold U in Hv. split; [exact Hm|]. split; [exact Hv|].
    rewrite Hv. destruct Hn as [Hn|Hn].
    + left. rewrite Hn. apply Rz_zero.
    + right. apply Rz_ge_1000; lia.
Qed.

Lemma mul_ratio_mono x y :
  fine x -> fine y -> V x <= V y -> V (F64.mul x ratio) <= V (F64.mul y ratio).
Proof.
  intros Hx Hy Hle. destruct ratio_spec as [Hr [R1 R2]].
  destruct (mul_ratio x Hx) as (_ & Vx & _).
  destruct (mul_ratio y Hy) as (_ & Vy & _).
  destruct Hx as (_ & Lo & _).
  pose proof U_pos as HU. pose proof p52_le_1000 as H52.
  pose proof (V_nonneg x) as Hx0.
  assert (P52 : 0 < 2 ^ 52) by (apply pow2_pos; lia).
  rewrite Vx, Vy. apply Rz_mono0; [lia|lia| |].
  - destruct Lo as [Lo|Lo]; [left; rewrite Lo; reflexivity|right].
    rewrite (Z.mul_comm (2 ^ 52)). rewrite (Z.mul_comm (V x)).
    apply Z.mul_le_mono_nonneg; lia.
  - apply Z.mul_le_mono_nonneg_r; [lia|].
    apply Z.mul_le_mono_nonneg_r; lia.
Qed.

Lemma valid_max : valid 23 59 59 999999.
Proof. unfold valid. lia. Qed.

Lemma ds_mono h1 m1 s1 u1 h2 m2 s2 u2 :
  valid h1 m1 s1 u1 -> valid h2 m2 s2 u2 ->
  time_lt (h1, m1, s1, u1) (h2, m2, s2, u2) ->
  V (ds_of h1 m1 s1 u1) <= V (ds_of h2 m2 s2 u2).
Proof.
  intros H1 H2 Hlt. unfold ds_of.
  destruct (stn_of_spec _ _ _ _ H1) as [F1 _].
  destruct (stn_of_spec _ _ _ _ H2) as [F2 _].
  apply mul_ratio_mono; [exact F1|exact F2|]. now apply stn_mono.
Qed.

Lemma ds_spec h m s us :
  valid h m s us -> fine (ds_of h m s us) /\ V (ds_of h m s us) < 100000 * U.
Proof.
  intros Hv. pose proof U_pos as HU.
  destruct (stn_of_spec _ _ _ _ Hv) as [Fs _].
  destruct (mul_ratio _ Fs) as (Hc & _ & Lo). fold (ds_of h m s us) in *.
  pose proof ds_max_check_true as Hmax. unfold ds_max_check in Hmax.
  apply Z.ltb_lt in Hmax.
  assert (Hle : V (ds_of h m s us) <= V (ds_of 23 59 59 999999)).
  { destruct Hv as (Hh & Hm & Hs & Hus).
    assert (Hcase : time_lt (h, m, s, us) (23, 59, 59, 999999) \/
                    (h = 23 /\ m = 59 /\ s = 59 /\ us = 999999)).
    { cbn [time_lt]. lia. }
    destruct Hcase as [Hlt|(-> & -> & -> & ->)]; [|lia].
    apply ds_mono; [unfold valid; lia|exact valid_max|exact Hlt]. }
  split; [|lia]. split; [exact Hc|]. split; [exact Lo|].
  assert (100000 * U <= 2 ^ 20 * U).
  { apply Z.mul_le_mono_nonneg_r; [lia|]. apply Z.leb_le. reflexivity. }
  lia.
Qed.

Lemma standard_to_decimal_digits h m s us :
  valid h m s us ->
  standard_to_decimal [h; m; s; us] = digits_of (ds_of h m s us).
Proof.
  intros Hv. unfold standard_to_decimal.
  rewrite (standard_to_seconds_valid _ _ _ _ Hv). reflexivity.
Qed.

(** The decimal digits are those of the integral part of the rescaled
    float. *)
Lemma standard_to_decimal_valid h m s us :
  valid h m s us ->
  standard_to_decimal [h; m; s; us] =
  Ok (V (ds_of h m s us) / (10000 * U),
      (V (ds_of h m s us) mod (10000 * U)) / (100 * U),
      (V (ds_of h m s us) mod (100 * U)) / U).
Proof.
  intros Hv. rewrite (standard_to_decimal_digits _ _ _ _ Hv).
  destruct (ds_spec _ _ _ _ Hv) as [Hf Hb]. now apply digits_of_correct.
Qed.

Lemma pow2_step a b : 0 <= a -> a < b -> 2 ^ b = 2 ^ (b - a - 1) * 2 * 2 ^ a.
Proof.
  intros Ha Hab. rewrite <- (Z.pow_1_r 2) at 3.
  rewrite <- (Z.pow_add_r 2 (b - a - 1) 1), <- (Z.pow_add_r 2 (b - a - 1 + 1) a) by lia.
  f_equal. lia.
Qed.

Lemma mant_exp_lt mx my a b :
  4503599627370496 <= mx < 9007199254740992 ->
  4503599627370496 <= my < 9007199254740992 ->
  0 <= a -> a < b -> mx * 2 ^ a = my * 2 ^ b -> False.
Proof.
  intros Hx Hy Ha Hab E.
  rewrite (pow2_step a b Ha Hab) in E.
  pose proof (pow2_pos a Ha) as Pa.
  pose proof (pow2_pos (b - a - 1) ltac:(lia)) as Pc.
  rewrite !Z.mul_assoc in E. apply Z.mul_reg_r in E; [|lia].
  set (P := 2 ^ (b - a - 1)) in *. clearbody P.
  assert (my * 1 <= my * P) by (apply Z.mul_le_mono_nonneg_l; lia). lia.
Qed.

(** Two floats of the pipeline with the same value are the same float. *)
Lemma cano_inj x y : cano x -> cano y -> V x = V y -> x = y.
Proof.
  intros Hx Hy E.
  destruct x as [[|]|sx| |[|] mx ex]; try contradiction;
    destruct y as [[|]|sy| |[|] my ey]; try contradiction.
  - reflexivity.
  - pose proof (V_finite_pos _ _ Hy) as H. rewrite <- E in H.
    change (V (S754_zero false)) with 0 in H.
    change (2 ^ 52) with 4503599627370496 in H. lia.
  - pose proof (V_finite_pos _ _ Hx) as H. rewrite E in H.
    change (V (S754_zero false)) with 0 in H.
    change (2 ^ 52) with 4503599627370496 in H. lia.
  - destruct (cano_finite _ _ Hx) as [Hmx Hex].
    destruct (cano_finite _ _ Hy) as [Hmy Hey].
    change (2 ^ 52) with 4503599627370496 in Hmx, Hmy.
    change (2 ^ 53) with 9007199254740992 in Hmx, Hmy.
    cbn [V] in E.
    destruct (Z.lt_trichotomy (ex + 1074) (ey + 1074)) as [Hlt|[Heq|Hgt]].
    + exfalso. apply (mant_exp_lt (Z.pos mx) (Z.pos my) (ex + 1074) (ey + 1074) Hmx Hmy); [lia|exact Hlt|exact E].
    + assert (ex = ey) by lia. subst ey.
      apply Z.mul_reg_r in E; [|pose proof (pow2_pos (ex + 1074) ltac:(lia)); lia].
      injection E as ->. reflexivity.
    + exfalso. symmetry in E. apply (mant_exp_lt (Z.pos my) (Z.pos mx) (ey + 1074) (ex + 1074) Hmy Hmx); [lia|lia|exact E].
Qed.

(** [float(k * c)] is the float product [c * float(k)]. *)
Lemma of_int_mul c k :
  0 <= c <= 2 ^ 20 -> 0 <= k <= 2 ^ 20 -> c * k <= 2 ^ 20 ->
  F64.of_int (k * c) = Ok (F64.mul (F64.lit c) (F64.lit k)).
Proof.
  intros Hc Hk Hck.
  assert (E53 : 2 ^ 20 < 2 ^ 53) by (apply Z.pow_lt_mono_r; lia).
  assert (Hkc : 0 <= k * c <= 2 ^ 20).
  { rewrite (Z.mul_comm k c). split; [apply Z.mul_nonneg_nonneg; lia|exact Hck]. }
  rewrite of_int_correct by lia. f_equal.
  destruct (mul_lit c k Hc Hk Hck) as [(Hcm & _ & _) Vm].
  destruct (fine_lit (k * c) Hkc) as [(Hcl & _ & _) Vl].
  apply cano_inj; [exact Hcl|exact Hcm|]. rewrite Vm, Vl. ring.
Qed.

Lemma hm_of_lit h m :
  0 <= h <= 23 -> 0 <= m <= 59 -> hm_of h m = F64.lit (h * 3600 + m * 60).
Proof.
  intros Hh Hm. destruct (hm_spec h m Hh Hm) as [(Hc & _ & _) Vhm].
  destruct (fine_lit (h * 3600 + m * 60)) as [(Hcl & _ & _) Vl].
  { split; [lia|]. apply Z.le_trans with 1048576; [lia|]. apply Z.leb_le. reflexivity. }
  apply cano_inj; [exact Hc|exact Hcl|]. rewrite Vhm, Vl. reflexivity.
Qed.

Lemma pad_check_true : pad_check = true.
Proof. vm_compute. reflexivity. Qed.

Lemma pad_ok n :
  0 <= n <= 99 ->
  zfill 2 (str_int n) = two_digits n /\ zfill 3 (str_int n) = three_digits n.
Proof.
  intros Hn. pose proof pad_check_true as H. unfold pad_check in H.
  rewrite forallb_forall in H.
  assert (Hin : In n (map Z.of_nat (seq 0 100))).
  { apply in_map_iff. exists (Z.to_nat n). split; [lia|]. apply in_seq. lia. }
  specialize (H n Hin). apply andb_true_iff in H. destruct H as [H2 H3].
  split; now apply String.eqb_eq.
Qed.

(** One rounding moves a quotient below [2 ^ (53 + j)] by [2 ^ j] at most. *)
Lemma Rz_near n d j :
  0 < d -> 0 <= j -> n = 0 \/ 2 ^ 52 * d <= n -> n < 2 ^ (53 + j) * d ->
  - (d * 2 ^ j) <= d * Rz n d - n <= d * 2 ^ j.
Proof.
  intros Hd Hj [->|Hn] Hlt.
  - rewrite Rz_zero. pose proof (pow2_pos j Hj) as Hp.
    assert (0 <= d * 2 ^ j) by (apply Z.mul_nonneg_nonneg; lia). lia.
  - destruct (binade n d Hd Hn) as (Hk & B1 & B2). unfold Rz.
    set (k := Z.log2 (n / d) - 52) in *.
    pose proof (pow2_pos k Hk) as Pk. pose proof (pow2_pos j Hj) as Pj.
    assert (P52 : 0 < 2 ^ 52) by (apply pow2_pos; lia).
    assert (Hkj : 2 ^ k <= 2 ^ j).
    { destruct (Z.le_gt_cases k j) as [H|H]; [apply Z.pow_le_mono_r; lia|exfalso].
      assert (H1 : 2 ^ (j + 1) <= 2 ^ k) by (apply Z.pow_le_mono_r; lia).
      assert (E : 2 ^ (53 + j) = 2 ^ 52 * 2 ^ (j + 1)).
      { rewrite <- Z.pow_add_r by lia. f_equal. lia. }
      rewrite E in Hlt.
      set (A := 2 ^ 52) in *. set (B := 2 ^ (j + 1)) in *. set (C := 2 ^ k) in *.
      clearbody A B C.
      assert (A * B * d <= A * (d * C)).
      { replace (A * B * d) with (A * (d * B)) by ring.
        apply Z.mul_le_mono_nonneg_l; [lia|]. apply Z.mul_le_mono_nonneg_l; lia. }
      lia. }
    set (C := 2 ^ k) in *. set (J := 2 ^ j) in *. clearbody C J. clear B1 B2 Hlt.
    assert (HD : 0 < d * C) by (apply Z.mul_pos_pos; lia).
    pose proof (rnd_div_range n (d * C) HD) as Hr.
    pose proof (Z.mul_div_le n (d * C) HD) as Q1.
    pose proof (Z.mul_succ_div_gt n (d * C) HD) as Q2.
    set (q := n / (d * C)) in *. set (r := rnd_div n (d * C)) in *.
    clearbody q r.
    assert (HJ : d * C <= d * J) by (apply Z.mul_le_mono_nonneg_l; lia).
    replace (d * (r * C)) with (d * C * r) by ring.
    set (D := d * C) in *. clearbody D.
    assert (D * q <= D * r) by (apply Z.mul_le_mono_nonneg_l; lia).
    assert (D * r <= D * (q + 1)) by (apply Z.mul_le_mono_nonneg_l; lia).
    replace (D * Z.succ q) with (D * (q + 1)) in Q2 by (f_equal; lia).
    lia.
Qed.

Lemma pow_w :
  U = 9007199254740992 * 2 ^ 1021 /\ 2 ^ 1022 = 2 * 2 ^ 1021 /\
  2 ^ 1027 = 64 * 2 ^ 1021 /\ 2 ^ 1038 = 131072 * 2 ^ 1021 /\
  2 ^ 1039 = 262144 * 2 ^ 1021 /\ 0 < 2 ^ 1021.
Proof.
  unfold U. split; [reflexivity|]. split; [reflexivity|]. split; [reflexivity|].
  split; [reflexivity|]. split; [reflexivity|]. apply pow2_pos. lia.
Qed.

(** [standard_to_seconds] is within [2 ^ -35] of the exact number of
    seconds. *)
Lemma stn_near h m s us :
  valid h m s us ->
  - (1000000 * 2 ^ 1039)
  <= 1000000 * V (stn_of h m s us) - micros h m s us * U
  <= 1000000 * 2 ^ 1039.
Proof.
  intros Hv. destruct (stn_of_spec h m s us Hv) as [_ Vs].
  destruct Hv as (Hh & Hm & Hs & Hus).
  destruct pow_w as (EU & E22 & E27 & E38 & E39 & Pw).
  pose proof U_pos as HU. pose proof U_ge_52 as H52. pose proof p52_le_1000 as H1000.
  assert (P20 : 2 ^ 20 = 1048576) by reflexivity.
  destruct (frac_fine us Hus) as ((Hcf & Lf & _) & Vf & Uf).
  destruct (fine_lit s ltac:(lia)) as [(Hcs & Ls & _) Vls].
  assert (Bs : 0 <= s * U <= 59 * U).
  { split; [apply Z.mul_nonneg_nonneg; lia|apply Z.mul_le_mono_nonneg_r; lia]. }
  assert (Bsec : V (F64.lit s) + V (F64.div (F64.lit us) (F64.lit 1000000)) <= 60 * U)
    by (rewrite Vls; lia).
  destruct (add_fine _ _ 60 Hcs Hcf Ls Lf ltac:(lia) Bsec) as ((_ & Lsec & _) & Vsec & Usec).
  rewrite Vls, Vf in Vsec. rewrite Vsec in Lsec, Usec. rewrite Vf in Lf, Uf.
  pose proof (V_nonneg (F64.div (F64.lit us) (F64.lit 1000000))) as F0. rewrite Vf in F0.
  rewrite Vs. clear Vs Vsec Vf Vls Bsec Hcf Hcs Ls.
  set (F := Rz (us * U) 1000000) in *.
  set (S := Rz (s * U + F) 1) in *.
  set (hm := h * 3600 + m * 60) in *.
  assert (Bhm : 0 <= hm * U <= 86340 * U).
  { split; [apply Z.mul_nonneg_nonneg; lia|apply Z.mul_le_mono_nonneg_r; lia]. }
  assert (Bus : 0 <= us * U <= 999999 * U).
  { split; [apply Z.mul_nonneg_nonneg; lia|apply Z.mul_le_mono_nonneg_r; lia]. }
  assert (S0 : 0 <= S) by (destruct Lsec; lia).
  (* the three roundings *)
  assert (N1 : - (1000000 * 2 ^ 1021) <= 1000000 * F - us * U <= 1000000 * 2 ^ 1021).
  { apply Rz_near; [lia|lia| |].
    - destruct (Z.eq_dec us 0) as [->|Hz]; [left; reflexivity|right].
      assert (1 * U <= us * U) by (apply Z.mul_le_mono_nonneg_r; lia).
      apply Z.le_trans with (2 ^ 52 * 2 ^ 20); [rewrite P20; lia|].
      apply Z.le_trans with U; [|lia].
      unfold U. rewrite <- (Z.pow_add_r 2 52 20) by lia. apply Z.pow_le_mono_r; lia.
    - change (2 ^ (53 + 1021)) with U. lia. }
  assert (N2 : - (1 * 2 ^ 1027) <= 1 * S - (s * U + F) <= 1 * 2 ^ 1027).
  { apply Rz_near; [lia|lia| |].
    - destruct Lf as [Lf|Lf]; [|right; lia].
      destruct (Z.eq_dec s 0) as [->|Hz]; [left; lia|right].
      assert (1 * U <= s * U) by (apply Z.mul_le_mono_nonneg_r; lia). lia.
    - change (2 ^ (53 + 1027)) with (64 * U). lia. }
  assert (N3 : - (1 * 2 ^ 1038) <= 1 * Rz (hm * U + S) 1 - (hm * U + S) <= 1 * 2 ^ 1038).
  { apply Rz_near; [lia|lia| |].
    - destruct Lsec as [Lsec|Lsec]; [|right; lia].
      destruct (Z.eq_dec hm 0) as [Ez|Hz]; [left; rewrite Ez; lia|right].
      assert (1 * U <= hm * U) by (apply Z.mul_le_mono_nonneg_r; lia). lia.
    - change (2 ^ (53 + 1038)) with (131072 * U). lia. }
  unfold micros. fold hm.
  replace ((hm + s) * 1000000 + us) with (hm * 1000000 + s * 1000000 + us) by ring.
  rewrite !Z.mul_add_distr_r.
  replace (hm * 1000000 * U) with (1000000 * (hm * U)) by ring.
  replace (s * 1000000 * U) with (1000000 * (s * U)) by ring.
  rewrite E27 in N2. rewrite E38 in N3. rewrite E39.
  set (w := 2 ^ 1021) in *. clearbody w.
  set (T := Rz (hm * U + S) 1) in *. clearbody T S F.
  set (a := hm * U) in *. set (b := s * U) in *. set (c := us * U) in *.
  clearbody a b c. lia.
Qed.

(** The rescaling factor is within [2 ^ -52] of [100000 / 86400]. *)
Lemma ratio_near :
  - (86400 * 2 ^ 1022) <= 86400 * V ratio - 100000 * U <= 86400 * 2 ^ 1022.
Proof.
  assert (P20 : 2 ^ 20 = 1048576) by reflexivity.
  pose proof U_pos as HU. pose proof U_ge_52 as H52.
  assert (P52 : 0 < 2 ^ 52) by (apply pow2_pos; lia).
  destruct (fine_lit 100000 ltac:(lia)) as [Hf Hv].
  destruct (div_lit (F64.lit 100000) 86400 Hf ltac:(lia)) as [_ Hq].
  change (F64.div (F64.lit 100000) (F64.lit 86400)) with ratio in Hq.
  rewrite Hq, Hv. apply Rz_near; [lia|lia| |].
  - right. lia.
  - change (2 ^ (53 + 1022)) with (2 * U). lia.
Qed.

Lemma micros_range h m s us : valid h m s us -> 0 <= micros h m s us <= 86399999999.
Proof. unfold valid, micros. lia. Qed.

Lemma stn_le_day h m s us : valid h m s us -> V (stn_of h m s us) <= 86400 * U.
Proof.
  intros Hv. pose proof (stn_near h m s us Hv) as N. pose proof (micros_range h m s us Hv) as HK.
  destruct pow_w as (EU & E22 & E27 & E38 & E39 & Pw). pose proof U_pos as HU.
  assert (HKU : micros h m s us * U <= 86399999999 * U)
    by (apply Z.mul_le_mono_nonneg_r; lia).
  rewrite E39 in N. set (w := 2 ^ 1021) in *. clearbody w.
  set (KU := micros h m s us * U) in *. clearbody KU. lia.
Qed.

(** The product with the rescaling factor is rounded once. *)
Lemma ds_near h m s us :
  valid h m s us ->
  - (U * 2 ^ 1039)
  <= U * V (ds_of h m s us) - V (stn_of h m s us) * V ratio
  <= U * 2 ^ 1039.
Proof.
  intros Hv. destruct (stn_of_spec _ _ _ _ Hv) as [Fs _].
  destruct (mul_ratio _ Fs) as (_ & Vd & _). fold (ds_of h m s us) in Vd. rewrite Vd.
  pose proof (stn_le_day h m s us Hv) as HT.
  destruct Fs as (_ & Lo & _). destruct ratio_spec as [_ [R1 R2]].
  pose proof U_pos as HU. pose proof U_ge_52 as H52. pose proof p52_le_1000 as H1000.
  pose proof (V_nonneg (stn_of h m s us)) as T0.
  assert (P52 : 0 < 2 ^ 52) by (apply pow2_pos; lia).
  set (T := V (stn_of h m s us)) in *. set (R := V ratio) in *. clearbody T R.
  apply Rz_near; [lia|lia| |].
  - destruct Lo as [Lo|Lo]; [left; rewrite Lo; reflexivity|right].
    apply Z.mul_le_mono_nonneg; lia.
  - change (2 ^ (53 + 1039)) with (262144 * U).
    apply Z.le_lt_trans with (86400 * U * (2 * U)).
    + apply Z.mul_le_mono_nonneg; lia.
    + assert (0 < U * U) by (apply Z.mul_pos_pos; lia).
      replace (86400 * U * (2 * U)) with (172800 * (U * U)) by ring.
      replace (262144 * U * U) with (262144 * (U * U)) by ring. lia.
Qed.

Lemma mul_abs_bound a b A B :
  - A <= a <= A -> - B <= b <= B -> - (A * B) <= a * b <= A * B.
Proof.
  intros Ha Hb. apply Z.abs_le. rewrite Z.abs_mul.
  apply Z.mul_le_mono_nonneg; try apply Z.abs_nonneg; now apply Z.abs_le.
Qed.

Lemma scale_bound K T R D u w :
  0 < w -> u = 9007199254740992 * w -> 0 <= K <= 86399999999 ->
  - (1000000 * (262144 * w)) <= 1000000 * T - K * u <= 1000000 * (262144 * w) ->
  - (86400 * (2 * w)) <= 86400 * R - 100000 * u <= 86400 * (2 * w) ->
  - (u * (262144 * w)) <= u * D - T * R <= u * (262144 * w) ->
  - u < 864000 * D - K * u < u.
Proof.
  intros Hw Eu HK H1 H2 H3.
  assert (Hu : 0 < u) by lia.
  set (e1 := 1000000 * T - K * u) in *.
  set (e2 := 86400 * R - 100000 * u) in *.
  set (e3 := u * D - T * R) in *.
  assert (Id : 100000 * u * (864000 * D - K * u)
               = K * u * e2 + 100000 * u * e1 + e1 * e2 + 86400000000 * e3).
  { unfold e1, e2, e3. ring. }
  set (X := 864000 * D - K * u) in *.
  assert (HKu : - (86399999999 * u) <= K * u <= 86399999999 * u).
  { assert (0 <= K * u) by (apply Z.mul_nonneg_nonneg; lia).
    assert (K * u <= 86399999999 * u) by (apply Z.mul_le_mono_nonneg_r; lia). lia. }
  pose proof (mul_abs_bound _ _ _ _ HKu H2) as B1.
  assert (Hu' : - (100000 * u) <= 100000 * u <= 100000 * u) by lia.
  pose proof (mul_abs_bound _ _ _ _ Hu' H1) as B2.
  pose proof (mul_abs_bound _ _ _ _ H1 H2) as B3.
  assert (Hww : w * w <= u * w) by (apply Z.mul_le_mono_nonneg_r; lia).
  assert (HP : 0 < u * w) by (apply Z.mul_pos_pos; lia).
  replace (86399999999 * u * (86400 * (2 * w)))
    with (14929919999827200 * (u * w)) in B1 by ring.
  replace (100000 * u * (1000000 * (262144 * w)))
    with (26214400000000000 * (u * w)) in B2 by ring.
  replace (1000000 * (262144 * w) * (86400 * (2 * w)))
    with (45298483200000000 * (w * w)) in B3 by ring.
  replace (u * (262144 * w)) with (262144 * (u * w)) in H3 by ring.
  assert (Euu : 100000 * u * u = 900719925474099200000 * (u * w)).
  { rewrite Eu. ring. }
  clearbody e1 e2 e3 X.
  set (t1 := K * u * e2) in *. set (t2 := 100000 * u * e1) in *.
  set (t3 := e1 * e2) in *. set (P := u * w) in *. set (Q := w * w) in *.
  clearbody t1 t2 t3 P Q.
  assert (HX : - (100000 * u * u) < 100000 * u * X < 100000 * u * u) by lia.
  assert (H5 : 0 < 100000 * u) by lia.
  split.
  - apply (Z.mul_lt_mono_pos_l (100000 * u)); [exact H5|].
    replace (100000 * u * - u) with (- (100000 * u * u)) by ring. lia.
  - apply (Z.mul_lt_mono_pos_l (100000 * u)); [exact H5|]. lia.
Qed.

(** The rescaled float is within one part in 864000 of the exact decimal
    seconds. *)
Lemma count_near h m s us :
  valid h m s us ->
  - U < 864000 * V (ds_of h m s us) - micros h m s us * U < U.
Proof.
  intros Hv.
  destruct pow_w as (EU & E22 & E27 & E38 & E39 & Pw).
  pose proof (stn_near h m s us Hv) as N1. pose proof ratio_near as N2.
  pose proof (ds_near h m s us Hv) as N3.
  rewrite E39 in N1, N3. rewrite E22 in N2.
  apply (scale_bound _ (V (stn_of h m s us)) (V ratio) _ _ (2 ^ 1021));
    [exact Pw|exact EU|exact (micros_range h m s us Hv)|exact N1|exact N2|exact N3].
Qed.

(** A value within one part in 864000 of [K / 864000] has the integral part
    of [K / 864000], unless [K / 864000] is itself an integer. *)
Lemma count_of_near D K u :
  0 < u -> - u < 864000 * D - K * u < u ->
  (K mod 864000 <> 0 -> D / u = K / 864000) /\
  K / 864000 - 1 <= D / u <= K / 864000.
Proof.
  intros Hu [H1 H2].
  pose proof (Z.div_mod K 864000 ltac:(lia)) as E.
  pose proof (Z.mod_pos_bound K 864000 ltac:(lia)) as Hr.
  set (n := K / 864000) in *. set (r := K mod 864000) in *. clearbody n r.
  assert (EK : K * u = 864000 * (n * u) + r * u) by (rewrite E; ring).
  assert (Hru : 0 <= r * u <= 863999 * u).
  { split; [apply Z.mul_nonneg_nonneg; lia|apply Z.mul_le_mono_nonneg_r; lia]. }
  rewrite EK in H1, H2.
  split.
  - intros Hz. assert (Hr1 : 1 * u <= r * u) by (apply Z.mul_le_mono_nonneg_r; lia).
    symmetry. apply (Z.div_unique D u n (D - n * u)); [left|ring].
    set (nu := n * u) in *. set (ru := r * u) in *. clearbody nu ru. lia.
  - split.
    + apply Z.div_le_lower_bound; [exact Hu|].
      replace (u * (n - 1)) with (n * u - u) by ring.
      set (nu := n * u) in *. set (ru := r * u) in *. clearbody nu ru. lia.
    + assert (D / u < n + 1); [|lia].
      apply Z.div_lt_upper_bound; [exact Hu|].
      replace (u * (n + 1)) with (n * u + u) by ring.
      set (nu := n * u) in *. set (ru := r * u) in *. clearbody nu ru. lia.
Qed.

Lemma mod_scaled_div D u c : 0 < u -> 0 < c -> (D mod (c * u)) / u = (D / u) mod c.
Proof.
  intros Hu Hc. rewrite (Z.mul_comm c u), Z.rem_mul_r by lia.
  rewrite (Z.mul_comm u), Z.div_add by lia.
  rewrite Z.div_small by (apply Z.mod_pos_bound; lia). reflexivity.
Qed.

Lemma fields_of_value D u :
  0 < u ->
  (D / (10000 * u), (D mod (10000 * u)) / (100 * u), (D mod (100 * u)) / u)
  = fields_of (D / u).
Proof.
  intros Hu. unfold fields_of.
  rewrite (Z.mul_comm 10000 u) at 1. rewrite <- (Z.div_div D u 10000) by lia.
  rewrite (Z.mul_comm 100 u) at 1.
  rewrite <- (Z.div_div (D mod (10000 * u)) u 100) by lia.
  rewrite !mod_scaled_div by lia. reflexivity.
Qed.

(** The fields are those of the integral part of the rescaled float. *)
Lemma standard_to_decimal_count h m s us :
  valid h m s us ->
  standard_to_decimal [h; m; s; us] = Ok (fields_of (V (ds_of h m s us) / U)).
Proof.
  intros Hv. rewrite (standard_to_decimal_valid _ _ _ _ Hv).
  rewrite (fields_of_value _ U U_pos). reflexivity.
Qed.

Lemma exact_fields h m s us :
  Spec.toDecimalTime_exact h m s us = fields_of (micros h m s us / 864000).
Proof.
  unfold Spec.toDecimalTime_exact, fields_of, micros.
  change (86400 * 1000000) with (864000 * 100000).
  rewrite Z.div_mul_cancel_r by lia. reflexivity.
Qed.

Lemma count_bounds h m s us :
  valid h m s us ->
  (micros h m s us mod 864000 <> 0 ->
   V (ds_of h m s us) / U = micros h m s us / 864000) /\
  micros h m s us / 864000 - 1 <= V (ds_of h m s us) / U <= micros h m s us / 864000.
Proof.
  intros Hv. apply count_of_near; [exact U_pos|exact (count_near h m s us Hv)].
Qed.

Lemma decimal_exact h m s us :
  valid h m s us -> micros h m s us mod 864000 <> 0 ->
  standard_to_decimal [h; m; s; us] = Ok (Spec.toDecimalTime_exact h m s us).
Proof.
  intros Hv Hz. rewrite (standard_to_decimal_count _ _ _ _ Hv), exact_fields.
  destruct (count_bounds h m s us Hv) as [E _]. rewrite (E Hz). reflexivity.
Qed.

(** ** Whole seconds *)

Lemma stn_whole h m s :
  valid h m s 0 -> stn_of h m s 0 = F64.lit (h * 3600 + m * 60 + s).
Proof.
  intros Hv. destruct (stn_of_spec h m s 0 Hv) as [(Hc & _ & _) Vs].
  destruct Hv as (Hh & Hm & Hs & _).
  assert (P20 : 2 ^ 20 = 1048576) by reflexivity.
  assert (P53 : 2 ^ 53 = 9007199254740992) by reflexivity.
  destruct (fine_lit (h * 3600 + m * 60 + s) ltac:(lia)) as [(Hcl & _ & _) Vl].
  apply cano_inj; [exact Hc|exact Hcl|]. rewrite Vs, Vl.
  rewrite Z.mul_0_l, Rz_zero, Z.add_0_r, (Rz_int s) by lia.
  rewrite <- Z.mul_add_distr_r. apply Rz_int. lia.
Qed.

Lemma whole_check_true : whole_check = true.
Proof. vm_compute. reflexivity. Qed.

Lemma whole_exact h m s :
  valid h m s 0 ->
  V (ds_of h m s 0) / U = micros h m s 0 / 864000.
Proof.
  intros Hv. destruct (count_bounds h m s 0 Hv) as [E _].
  destruct (Z.eq_dec (micros h m s 0 mod 864000) 0) as [Hz|Hz]; [|exact (E Hz)].
  destruct (ds_spec h m s 0 Hv) as [(Hc & _ & _) _].
  pose proof (floor_correct _ Hc) as Hfl.
  unfold ds_of in Hfl at 1. rewrite (stn_whole h m s Hv) in Hfl.
  destruct Hv as (Hh & Hm & Hs & _).
  unfold micros in *. rewrite Z.add_0_r in *.
  set (N := h * 3600 + m * 60 + s) in *.
  assert (HN : 0 <= N <= 86399) by (unfold N; lia).
  assert (E108 : N = 108 * (N / 108) /\ N * 1000000 / 864000 = 125 * (N / 108)).
  { clearbody N. Z.to_euclidean_division_equations. lia. }
  destruct E108 as [E1 E2]. rewrite E2.
  pose proof whole_check_true as Hw. unfold whole_check in Hw.
  rewrite forallb_forall in Hw.
  assert (Hin : In (N / 108) (map Z.of_nat (seq 0 800))).
  { apply in_map_iff. exists (Z.to_nat (N / 108)).
    assert (0 <= N / 108 < 800) by (clearbody N; Z.to_euclidean_division_equations; lia).
    split; [lia|]. apply in_seq. lia. }
  specialize (Hw _ Hin). cbv beta in Hw. rewrite <- E1, Hfl in Hw.
  apply Z.eqb_eq in Hw. exact Hw.
Qed.

Lemma stn_floor h m s us :
  valid h m s us -> V (stn_of h m s us) / U = h * 3600 + m * 60 + s.
Proof.
  intros Hv. pose proof (stn_near h m s us Hv) as N.
  destruct pow_w as (EU & E22 & E27 & E38 & E39 & Pw). pose proof U_pos as HU.
  set (n := h * 3600 + m * 60 + s).
  symmetry. apply (Z.div_unique _ U n (V (stn_of h m s us) - n * U)); [left|ring].
  destruct (Z.eq_dec us 0) as [->|Hz].
  - rewrite (stn_whole h m s Hv). fold n.
    destruct Hv as (Hh & Hm & Hs & _).
    assert (P20 : 2 ^ 20 = 1048576) by reflexivity.
    destruct (fine_lit n ltac:(unfold n; lia)) as [_ Vl]. rewrite Vl. lia.
  - destruct Hv as (Hh & Hm & Hs & Hus).
    unfold micros in N. fold n in N.
    rewrite Z.mul_add_distr_r in N.
    assert (Bus : 1 * U <= us * U <= 999999 * U).
    { split; apply Z.mul_le_mono_nonneg_r; lia. }
    replace (n * 1000000 * U) with (1000000 * (n * U)) in N by ring.
    rewrite E39 in N. set (w := 2 ^ 1021) in *. clearbody w.
    set (nU := n * U) in *. set (uU := us * U) in *. clearbody nU uU.
    set (T := V (stn_of h m s us)) in *. clearbody T. lia.
Qed.

Lemma micros_inj h1 m1 s1 u1 h2 m2 s2 u2 :
  valid h1 m1 s1 u1 -> valid h2 m2 s2 u2 ->
  micros h1 m1 s1 u1 = micros h2 m2 s2 u2 ->
  h1 = h2 /\ m1 = m2 /\ s1 = s2 /\ u1 = u2.
Proof. unfold valid, micros. lia. Qed.

Lemma stn_inj h1 m1 s1 u1 h2 m2 s2 u2 :
  valid h1 m1 s1 u1 -> valid h2 m2 s2 u2 ->
  stn_of h1 m1 s1 u1 = stn_of h2 m2 s2 u2 ->
  micros h1 m1 s1 u1 = micros h2 m2 s2 u2.
Proof.
  intros H1 H2 E. pose proof (stn_near _ _ _ _ H1) as N1.
  pose proof (stn_near _ _ _ _ H2) as N2. rewrite E in N1.
  destruct pow_w as (EU & E22 & E27 & E38 & E39 & Pw). pose proof U_pos as HU.
  set (K1 := micros h1 m1 s1 u1) in *. set (K2 := micros h2 m2 s2 u2) in *.
  clearbody K1 K2. rewrite E39 in N1, N2.
  destruct (Z.lt_trichotomy K1 K2) as [Hlt|[Heq|Hgt]]; [exfalso|exact Heq|exfalso].
  - assert ((K1 + 1) * U <= K2 * U) by (apply Z.mul_le_mono_nonneg_r; lia).
    rewrite Z.mul_add_distr_r in H.
    set (w := 2 ^ 1021) in *. clearbody w.
    set (a := K1 * U) in *. set (b := K2 * U) in *. clearbody a b. lia.
  - assert ((K2 + 1) * U <= K1 * U) by (apply Z.mul_le_mono_nonneg_r; lia).
    rewrite Z.mul_add_distr_r in H.
    set (w := 2 ^ 1021) in *. clearbody w.
    set (a := K1 * U) in *. set (b := K2 * U) in *. clearbody a b. lia.
Qed.

(** ** Ticks and the display loop *)

Lemma do_tick_eq (c : Clock) (now : datetime) : do_tick c now = mkClock (tick now).
Proof.
  unfold do_tick, update, tuple_ne.
  destruct (list_eq_dec Z.eq_dec (tick now) (current_time c)) as [E|N]; [|reflexivity].
  destruct c as [ct]. cbn [current_time] in E. now rewrite E.
Qed.

Lemma Clock_str_valid h m s us :
  valid h m s us ->
  Clock_str (mkClock [h; m; s; us])
  = (two_digits h ++ ":" ++ two_digits m ++ ":" ++ two_digits s)%string.
Proof.
  intros (Hh & Hm & Hs & Hus).
  unfold Clock_str. cbn [current_time slice_to firstn map join].
  destruct (pad_ok h ltac:(lia)) as [-> _].
  destruct (pad_ok m ltac:(lia)) as [-> _].
  destruct (pad_ok s ltac:(lia)) as [-> _]. reflexivity.
Qed.

Lemma DecimalClock_str_fields dt dh dm ds :
  standard_to_decimal dt = Ok (dh, dm, ds) ->
  0 <= dh <= 9 -> 0 <= dm <= 99 -> 0 <= ds <= 99 ->
  DecimalClock_str (mkClock dt)
  = Ok (two_digits dh ++ ":" ++ two_digits dm ++ ":" ++ three_digits ds)%string.
Proof.
  intros E Hdh Hdm Hds. unfold DecimalClock_str. cbn [current_time].
  rewrite E. cbn [bind map join].
  destruct (pad_ok dh ltac:(lia)) as [-> _].
  destruct (pad_ok dm ltac:(lia)) as [-> _].
  destruct (pad_ok ds ltac:(lia)) as [_ ->]. reflexivity.
Qed.

Lemma fields_of_digits dh dm ds :
  0 <= dh -> 0 <= dm <= 99 -> 0 <= ds <= 99 ->
  fields_of (dh * 10000 + dm * 100 + ds) = (dh, dm, ds).
Proof.
  intros Hdh Hdm Hds. unfold fields_of.
  assert (E1 : (dh * 10000 + dm * 100 + ds) / 10000 = dh).
  { symmetry. apply (Z.div_unique _ 10000 dh (dm * 100 + ds)); [left; lia|ring]. }
  assert (E2 : (dh * 10000 + dm * 100 + ds) mod 10000 = dm * 100 + ds).
  { symmetry. apply (Z.mod_unique _ 10000 dh (dm * 100 + ds)); [left; lia|ring]. }
  assert (E3 : (dm * 100 + ds) / 100 = dm).
  { symmetry. apply (Z.div_unique _ 100 dm ds); [left; lia|ring]. }
  assert (E4 : (dh * 10000 + dm * 100 + ds) mod 100 = ds).
  { symmetry. apply (Z.mod_unique _ 100 (dh * 100 + dm) ds); [left; lia|ring]. }
  rewrite E1, E2, E3, E4. reflexivity.
Qed.

Lemma fields_of_sum n :
  let '(dh, dm, ds) := fields_of n in dh * 10000 + dm * 100 + ds = n.
Proof.
  unfold fields_of.
  pose proof (Z.div_mod n 10000 ltac:(lia)) as E1.
  pose proof (Z.div_mod (n mod 10000) 100 ltac:(lia)) as E2.
  assert (E3 : (n mod 10000) mod 100 = n mod 100).
  { apply Z.mod_mod_divide. exists 100. reflexivity. }
  rewrite E3 in E2. lia.
Qed.

Lemma time_of_micros_valid K :
  0 <= K <= 86399999999 ->
  let '(h, m, s, us) := time_of_micros K in
  valid h m s us /\ micros h m s us = K.
Proof.
  intros HK. unfold time_of_micros, valid, micros.
  Z.to_euclidean_division_equations. lia.
Qed.

Lemma time_lt_micros h1 m1 s1 u1 h2 m2 s2 u2 :
  valid h1 m1 s1 u1 -> valid h2 m2 s2 u2 ->
  micros h1 m1 s1 u1 < micros h2 m2 s2 u2 ->
  time_lt (h1, m1, s1, u1) (h2, m2, s2, u2).
Proof. unfold valid, micros. cbn [time_lt]. lia. Qed.

Lemma raise_of_int_overflow (n : Z) (e : exn) :
  F64.of_int n = Raise e -> e = OverflowError.
Proof.
  unfold F64.of_int.
  destruct (binary_normalize F64.prec F64.emax n 0 false); intros H;
    first [discriminate H | now injection H as <-].
Qed.

(** ** The digits of the display *)

Lemma digit_inj a b : 0 <= a <= 9 -> 0 <= b <= 9 -> digit a = digit b -> a = b.
Proof.
  intros Ha Hb E. unfold digit in E. apply (f_equal nat_of_ascii) in E.
  rewrite (nat_ascii_embedding (48 + Z.to_nat a)) in E by (clear E; lia).
  rewrite (nat_ascii_embedding (48 + Z.to_nat b)) in E by (clear E; lia).
  lia.
Qed.

Lemma two_digits_inj n n' :
  0 <= n <= 99 -> 0 <= n' <= 99 -> two_digits n = two_digits n' -> n = n'.
Proof.
  intros Hn Hn' E. unfold two_digits in E. injection E as E1 E2.
  apply digit_inj in E1; [|Z.to_euclidean_division_equations; lia..].
  apply digit_inj in E2; [|Z.to_euclidean_division_equations; lia..].
  Z.to_euclidean_division_equations. lia.
Qed.

Lemma three_digits_inj n n' :
  0 <= n <= 99 -> 0 <= n' <= 99 -> three_digits n = three_digits n' -> n = n'.
Proof.
  intros Hn Hn' E. unfold three_digits in E. rewrite !Z.mod_small in E by lia.
  apply (f_equal (fun s => match s with String _ r => r | EmptyString => EmptyString end))
    in E.
  cbv beta iota in E. now apply two_digits_inj.
Qed.

Lemma Ok_inj {A : Type} (a b : A) : Ok a = Ok b -> a = b.
Proof. intros H. now injection H. Qed.

Lemma decimal_text_inj a1 b1 c1 a2 b2 c2 :
  0 <= a1 <= 9 -> 0 <= b1 <= 99 -> 0 <= c1 <= 99 ->
  0 <= a2 <= 9 -> 0 <= b2 <= 99 -> 0 <= c2 <= 99 ->
  (two_digits a1 ++ ":" ++ two_digits b1 ++ ":" ++ three_digits c1)%string
  = (two_digits a2 ++ ":" ++ two_digits b2 ++ ":" ++ three_digits c2)%string ->
  a1 = a2 /\ b1 = b2 /\ c1 = c2.
Proof.
  intros Ha1 Hb1 Hc1 Ha2 Hb2 Hc2 E.
  unfold three_digits, two_digits in E. cbn [append] in E.
  injection E as A1 A2 B1 B2 C0 C1 C2.
  split; [|split].
  - apply two_digits_inj; try lia. unfold two_digits. congruence.
  - apply two_digits_inj; try lia. unfold two_digits. congruence.
  - apply three_digits_inj; try lia. unfold three_digits, two_digits. congruence.
Qed.

(** ** No line feed in the line *)

Lemma list_ascii_app (a b : string) :
  list_ascii_of_string (a ++ b) = (list_ascii_of_string a ++ list_ascii_of_string b)%list.
Proof. induction a as [|c a IH]; cbn; [reflexivity|now rewrite IH]. Qed.

Lemma digit_not_lf d : 0 <= d <= 9 -> digit d <> lf.
Proof.
  intros Hd E. unfold digit, lf in E. apply (f_equal nat_of_ascii) in E.
  rewrite (nat_ascii_embedding (48 + Z.to_nat d)) in E by (clear E; lia).
  rewrite (nat_ascii_embedding 10) in E by (clear E; lia).
  lia.
Qed.

Lemma two_digits_no_lf n :
  0 <= n <= 99 -> ~ In lf (list_ascii_of_string (two_digits n)).
Proof.
  intros Hn [H|[H|[]]].
  - apply (digit_not_lf (n / 10)); [Z.to_euclidean_division_equations; lia|exact H].
  - apply (digit_not_lf (n mod 10)); [Z.to_euclidean_division_equations; lia|exact H].
Qed.

Lemma three_digits_no_lf n :
  0 <= n <= 99 -> ~ In lf (list_ascii_of_string (three_digits n)).
Proof.
  intros Hn [H|H].
  - apply (digit_not_lf (n / 100)); [Z.to_euclidean_division_equations; lia|exact H].
  - apply (two_digits_no_lf (n mod 100)); [Z.to_euclidean_division_equations; lia|exact H].
Qed.

Lemma literal_no_lf (s : string) :
  forallb (fun c => negb (Ascii.eqb c lf)) (list_ascii_of_string s) = true ->
  ~ In lf (list_ascii_of_string s).
Proof.
  intros H Hin. rewrite forallb_forall in H. specialize (H lf Hin).
  rewrite Ascii.eqb_refl in H. discriminate H.
Qed.

(** ** Objects in the store *)



Lemma append_empty_r (s : string) : s ++ EmptyString = s.
Proof. induction s as [|c s IH]; [reflexivity|]. cbn. now rewrite IH. Qed.

(** The fields of a valid time are within the decimal ranges. *)
Lemma standard_to_decimal_range (h m s us : Z) :
  valid h m s us ->
  exists dh dm ds,
    standard_to_decimal [h; m; s; us] = Ok (dh, dm, ds) /\
    0 <= dh <= 9 /\ 0 <= dm <= 99 /\ 0 <= ds <= 99.
Proof.
  intros Hv. pose proof U_pos as HU.
  destruct (ds_spec _ _ _ _ Hv) as [Hf Hb].
  pose proof (V_nonneg (ds_of h m s us)) as H0.
  set (D := V (ds_of h m s us)) in *.
  exists (D / (10000 * U)), ((D mod (10000 * U)) / (100 * U)), ((D mod (100 * U)) / U).
  split; [exact (standard_to_decimal_valid _ _ _ _ Hv)|].
  pose proof (Z.mod_pos_bound D (10000 * U) ltac:(lia)) as M1.
  pose proof (Z.mod_pos_bound D (100 * U) ltac:(lia)) as M2.
  split; [split|split; split].
  - apply Z.div_pos; lia.
  - assert (D / (10000 * U) < 10); [|lia].
    apply Z.div_lt_upper_bound; lia.
  - apply Z.div_pos; lia.
  - assert (D mod (10000 * U) / (100 * U) < 100); [|lia].
    apply Z.div_lt_upper_bound; lia.
  - apply Z.div_pos; lia.
  - assert (D mod (100 * U) / U < 100); [|lia].
    apply Z.div_lt_upper_bound; lia.
Qed.

(** * The claims *)

(** C1 (a defect of the code): 00:01:40.224000 is exactly 116 decimal
    seconds after midnight (100224000 microseconds, at 864000 per decimal
    second).  The reference algorithm of the specification returns
    (0, 1, 16) there, evaluated in binary64 as it is written and evaluated
    in exact arithmetic alike; the code returns (0, 1, 15).  The floats of
    seconds since midnight already differ: [standard_to_seconds] adds
    [hours + minutes] and [second + microsecond/1000000] and rounds twice. *)
Theorem C1_double_rounding :
  micros 0 1 40 224000 = 864000 * 116 /\
  standard_to_decimal [0; 1; 40; 224000] = Ok (0, 1, 15) /\
  Spec.toDecimalTime 0 1 40 224000 = Ok (0, 1, 16) /\
  Spec.toDecimalTime_exact 0 1 40 224000 = (0, 1, 16) /\
  standard_to_seconds [0; 1; 40; 224000] <> Spec.toDecimalSeconds 0 1 40 224000 /\
  standard_to_decimal [0; 1; 40; 224000] <> Spec.toDecimalTime 0 1 40 224000.
Proof.
  assert (E1 : standard_to_decimal [0; 1; 40; 224000] = Ok (0, 1, 15))
    by (vm_compute; reflexivity).
  assert (E2 : Spec.toDecimalTime 0 1 40 224000 = Ok (0, 1, 16))
    by (vm_compute; reflexivity).
  split; [reflexivity|]. split; [exact E1|]. split; [exact E2|].
  split; [vm_compute; reflexivity|].
  split; [vm_compute; discriminate|].
  rewrite E1, E2. discriminate.
Qed.

(** C2: for every valid time the conversion returns a triple with
    decimal hour in 0-9, decimal minute in 0-99 and decimal second in 0-99. *)
Theorem C2_decimal_range (h m s us : Z) :
  valid h m s us ->
  exists dh dm ds,
    standard_to_decimal [h; m; s; us] = Ok (dh, dm, ds) /\
    0 <= dh <= 9 /\ 0 <= dm <= 99 /\ 0 <= ds <= 99.
Proof. exact (standard_to_decimal_range h m s us). Qed.

Lemma C2_decimal_range_witness :
  valid 6 0 0 0 /\
  exists dh dm ds,
    standard_to_decimal [6; 0; 0; 0] = Ok (dh, dm, ds) /\
    0 <= dh <= 9 /\ 0 <= dm <= 99 /\ 0 <= ds <= 99.
Proof.
  assert (Hv : valid 6 0 0 0) by (unfold valid; lia).
  split; [exact Hv|]. apply (C2_decimal_range 6 0 0 0 Hv).
Defined.

(** C3: at 23:59:59.999999 the conversion returns (9, 99, 99); the total
    decimal seconds has integral part 99999, below 100000, so there is no
    roll-over to (10, 0, 0). *)
Theorem C3_last_microsecond :
  standard_to_decimal [23; 59; 59; 999999] = Ok (9, 99, 99) /\
  (stn_secs <- standard_to_seconds [23; 59; 59; 999999] ;;
   F64.floor (F64.mul stn_secs
     (F64.div (DecimalDay.value SECONDS) (StandardDay.value SECONDS))))
  = Ok 99999.
Proof. split; vm_compute; reflexivity. Qed.

(** C4: at midday, 12:00:00.000000, the conversion returns (5, 0, 0). *)
Theorem C4_midday : standard_to_decimal [12; 0; 0; 0] = Ok (5, 0, 0).
Proof. vm_compute. reflexivity. Qed.

(** C5: the conversion is monotone: for valid times [t1 < t2] in
    lexicographic order, the decimal time of [t1] is below or equal to the
    one of [t2] in lexicographic order. *)
Theorem C5_monotone (h1 m1 s1 u1 h2 m2 s2 u2 : Z) :
  valid h1 m1 s1 u1 -> valid h2 m2 s2 u2 ->
  time_lt (h1, m1, s1, u1) (h2, m2, s2, u2) ->
  exists d1 d2,
    standard_to_decimal [h1; m1; s1; u1] = Ok d1 /\
    standard_to_decimal [h2; m2; s2; u2] = Ok d2 /\
    dec_le d1 d2.
Proof.
  intros Hv1 Hv2 Hlt. pose proof U_pos as HU.
  pose proof (ds_mono _ _ _ _ _ _ _ _ Hv1 Hv2 Hlt) as Hle.
  pose proof (V_nonneg (ds_of h1 m1 s1 u1)) as H1.
  set (D1 := V (ds_of h1 m1 s1 u1)) in *.
  set (D2 := V (ds_of h2 m2 s2 u2)) in *.
  eexists. eexists.
  split; [exact (standard_to_decimal_valid _ _ _ _ Hv1)|].
  split; [exact (standard_to_decimal_valid _ _ _ _ Hv2)|].
  fold D1 D2. cbn [dec_le].
  assert (HA : D1 / (10000 * U) <= D2 / (10000 * U)) by (apply Z.div_le_mono; lia).
  destruct (Z.eq_dec (D1 / (10000 * U)) (D2 / (10000 * U))) as [EA|NA]; [right|left; lia].
  split; [exact EA|].
  assert (HM : D1 mod (10000 * U) <= D2 mod (10000 * U)).
  { rewrite !Z.mod_eq by lia. rewrite EA. lia. }
  assert (HB : D1 mod (10000 * U) / (100 * U) <= D2 mod (10000 * U) / (100 * U))
    by (apply Z.div_le_mono; lia).
  destruct (Z.eq_dec (D1 mod (10000 * U) / (100 * U)) (D2 mod (10000 * U) / (100 * U)))
    as [EB|NB]; [right|left; lia].
  split; [exact EB|].
  assert (HD : (100 * U | 10000 * U)) by (exists 100; ring).
  rewrite <- (Z.mod_mod_divide D1 (10000 * U) (100 * U) HD).
  rewrite <- (Z.mod_mod_divide D2 (10000 * U) (100 * U) HD).
  apply Z.div_le_mono; [lia|].
  rewrite (Z.mod_eq (D1 mod (10000 * U))), (Z.mod_eq (D2 mod (10000 * U))) by lia.
  rewrite EB. lia.
Qed.

Lemma C5_monotone_witness :
  valid 1 2 3 4 /\ valid 1 2 3 5 /\ time_lt (1, 2, 3, 4) (1, 2, 3, 5) /\
  exists d1 d2,
    standard_to_decimal [1; 2; 3; 4] = Ok d1 /\
    standard_to_decimal [1; 2; 3; 5] = Ok d2 /\
    dec_le d1 d2.
Proof.
  assert (Hv1 : valid 1 2 3 4) by (unfold valid; lia).
  assert (Hv2 : valid 1 2 3 5) by (unfold valid; lia).
  assert (Hlt : time_lt (1, 2, 3, 4) (1, 2, 3, 5)) by (cbn [time_lt]; lia).
  split; [exact Hv1|]. split; [exact Hv2|]. split; [exact Hlt|].
  apply (C5_monotone 1 2 3 4 1 2 3 5 Hv1 Hv2 Hlt).
Defined.



(** C7: for a valid time stored in the clock, [Clock.__str__] is the 8
    characters "HH:MM:SS" (two decimal digits per field), and
    [DecimalClock.__str__] is the 9 characters "HH:MM:SSS" (two digits, two
    digits, three digits) of a decimal time within its ranges. *)
Theorem C7_format_shape (h m s us : Z) :
  valid h m s us ->
  let c := mkClock [h; m; s; us] in
  Clock_str c = two_digits h ++ ":" ++ two_digits m ++ ":" ++ two_digits s /\
  String.length (Clock_str c) = 8%nat /\
  exists dh dm ds str,
    standard_to_decimal [h; m; s; us] = Ok (dh, dm, ds) /\
    DecimalClock_str c = Ok str /\
    str = two_digits dh ++ ":" ++ two_digits dm ++ ":" ++ three_digits ds /\
    String.length str = 9%nat.
Proof.
  intros Hv c.
  destruct (standard_to_decimal_range h m s us Hv) as (dh & dm & ds & E & Hdh & Hdm & Hds).
  destruct Hv as (Hh & Hm & Hs & Hus).
  assert (Es : Clock_str c = two_digits h ++ ":" ++ two_digits m ++ ":" ++ two_digits s).
  { unfold Clock_str, c. cbn [current_time slice_to firstn map join].
    destruct (pad_ok h ltac:(lia)) as [-> _].
    destruct (pad_ok m ltac:(lia)) as [-> _].
    destruct (pad_ok s ltac:(lia)) as [-> _]. reflexivity. }
  split; [exact Es|]. split; [rewrite Es; reflexivity|].
  exists dh, dm, ds. eexists. split; [exact E|].
  unfold DecimalClock_str, c. cbn [current_time]. rewrite E. cbn [bind map join].
  destruct (pad_ok dh ltac:(lia)) as [-> _].
  destruct (pad_ok dm ltac:(lia)) as [-> _].
  destruct (pad_ok ds ltac:(lia)) as [_ ->].
  split; [reflexivity|]. split; reflexivity.
Qed.

Lemma C7_format_shape_witness :
  valid 9 5 7 0 /\
  let c := mkClock [9; 5; 7; 0] in
  Clock_str c = two_digits 9 ++ ":" ++ two_digits 5 ++ ":" ++ two_digits 7 /\
  String.length (Clock_str c) = 8%nat /\
  exists dh dm ds str,
    standard_to_decimal [9; 5; 7; 0] = Ok (dh, dm, ds) /\
    DecimalClock_str c = Ok str /\
    str = two_digits dh ++ ":" ++ two_digits dm ++ ":" ++ three_digits ds /\
    String.length str = 9%nat.
Proof.
  assert (Hv : valid 9 5 7 0) by (unfold valid; lia).
  split; [exact Hv|]. apply (C7_format_shape 9 5 7 0 Hv).
Defined.

(** C8: on every cycle of the loop, whatever the clocks held before (the
    first cycle, on freshly constructed clocks, included), the text written
    is a carriage return, then "STANDARD: ", the formatted standard time,
    four spaces, "DECIMAL: ", the formatted decimal time and one trailing
    space; nothing follows it and it holds no line feed.  The formatted
    times are those of the clocks after their tick, 8 and 9 characters. *)
Theorem C8_rendered_line (standard_clock decimal_clock : Clock) (now_s now_d : datetime) :
  valid_now now_s -> valid_now now_d ->
  exists std dec line,
    Clock_str (do_tick standard_clock now_s) = std /\
    DecimalClock_str (do_tick decimal_clock now_d) = Ok dec /\
    String.length std = 8%nat /\ String.length dec = 9%nat /\
    snd (cycle standard_clock decimal_clock now_s now_d) = Ok line /\
    line = cr ++ "STANDARD: " ++ std ++ "    " ++ "DECIMAL: " ++ dec ++ " " /\
    ~ In lf (list_ascii_of_string line).
Proof.
  intros Hs Hd. unfold valid_now in Hs, Hd.
  destruct (standard_to_decimal_range _ _ _ _ Hd) as (dh & dm & ds & E & Hdh & Hdm & Hds).
  assert (Es : Clock_str (do_tick standard_clock now_s)
               = two_digits (dt_hour now_s) ++ ":" ++ two_digits (dt_minute now_s)
                 ++ ":" ++ two_digits (dt_second now_s)).
  { rewrite do_tick_eq. exact (Clock_str_valid _ _ _ _ Hs). }
  assert (Ed : DecimalClock_str (do_tick decimal_clock now_d)
               = Ok (two_digits dh ++ ":" ++ two_digits dm ++ ":" ++ three_digits ds)).
  { rewrite do_tick_eq. exact (DecimalClock_str_fields _ _ _ _ E Hdh Hdm Hds). }
  eexists. eexists. eexists.
  split; [exact Es|]. split; [exact Ed|].
  split; [reflexivity|]. split; [reflexivity|].
  split.
  { unfold cycle, render, print. cbn [snd]. rewrite Es, Ed. cbn [bind].
    rewrite append_empty_r. reflexivity. }
  split; [reflexivity|].
  destruct Hs as (Hh & Hm & Hsec & _).
  rewrite !list_ascii_app, !in_app_iff.
  intros H.
  repeat match goal with Hor : _ \/ _ |- _ => destruct Hor as [Hor|Hor] end;
    revert H;
    lazymatch goal with
    | |- In _ (list_ascii_of_string (two_digits _)) -> _ =>
        apply two_digits_no_lf; lia
    | |- In _ (list_ascii_of_string (three_digits _)) -> _ =>
        apply three_digits_no_lf; lia
    | |- _ => apply literal_no_lf; reflexivity
    end.
Qed.

Lemma C8_rendered_line_witness :
  valid_now (mkDatetime 23 59 59 999999) /\ valid_now (mkDatetime 0 0 0 0) /\
  exists std dec line,
    Clock_str (do_tick Clock_new (mkDatetime 23 59 59 999999)) = std /\
    DecimalClock_str (do_tick Clock_new (mkDatetime 0 0 0 0)) = Ok dec /\
    String.length std = 8%nat /\ String.length dec = 9%nat /\
    snd (cycle Clock_new Clock_new (mkDatetime 23 59 59 999999) (mkDatetime 0 0 0 0))
    = Ok line /\
    line = cr ++ "STANDARD: " ++ std ++ "    " ++ "DECIMAL: " ++ dec ++ " " /\
    ~ In lf (list_ascii_of_string line).
Proof.
  assert (H1 : valid_now (mkDatetime 23 59 59 999999))
    by (unfold valid_now, valid; simpl; lia).
  assert (H2 : valid_now (mkDatetime 0 0 0 0)) by (unfold valid_now, valid; simpl; lia).
  split; [exact H1|]. split; [exact H2|].
  apply (C8_rendered_line Clock_new Clock_new _ _ H1 H2).
Defined.

(** C9: after [update(ct)] the stored time is [ct], whether or not [ct]
    differed from the time stored before. *)
Theorem C9_update_stores (self : Clock) (ct : tuple) :
  current_time (update self ct) = ct.
Proof.
  unfold update, tuple_ne.
  destruct (list_eq_dec Z.eq_dec ct (current_time self)) as [E|N].
  - symmetry. exact E.
  - reflexivity.
Qed.

(** C10: a freshly constructed clock holds the empty tuple;
    [Clock.__str__] returns the empty string on it, and
    [DecimalClock.__str__] fails with an out-of-range index, raised by
    [standard_to_seconds]. *)
Theorem C10_fresh_clock :
  current_time Clock_new = [] /\
  Clock_str Clock_new = EmptyString /\
  standard_to_seconds (current_time Clock_new) = Raise IndexError /\
  DecimalClock_str Clock_new = Raise IndexError.
Proof.
  split; [reflexivity|]. split; [reflexivity|]. split; reflexivity.
Qed.

(** * Further properties of the conversion, the clock and the display loop *)

(** X1: for every valid time that is not a whole number of decimal seconds
    after midnight (its count of microseconds is no multiple of 864000),
    [standard_to_decimal] returns the decimal time of exact arithmetic: the
    floating-point roundings change no field. *)
Theorem decimal_exact_off_boundary (h m s us : Z) :
  valid h m s us -> micros h m s us mod 864000 <> 0 ->
  standard_to_decimal [h; m; s; us] = Ok (Spec.toDecimalTime_exact h m s us).
Proof. exact (decimal_exact h m s us). Qed.

Lemma decimal_exact_off_boundary_witness :
  valid 12 30 15 500000 /\ micros 12 30 15 500000 mod 864000 <> 0 /\
  standard_to_decimal [12; 30; 15; 500000]
  = Ok (Spec.toDecimalTime_exact 12 30 15 500000).
Proof.
  assert (Hv : valid 12 30 15 500000) by (unfold valid; lia).
  assert (Hz : micros 12 30 15 500000 mod 864000 <> 0)
    by (vm_compute; discriminate).
  split; [exact Hv|]. split; [exact Hz|].
  apply (decimal_exact_off_boundary 12 30 15 500000 Hv Hz).
Defined.

(** X2: for every valid time the decimal time of [standard_to_decimal] is
    the one of exact arithmetic or the decimal second before it, never a
    later one: with [e] the exact count of decimal seconds since midnight,
    the fields returned are those of a count [n] with [e - 1 <= n <= e]. *)
Theorem decimal_within_one_second (h m s us : Z) :
  valid h m s us ->
  exists n,
    standard_to_decimal [h; m; s; us] = Ok (fields_of n) /\
    Spec.toDecimalTime_exact h m s us = fields_of (micros h m s us / 864000) /\
    micros h m s us / 864000 - 1 <= n <= micros h m s us / 864000.
Proof.
  intros Hv. exists (V (ds_of h m s us) / U).
  split; [exact (standard_to_decimal_count h m s us Hv)|].
  split; [exact (exact_fields h m s us)|].
  exact (proj2 (count_bounds h m s us Hv)).
Qed.

Lemma decimal_within_one_second_witness :
  valid 0 1 40 224000 /\
  exists n,
    standard_to_decimal [0; 1; 40; 224000] = Ok (fields_of n) /\
    Spec.toDecimalTime_exact 0 1 40 224000
    = fields_of (micros 0 1 40 224000 / 864000) /\
    micros 0 1 40 224000 / 864000 - 1 <= n <= micros 0 1 40 224000 / 864000.
Proof.
  assert (Hv : valid 0 1 40 224000) by (unfold valid; lia).
  split; [exact Hv|]. apply (decimal_within_one_second 0 1 40 224000 Hv).
Defined.

(** X3: on every valid time with no microseconds, [standard_to_decimal]
    returns the decimal time of exact arithmetic. *)
Theorem decimal_exact_whole_seconds (h m s : Z) :
  valid h m s 0 ->
  standard_to_decimal [h; m; s; 0] = Ok (Spec.toDecimalTime_exact h m s 0).
Proof.
  intros Hv. rewrite (standard_to_decimal_count _ _ _ _ Hv), exact_fields.
  rewrite (whole_exact h m s Hv). reflexivity.
Qed.

Lemma decimal_exact_whole_seconds_witness :
  valid 18 0 0 0 /\
  standard_to_decimal [18; 0; 0; 0] = Ok (Spec.toDecimalTime_exact 18 0 0 0).
Proof.
  assert (Hv : valid 18 0 0 0) by (unfold valid; lia).
  split; [exact Hv|]. apply (decimal_exact_whole_seconds 18 0 0 Hv).
Defined.

(** X4: on every valid time [standard_to_seconds] returns a float whose
    integral part is the whole number of seconds since midnight,
    [hour*3600 + minute*60 + second]: the roundings never reach the next
    second and never fall below the current one. *)
Theorem seconds_integral_part (h m s us : Z) :
  valid h m s us ->
  exists x,
    standard_to_seconds [h; m; s; us] = Ok x /\
    F64.floor x = Ok (h * 3600 + m * 60 + s).
Proof.
  intros Hv. exists (stn_of h m s us).
  split; [exact (standard_to_seconds_valid h m s us Hv)|].
  destruct (stn_of_spec h m s us Hv) as [(Hc & _ & _) _].
  rewrite (floor_correct _ Hc), (stn_floor h m s us Hv). reflexivity.
Qed.

Lemma seconds_integral_part_witness :
  valid 23 59 59 999999 /\
  exists x,
    standard_to_seconds [23; 59; 59; 999999] = Ok x /\
    F64.floor x = Ok (23 * 3600 + 59 * 60 + 59).
Proof.
  split; [exact valid_max|]. apply (seconds_integral_part 23 59 59 999999 valid_max).
Defined.

(** X5: on a valid time with no microseconds [standard_to_seconds] is
    exact: it returns the float of the integer
    [hour*3600 + minute*60 + second]. *)
Theorem seconds_exact_whole (h m s : Z) :
  valid h m s 0 ->
  standard_to_seconds [h; m; s; 0] = Ok (F64.lit (h * 3600 + m * 60 + s)).
Proof.
  intros Hv. rewrite (standard_to_seconds_valid h m s 0 Hv).
  now rewrite (stn_whole h m s Hv).
Qed.

Lemma seconds_exact_whole_witness :
  valid 7 8 9 0 /\
  standard_to_seconds [7; 8; 9; 0] = Ok (F64.lit (7 * 3600 + 8 * 60 + 9)).
Proof.
  assert (Hv : valid 7 8 9 0) by (unfold valid; lia).
  split; [exact Hv|]. apply (seconds_exact_whole 7 8 9 Hv).
Defined.

(** X6: [standard_to_seconds] is injective on valid times: two valid times
    with the same float of seconds since midnight are the same time, so no
    two distinct microseconds of the day are merged by the roundings. *)
Theorem seconds_injective (h1 m1 s1 u1 h2 m2 s2 u2 : Z) :
  valid h1 m1 s1 u1 -> valid h2 m2 s2 u2 ->
  standard_to_seconds [h1; m1; s1; u1] = standard_to_seconds [h2; m2; s2; u2] ->
  h1 = h2 /\ m1 = m2 /\ s1 = s2 /\ u1 = u2.
Proof.
  intros H1 H2 E.
  rewrite (standard_to_seconds_valid _ _ _ _ H1) in E.
  rewrite (standard_to_seconds_valid _ _ _ _ H2) in E.
  injection E as E.
  apply (micros_inj _ _ _ _ _ _ _ _ H1 H2). now apply stn_inj.
Qed.

Lemma seconds_injective_witness :
  valid 1 2 3 4 /\ valid 1 2 3 4 /\
  standard_to_seconds [1; 2; 3; 4] = standard_to_seconds [1; 2; 3; 4] /\
  (1 = 1 /\ 2 = 2 /\ 3 = 3 /\ 4 = 4).
Proof.
  assert (Hv : valid 1 2 3 4) by (unfold valid; lia).
  split; [exact Hv|]. split; [exact Hv|]. split; [reflexivity|].
  apply (seconds_injective 1 2 3 4 1 2 3 4 Hv Hv). reflexivity.
Defined.

(** X7: on every valid time the three fields returned by
    [standard_to_decimal] recombine to the integral part of the rescaled
    float [stn_secs * (100000 / 86400)]:
    [dec_hrs*10000 + dec_mins*100 + dec_secs] is its floor, so the two
    subtractions and the three floors of the function lose nothing. *)
Theorem decimal_fields_recombine (h m s us : Z) :
  valid h m s us ->
  exists x n dh dm ds,
    standard_to_seconds [h; m; s; us] = Ok x /\
    F64.floor (F64.mul x (F64.div (DecimalDay.value SECONDS)
                                  (StandardDay.value SECONDS))) = Ok n /\
    standard_to_decimal [h; m; s; us] = Ok (dh, dm, ds) /\
    dh * 10000 + dm * 100 + ds = n.
Proof.
  intros Hv. pose (n := V (ds_of h m s us) / U).
  exists (stn_of h m s us), n, (n / 10000), ((n mod 10000) / 100), (n mod 100).
  split; [exact (standard_to_seconds_valid h m s us Hv)|].
  destruct (ds_spec h m s us Hv) as [(Hc & _ & _) _].
  split; [exact (floor_correct _ Hc)|].
  split; [exact (standard_to_decimal_count h m s us Hv)|].
  exact (fields_of_sum n).
Qed.

Lemma decimal_fields_recombine_witness :
  valid 12 30 15 500000 /\
  exists x n dh dm ds,
    standard_to_seconds [12; 30; 15; 500000] = Ok x /\
    F64.floor (F64.mul x (F64.div (DecimalDay.value SECONDS)
                                  (StandardDay.value SECONDS))) = Ok n /\
    standard_to_decimal [12; 30; 15; 500000] = Ok (dh, dm, ds) /\
    dh * 10000 + dm * 100 + ds = n.
Proof.
  assert (Hv : valid 12 30 15 500000) by (unfold valid; lia).
  split; [exact Hv|]. apply (decimal_fields_recombine 12 30 15 500000 Hv).
Defined.

(** X8: when the time advances by one microsecond, the decimal time stays
    or advances by exactly one decimal second: with [n1] and [n2] the counts
    of decimal seconds whose fields are returned, [n1 <= n2 <= n1 + 1]. *)
Theorem decimal_steps_by_one (h1 m1 s1 u1 h2 m2 s2 u2 : Z) :
  valid h1 m1 s1 u1 -> valid h2 m2 s2 u2 ->
  micros h2 m2 s2 u2 = micros h1 m1 s1 u1 + 1 ->
  exists n1 n2,
    standard_to_decimal [h1; m1; s1; u1] = Ok (fields_of n1) /\
    standard_to_decimal [h2; m2; s2; u2] = Ok (fields_of n2) /\
    n1 <= n2 <= n1 + 1.
Proof.
  intros H1 H2 E. pose proof U_pos as HU.
  exists (V (ds_of h1 m1 s1 u1) / U), (V (ds_of h2 m2 s2 u2) / U).
  split; [exact (standard_to_decimal_count _ _ _ _ H1)|].
  split; [exact (standard_to_decimal_count _ _ _ _ H2)|].
  split.
  - apply Z.div_le_mono; [exact HU|].
    apply ds_mono; [exact H1|exact H2|]. apply time_lt_micros; [exact H1|exact H2|lia].
  - destruct (count_bounds _ _ _ _ H1) as [X1 [L1 _]].
    destruct (count_bounds _ _ _ _ H2) as [_ [_ R2]].
    rewrite E in R2.
    set (K := micros h1 m1 s1 u1) in *. clearbody K.
    destruct (Z.eq_dec (K mod 864000) 0) as [Hz|Hz].
    + assert ((K + 1) / 864000 = K / 864000)
        by (Z.to_euclidean_division_equations; lia).
      lia.
    + rewrite (X1 Hz).
      assert ((K + 1) / 864000 <= K / 864000 + 1)
        by (Z.to_euclidean_division_equations; lia).
      lia.
Qed.

Lemma decimal_steps_by_one_witness :
  valid 0 1 40 223999 /\ valid 0 1 40 224000 /\
  micros 0 1 40 224000 = micros 0 1 40 223999 + 1 /\
  exists n1 n2,
    standard_to_decimal [0; 1; 40; 223999] = Ok (fields_of n1) /\
    standard_to_decimal [0; 1; 40; 224000] = Ok (fields_of n2) /\
    n1 <= n2 <= n1 + 1.
Proof.
  assert (H1 : valid 0 1 40 223999) by (unfold valid; lia).
  assert (H2 : valid 0 1 40 224000) by (unfold valid; lia).
  assert (E : micros 0 1 40 224000 = micros 0 1 40 223999 + 1) by reflexivity.
  split; [exact H1|]. split; [exact H2|]. split; [exact E|].
  apply (decimal_steps_by_one 0 1 40 223999 0 1 40 224000 H1 H2 E).
Defined.

(** X9: every decimal time is displayed at some moment of the day: for each
    decimal hour 0-9, decimal minute 0-99 and decimal second 0-99 there is a
    valid time on which [standard_to_decimal] returns exactly these
    fields. *)
Theorem every_decimal_time_reached (dh dm ds : Z) :
  0 <= dh <= 9 -> 0 <= dm <= 99 -> 0 <= ds <= 99 ->
  exists h m s us,
    valid h m s us /\ standard_to_decimal [h; m; s; us] = Ok (dh, dm, ds).
Proof.
  intros Hdh Hdm Hds.
  set (n := dh * 10000 + dm * 100 + ds).
  assert (Hn : 0 <= n <= 99999) by (unfold n; lia).
  set (K := 864000 * n + 1).
  assert (HK : 0 <= K <= 86399999999) by (unfold K; lia).
  pose proof (time_of_micros_valid K HK) as HT.
  destruct (time_of_micros K) as [[[h m] s] us]. destruct HT as [Hv EK].
  exists h, m, s, us. split; [exact Hv|].
  assert (Hz : micros h m s us mod 864000 <> 0).
  { rewrite EK. unfold K. clearbody n. Z.to_euclidean_division_equations. lia. }
  rewrite (decimal_exact h m s us Hv Hz), exact_fields, EK.
  assert (Eq : K / 864000 = n).
  { unfold K. clearbody n. Z.to_euclidean_division_equations. lia. }
  rewrite Eq. unfold n. f_equal. apply fields_of_digits; lia.
Qed.

Lemma every_decimal_time_reached_witness :
  0 <= 9 <= 9 /\ 0 <= 99 <= 99 /\ 0 <= 0 <= 99 /\
  exists h m s us,
    valid h m s us /\ standard_to_decimal [h; m; s; us] = Ok (9, 99, 0).
Proof.
  split; [lia|]. split; [lia|]. split; [lia|].
  apply (every_decimal_time_reached 9 99 0); lia.
Defined.

(** X10: a tuple with fewer than four elements never converts:
    [standard_to_seconds] raises, [standard_to_decimal] and
    [DecimalClock.__str__] propagate the same exception.  It is the
    out-of-range index, unless an element is an int too large for a float;
    for elements between 0 and [2^53] it is always the out-of-range
    index. *)
Theorem short_tuple_raises (dt : tuple) :
  (List.length dt < 4)%nat ->
  exists e,
    (e = IndexError \/ e = OverflowError) /\
    standard_to_seconds dt = Raise e /\
    standard_to_decimal dt = Raise e /\
    DecimalClock_str (mkClock dt) = Raise e /\
    (Forall (fun x => 0 <= x < 2 ^ 53) dt -> e = IndexError).
Proof.
  intros Hlen.
  assert (Hs : exists e, (e = IndexError \/ e = OverflowError) /\
                 standard_to_seconds dt = Raise e /\
                 (Forall (fun x => 0 <= x < 2 ^ 53) dt -> e = IndexError)).
  { destruct dt as [|a [|b [|c [|d r]]]]; cbn [List.length] in Hlen; try lia;
      unfold standard_to_seconds, index; cbn [nth_error bind].
    - exists IndexError. split; [now left|]. split; [reflexivity|]. reflexivity.
    - destruct (F64.of_int a) as [fa|ea] eqn:Ea; cbn [bind].
      + exists IndexError. split; [now left|]. split; reflexivity.
      + exists ea. pose proof (raise_of_int_overflow a ea Ea) as ->.
        split; [now right|]. split; [reflexivity|].
        intros HF. inversion HF as [|? ? Ha _]; subst.
        rewrite (of_int_correct a Ha) in Ea. discriminate Ea.
    - destruct (F64.of_int a) as [fa|ea] eqn:Ea; cbn [bind].
      + destruct (F64.of_int b) as [fb|eb] eqn:Eb; cbn [bind].
        * exists IndexError. split; [now left|]. split; reflexivity.
        * exists eb. pose proof (raise_of_int_overflow b eb Eb) as ->.
          split; [now right|]. split; [reflexivity|].
          intros HF. inversion HF as [|? ? _ HF']; subst.
          inversion HF' as [|? ? Hb _]; subst.
          rewrite (of_int_correct b Hb) in Eb. discriminate Eb.
      + exists ea. pose proof (raise_of_int_overflow a ea Ea) as ->.
        split; [now right|]. split; [reflexivity|].
        intros HF. inversion HF as [|? ? Ha _]; subst.
        rewrite (of_int_correct a Ha) in Ea. discriminate Ea.
    - destruct (F64.of_int a) as [fa|ea] eqn:Ea; cbn [bind].
      + destruct (F64.of_int b) as [fb|eb] eqn:Eb; cbn [bind].
        * exists IndexError. split; [now left|]. split; reflexivity.
        * exists eb. pose proof (raise_of_int_overflow b eb Eb) as ->.
          split; [now right|]. split; [reflexivity|].
          intros HF. inversion HF as [|? ? _ HF']; subst.
          inversion HF' as [|? ? Hb _]; subst.
          rewrite (of_int_correct b Hb) in Eb. discriminate Eb.
      + exists ea. pose proof (raise_of_int_overflow a ea Ea) as ->.
        split; [now right|]. split; [reflexivity|].
        intros HF. inversion HF as [|? ? Ha _]; subst.
        rewrite (of_int_correct a Ha) in Ea. discriminate Ea. }
  destruct Hs as (e & He & Es & HF). exists e.
  split; [exact He|]. split; [exact Es|].
  assert (Ed : standard_to_decimal dt = Raise e).
  { unfold standard_to_decimal. rewrite Es. reflexivity. }
  split; [exact Ed|]. split; [|exact HF].
  unfold DecimalClock_str. cbn [current_time]. rewrite Ed. reflexivity.
Qed.

Lemma short_tuple_raises_witness :
  (List.length [12; 30; 15] < 4)%nat /\
  exists e,
    (e = IndexError \/ e = OverflowError) /\
    standard_to_seconds [12; 30; 15] = Raise e /\
    standard_to_decimal [12; 30; 15] = Raise e /\
    DecimalClock_str (mkClock [12; 30; 15]) = Raise e /\
    (Forall (fun x => 0 <= x < 2 ^ 53) [12; 30; 15] -> e = IndexError).
Proof.
  assert (Hl : (List.length [12; 30; 15] < 4)%nat) by (simpl; lia).
  split; [exact Hl|]. apply (short_tuple_raises [12; 30; 15] Hl).
Defined.

(** X11: after any sequence of ticks the clock holds exactly the last
    reading, as the 4-tuple (hour, minute, second, microsecond): the state
    before the ticks and the earlier readings leave no trace. *)
Theorem ticks_keep_last_reading (c : Clock) (nows : list datetime) (now : datetime) :
  fold_left do_tick (nows ++ [now]) c
  = mkClock [dt_hour now; dt_minute now; dt_second now; dt_microsecond now].
Proof.
  rewrite fold_left_app. cbn [fold_left]. apply do_tick_eq.
Qed.

(** X12: one cycle of the loop of [main] on two valid readings, whatever
    the clocks held before (freshly constructed clocks included): both
    clocks hold their reading, and the line written is a carriage return,
    "STANDARD: ", the hour, minute and second of the first reading on two
    digits each, four spaces, "DECIMAL: ", the decimal time of the second
    reading on two, two and three digits, and a space.  The line always has
    42 characters, so each line overwrites the previous one entirely. *)
Theorem cycle_line (standard_clock decimal_clock : Clock) (now_s now_d : datetime) :
  valid_now now_s -> valid_now now_d ->
  exists dh dm ds line,
    standard_to_decimal (tick now_d) = Ok (dh, dm, ds) /\
    cycle standard_clock decimal_clock now_s now_d
    = (mkClock (tick now_s), mkClock (tick now_d), Ok line) /\
    line = cr ++ "STANDARD: "
              ++ two_digits (dt_hour now_s) ++ ":" ++ two_digits (dt_minute now_s)
              ++ ":" ++ two_digits (dt_second now_s)
              ++ "    DECIMAL: "
              ++ two_digits dh ++ ":" ++ two_digits dm ++ ":" ++ three_digits ds
              ++ " " /\
    String.length line = 42%nat.
Proof.
  intros Hs Hd. unfold valid_now in Hs, Hd.
  destruct (standard_to_decimal_range _ _ _ _ Hd) as (dh & dm & ds & E & Hdh & Hdm & Hds).
  exists dh, dm, ds. eexists.
  split; [exact E|].
  assert (Es : Clock_str (mkClock (tick now_s))
               = two_digits (dt_hour now_s) ++ ":" ++ two_digits (dt_minute now_s)
                 ++ ":" ++ two_digits (dt_second now_s))
    by exact (Clock_str_valid _ _ _ _ Hs).
  assert (Ed : DecimalClock_str (mkClock (tick now_d))
               = Ok (two_digits dh ++ ":" ++ two_digits dm ++ ":" ++ three_digits ds))
    by exact (DecimalClock_str_fields _ _ _ _ E Hdh Hdm Hds).
  unfold cycle. rewrite !do_tick_eq. unfold render, print.
  rewrite Es, Ed. cbn [bind].
  rewrite append_empty_r.
  split; [reflexivity|]. split; reflexivity.
Qed.

Lemma cycle_line_witness :
  valid_now (mkDatetime 12 0 0 0) /\ valid_now (mkDatetime 12 0 0 1) /\
  exists dh dm ds line,
    standard_to_decimal (tick (mkDatetime 12 0 0 1)) = Ok (dh, dm, ds) /\
    cycle Clock_new Clock_new (mkDatetime 12 0 0 0) (mkDatetime 12 0 0 1)
    = (mkClock (tick (mkDatetime 12 0 0 0)), mkClock (tick (mkDatetime 12 0 0 1)),
       Ok line) /\
    line = cr ++ "STANDARD: "
              ++ two_digits (dt_hour (mkDatetime 12 0 0 0)) ++ ":"
              ++ two_digits (dt_minute (mkDatetime 12 0 0 0))
              ++ ":" ++ two_digits (dt_second (mkDatetime 12 0 0 0))
              ++ "    DECIMAL: "
              ++ two_digits dh ++ ":" ++ two_digits dm ++ ":" ++ three_digits ds
              ++ " " /\
    String.length line = 42%nat.
Proof.
  assert (H1 : valid_now (mkDatetime 12 0 0 0)) by (unfold valid_now, valid; simpl; lia).
  assert (H2 : valid_now (mkDatetime 12 0 0 1)) by (unfold valid_now, valid; simpl; lia).
  split; [exact H1|]. split; [exact H2|].
  apply (cycle_line Clock_new Clock_new _ _ H1 H2).
Defined.

(** X13: the unit tables.  The three standard tables agree with each other
    on every unit: a day is 24 hours and an hour is 60 minutes, in seconds,
    in minutes and in hours.  The decimal tables agree on the seconds (a day
    is 10 hours, an hour is 100 minutes) and on the hours of a day; the entry
    [DecimalDay.MINUTES] is 10000, the value of [DecimalHour.SECONDS] by
    which [standard_to_decimal] divides, and not the 1000 decimal minutes of
    a day, and [DecimalMinute.HOURS] is 0.1, ten times the hundredth of an
    hour. *)
Theorem unit_tables :
  (forall u, StandardDay.value u = F64.mul (F64.lit 24) (StandardHour.value u)) /\
  (forall u, StandardHour.value u = F64.mul (F64.lit 60) (StandardMinute.value u)) /\
  DecimalDay.value SECONDS = F64.mul (F64.lit 10) (DecimalHour.value SECONDS) /\
  DecimalDay.value HOURS = F64.mul (F64.lit 10) (DecimalHour.value HOURS) /\
  DecimalHour.value SECONDS = F64.mul (F64.lit 100) (DecimalMinute.value SECONDS) /\
  DecimalHour.value MINUTES = F64.mul (F64.lit 100) (DecimalMinute.value MINUTES) /\
  DecimalDay.value MINUTES = DecimalHour.value SECONDS /\
  DecimalDay.value MINUTES
  = F64.mul (F64.lit 10) (F64.mul (F64.lit 10) (DecimalHour.value MINUTES)) /\
  F64.mul (F64.lit 100) (DecimalMinute.value HOURS)
  = F64.mul (F64.lit 10) (DecimalHour.value HOURS).
Proof.
  split; [intros [| |]; vm_compute; reflexivity|].
  split; [intros [| |]; vm_compute; reflexivity|].
  split; [vm_compute; reflexivity|]. split; [vm_compute; reflexivity|].
  split; [vm_compute; reflexivity|]. split; [vm_compute; reflexivity|].
  split; [vm_compute; reflexivity|]. split; vm_compute; reflexivity.
Qed.

(** X14: the standard display is unambiguous: two valid times shown by
    [Clock.__str__] as the same text have the same hour, minute and
    second. *)
Theorem standard_display_injective (h1 m1 s1 u1 h2 m2 s2 u2 : Z) :
  valid h1 m1 s1 u1 -> valid h2 m2 s2 u2 ->
  Clock_str (mkClock [h1; m1; s1; u1]) = Clock_str (mkClock [h2; m2; s2; u2]) ->
  h1 = h2 /\ m1 = m2 /\ s1 = s2.
Proof.
  intros H1 H2 E.
  rewrite (Clock_str_valid _ _ _ _ H1), (Clock_str_valid _ _ _ _ H2) in E.
  destruct H1 as (Hh1 & Hm1 & Hs1 & _). destruct H2 as (Hh2 & Hm2 & Hs2 & _).
  unfold two_digits in E. cbn [append] in E.
  injection E as A1 A2 B1 B2 C1 C2.
  split; [|split]; apply two_digits_inj; try lia; unfold two_digits; congruence.
Qed.

Lemma standard_display_injective_witness :
  valid 1 2 3 4 /\ valid 1 2 3 5 /\
  Clock_str (mkClock [1; 2; 3; 4]) = Clock_str (mkClock [1; 2; 3; 5]) /\
  (1 = 1 /\ 2 = 2 /\ 3 = 3).
Proof.
  assert (H1 : valid 1 2 3 4) by (unfold valid; lia).
  assert (H2 : valid 1 2 3 5) by (unfold valid; lia).
  assert (E : Clock_str (mkClock [1; 2; 3; 4]) = Clock_str (mkClock [1; 2; 3; 5]))
    by reflexivity.
  split; [exact H1|]. split; [exact H2|]. split; [exact E|].
  apply (standard_display_injective 1 2 3 4 1 2 3 5 H1 H2 E).
Defined.

(** X15: the decimal display is unambiguous: two valid times shown by
    [DecimalClock.__str__] as the same text have the same decimal time. *)
Theorem decimal_display_injective (h1 m1 s1 u1 h2 m2 s2 u2 : Z) :
  valid h1 m1 s1 u1 -> valid h2 m2 s2 u2 ->
  DecimalClock_str (mkClock [h1; m1; s1; u1])
  = DecimalClock_str (mkClock [h2; m2; s2; u2]) ->
  standard_to_decimal [h1; m1; s1; u1] = standard_to_decimal [h2; m2; s2; u2].
Proof.
  intros H1 H2 E.
  destruct (standard_to_decimal_range _ _ _ _ H1) as (a1 & b1 & c1 & E1 & Ha1 & Hb1 & Hc1).
  destruct (standard_to_decimal_range _ _ _ _ H2) as (a2 & b2 & c2 & E2 & Ha2 & Hb2 & Hc2).
  rewrite (DecimalClock_str_fields _ _ _ _ E1 Ha1 Hb1 Hc1) in E.
  rewrite (DecimalClock_str_fields _ _ _ _ E2 Ha2 Hb2 Hc2) in E.
  rewrite E1, E2. apply Ok_inj in E.
  apply decimal_text_inj in E; [|assumption..].
  destruct E as (-> & -> & ->). reflexivity.
Qed.

Lemma decimal_display_injective_witness :
  valid 1 2 3 4 /\ valid 1 2 3 5 /\
  DecimalClock_str (mkClock [1; 2; 3; 4]) = DecimalClock_str (mkClock [1; 2; 3; 5]) /\
  standard_to_decimal [1; 2; 3; 4] = standard_to_decimal [1; 2; 3; 5].
Proof.
  assert (H1 : valid 1 2 3 4) by (unfold valid; lia).
  assert (H2 : valid 1 2 3 5) by (unfold valid; lia).
  assert (E : DecimalClock_str (mkClock [1; 2; 3; 4])
              = DecimalClock_str (mkClock [1; 2; 3; 5])) by (vm_compute; reflexivity).
  split; [exact H1|]. split; [exact H2|]. split; [exact E|].
  apply (decimal_display_injective 1 2 3 4 1 2 3 5 H1 H2 E).
Defined.

(** X16: for every valid time the text of [DecimalClock.__str__] has a
    colon at positions 2 and 5 and the character 0 at position 6: the
    decimal second, padded to three digits, never exceeds 99, so its first
    digit is always 0. *)
Theorem decimal_display_leading_zero (h m s us : Z) :
  valid h m s us ->
  exists str,
    DecimalClock_str (mkClock [h; m; s; us]) = Ok str /\
    String.get 2 str = Some ":"%char /\
    String.get 5 str = Some ":"%char /\
    String.get 6 str = Some "0"%char.
Proof.
  intros Hv.
  destruct (standard_to_decimal_range _ _ _ _ Hv) as (dh & dm & ds & E & Hdh & Hdm & Hds).
  eexists. split; [exact (DecimalClock_str_fields _ _ _ _ E Hdh Hdm Hds)|].
  split; [reflexivity|]. split; [reflexivity|].
  unfold two_digits, three_digits. cbn [append String.get].
  rewrite Z.div_small by lia. reflexivity.
Qed.

Lemma decimal_display_leading_zero_witness :
  valid 23 59 59 999999 /\
  exists str,
    DecimalClock_str (mkClock [23; 59; 59; 999999]) = Ok str /\
    String.get 2 str = Some ":"%char /\
    String.get 5 str = Some ":"%char /\
    String.get 6 str = Some "0"%char.
Proof.
  split; [exact valid_max|]. apply (decimal_display_leading_zero 23 59 59 999999 valid_max).
Defined.
